(** * Dbcube schema-builder: cube-file validator, dependency resolver and
      table orchestration, embedded from the TypeScript sources.

    Strings are [string] values whose characters are UTF-16 code units
    below 256.  File-system access, the [path] module, the configuration
    loader and the execution engine are external collaborators; they are
    gathered in records of functions ([Host], [Engine]) that the embedded
    code receives as an argument.  A JavaScript exception is a value of
    [Thrown]. *)

From Stdlib Require Import Bool Arith Lia ZArith List String Ascii Permutation.
Import ListNotations.
Open Scope nat_scope.
Open Scope list_scope.
Open Scope string_scope.

Set Implicit Arguments.

(** * The embedded program *)

(** ** Exceptions *)

Inductive Thrown (A : Type) : Type :=
| Returned (a : A)
| Threw (message : string).
Arguments Returned {A} a.
Arguments Threw {A} message.

(** ** JavaScript string primitives *)

Module JsString.

Definition lf : ascii := ascii_of_nat 10.
Definition cr : ascii := ascii_of_nat 13.

(** [\s] and the characters removed by [trim()], among code units < 256:
    TAB, LF, VT, FF, CR, SPACE and NBSP. *)
Definition is_space (c : ascii) : bool :=
  let n := nat_of_ascii c in
  (((9 <=? n) && (n <=? 13)) || (n =? 32) || (n =? 160))%nat.

Definition is_digit (c : ascii) : bool :=
  let n := nat_of_ascii c in ((48 <=? n) && (n <=? 57))%nat.

Definition is_alpha (c : ascii) : bool :=
  let n := nat_of_ascii c in
  (((65 <=? n) && (n <=? 90)) || ((97 <=? n) && (n <=? 122)))%nat.

(** [\w] is [A-Za-z0-9_]. *)
Definition is_word (c : ascii) : bool :=
  is_alpha c || is_digit c || Ascii.eqb c "_".

(** [.] without the [s] flag: anything but a line terminator. *)
Definition is_dot (c : ascii) : bool :=
  negb (Ascii.eqb c lf || Ascii.eqb c cr).

Fixpoint startsWith (s p : string) : bool :=
  match p with
  | EmptyString => true
  | String c p' =>
      match s with
      | EmptyString => false
      | String d s' => Ascii.eqb c d && startsWith s' p'
      end
  end.

(** [s.includes(p)] *)
Fixpoint includes (s p : string) : bool :=
  startsWith s p ||
  match s with
  | EmptyString => false
  | String _ s' => includes s' p
  end.

Fixpoint take (n : nat) (s : string) : string :=
  match n, s with
  | S n', String c s' => String c (take n' s')
  | _, _ => EmptyString
  end.

Fixpoint trimStart (s : string) : string :=
  match s with
  | String c s' => if is_space c then trimStart s' else s
  | EmptyString => EmptyString
  end.

(** [trimEnd] keeps a character when it is not a space or when something
    that survives follows it. *)
Fixpoint trimEnd (s : string) : string :=
  match s with
  | EmptyString => EmptyString
  | String c s' =>
      match trimEnd s' with
      | EmptyString => if is_space c then EmptyString else String c EmptyString
      | t => String c t
      end
  end.

Definition trim (s : string) : string := trimEnd (trimStart s).

(** [s.split('\n')]: always at least one piece. *)
Fixpoint split_lf (s : string) : list string :=
  match s with
  | EmptyString => [EmptyString]
  | String c s' =>
      if Ascii.eqb c lf then EmptyString :: split_lf s'
      else match split_lf s' with
           | l :: ls => String c l :: ls
           | [] => [String c EmptyString]
           end
  end.

(** [xs.join(sep)] *)
Fixpoint join (sep : string) (xs : list string) : string :=
  match xs with
  | [] => EmptyString
  | [x] => x
  | x :: rest => x ++ sep ++ join sep rest
  end.

(** [xs.includes(x)] on an array of strings. *)
Definition arrayIncludes (xs : list string) (x : string) : bool :=
  existsb (String.eqb x) xs.

(** [s.replace(/c/g, '')] for a single character [c]. *)
Fixpoint removeChar (c : ascii) (s : string) : string :=
  match s with
  | EmptyString => EmptyString
  | String d s' => if Ascii.eqb c d then removeChar c s' else String d (removeChar c s')
  end.

(** Number of occurrences of a character class, as in
    [(s.match(/[..]/g) || []).length]. *)
Fixpoint countChars (p : ascii -> bool) (s : string) : nat :=
  match s with
  | EmptyString => 0
  | String c s' => (if p c then 1 else 0) + countChars p s'
  end.

End JsString.
Import JsString.

(** ** Backtracking regular expressions

    The fragment of ECMAScript regular expressions that the sources use:
    character classes, sequence, alternation, greedy repetition, capture
    groups (never nested, never under a repetition), negative lookahead
    and the two anchors.  Matching follows the ECMAScript backtracking
    order: a repetition first tries one more iteration, an alternation
    first tries its left branch. *)

Module Regex.

Inductive regex : Type :=
| Chr (p : ascii -> bool)
| Eps
| Seq (r1 r2 : regex)
| Alt (r1 r2 : regex)
| Star (r : regex)
| Group (r : regex)
| NotAhead (r : regex)
| Bol
| Eol.

(** What a successful match leaves: the unread rest and the captures. *)
Definition MatchEnd : Type := (string * list string)%type.

Definition Cont : Type := nat -> string -> list string -> option MatchEnd.

Definition accept : Cont := fun _ s caps => Some (s, caps).

(** Greedy repetition of [body]: try one more iteration, which must
    consume something, and fall back on the continuation.  [n] bounds the
    number of iterations by the length of the unread input. *)
Definition starLoop (body : nat -> string -> list string -> Cont -> option MatchEnd)
  (k : Cont) : nat -> nat -> string -> list string -> option MatchEnd :=
  fix loop (n : nat) (pos : nat) (s : string) (caps : list string)
    {struct n} : option MatchEnd :=
    match n with
    | O => k pos s caps
    | S n' =>
        match body pos s caps
                (fun pos' s' caps' =>
                   if (String.length s' <? String.length s)%nat
                   then loop n' pos' s' caps' else None) with
        | Some e => Some e
        | None => k pos s caps
        end
    end.

(** [m r pos s caps k]: match [r] against [s], which starts at index
    [pos] of the subject, then continue with [k]. *)
Fixpoint m (r : regex) (pos : nat) (s : string) (caps : list string) (k : Cont)
  {struct r} : option MatchEnd :=
  match r with
  | Chr p =>
      match s with
      | String c s' => if p c then k (S pos) s' caps else None
      | EmptyString => None
      end
  | Eps => k pos s caps
  | Seq r1 r2 => m r1 pos s caps (fun pos' s' caps' => m r2 pos' s' caps' k)
  | Alt r1 r2 =>
      match m r1 pos s caps k with
      | Some e => Some e
      | None => m r2 pos s caps k
      end
  | Star r1 => starLoop (m r1) k (String.length s) pos s caps
  | Group r1 =>
      m r1 pos s caps
        (fun pos' s' caps' =>
           k pos' s' (caps' ++ [take (String.length s - String.length s') s])%list)
  | NotAhead r1 =>
      match m r1 pos s caps accept with
      | Some _ => None
      | None => k pos s caps
      end
  | Bol => if (pos =? 0)%nat then k pos s caps else None
  | Eol => match s with EmptyString => k pos s caps | _ => None end
  end.

(** Derived forms. *)
Definition Plus (r : regex) : regex := Seq r (Star r).
Definition Opt (r : regex) : regex := Alt r Eps.
Definition Lit1 (c : ascii) : regex := Chr (Ascii.eqb c).
Fixpoint Lit (s : string) : regex :=
  match s with
  | EmptyString => Eps
  | String c s' => Seq (Lit1 c) (Lit s')
  end.
Definition Space : regex := Chr is_space.
Definition Spaces : regex := Star Space.
Fixpoint seqs (rs : list regex) : regex :=
  match rs with
  | [] => Eps
  | [r] => r
  | r :: rs' => Seq r (seqs rs')
  end.

(** A match object: index, matched text ([match[0]]) and the groups. *)
Record Match : Type := mkMatch {
  index : nat;
  matched : string;
  groups : list string
}.

(** [r.exec(s)] without the [g] flag, and [s.match(r)]: the leftmost
    start position at which [r] matches. *)
Fixpoint search (r : regex) (pos : nat) (s : string) : option Match :=
  match m r pos s [] accept with
  | Some (rest, caps) =>
      Some (mkMatch pos (take (String.length s - String.length rest) s) caps)
  | None =>
      match s with
      | EmptyString => None
      | String _ s' => search r (S pos) s'
      end
  end.

Definition exec (r : regex) (s : string) : option Match := search r 0 s.

Definition test (r : regex) (s : string) : bool :=
  match exec r s with Some _ => true | None => false end.

Fixpoint drop (n : nat) (s : string) : string :=
  match n, s with
  | S n', String _ s' => drop n' s'
  | _, _ => s
  end.

(** Successive matches of a regex with the [g] flag: the [exec] loop and
    [s.match(r)].  After an empty match [lastIndex] advances by one. *)
Fixpoint execAll (fuel : nat) (r : regex) (pos : nat) (s : string) : list Match :=
  match fuel with
  | O => []
  | S fuel' =>
      match search r pos s with
      | None => []
      | Some mt =>
          let consumed := (index mt - pos) + String.length (matched mt) in
          match matched mt with
          | EmptyString =>
              match drop (index mt - pos) s with
              | EmptyString => [mt]
              | String _ s' => mt :: execAll fuel' r (S (index mt)) s'
              end
          | _ => mt :: execAll fuel' r (pos + consumed) (drop consumed s)
          end
      end
  end.

Definition matchAll (r : regex) (s : string) : list Match :=
  execAll (S (String.length s)) r 0 s.

Definition group1 (mt : Match) : string := nth 0 (groups mt) EmptyString.

End Regex.
Import Regex.

(** ** Quoted literals

    The double quote is written through its code so that string literals
    stay free of escapes. *)

Definition dquote : ascii := ascii_of_nat 34.
Definition squote : ascii := ascii_of_nat 39.
Definition dq : string := String dquote EmptyString.
Definition sq : string := String squote EmptyString.
(** [dquoted s] is s between double quotes, [squoted s] between single ones. *)
Definition dquoted (s : string) : string := dq ++ s ++ dq.
Definition squoted (s : string) : string := sq ++ s ++ sq.

Definition is_quote (c : ascii) : bool := Ascii.eqb c dquote || Ascii.eqb c squote.
Definition is_open_brace (c : ascii) : bool := Ascii.eqb c "{".
Definition is_close_brace (c : ascii) : bool := Ascii.eqb c "}".

(** ** The host: file system, [path] module, configuration loader *)

Record Host : Type := mkHost {
  (** [fs.readFileSync(p, 'utf8')] *)
  readFileSync : string -> Thrown string;
  (** [fs.existsSync(p)] *)
  existsSync : string -> bool;
  (** [fs.statSync(p).isFile()] *)
  statIsFile : string -> Thrown bool;
  (** [path.isAbsolute(p)] *)
  isAbsolute : string -> bool;
  (** [path.resolve(p)] *)
  resolve : string -> string;
  (** [path.join(process.cwd(), 'dbcube', p)] *)
  joinCwdDbcube : string -> string;
  (** [path.basename(p, ext)] *)
  basename : string -> string -> string;
  (** [path.extname(p)] *)
  extname : string -> string;
  (** [require(dbcube.config.js)] applied to a fresh [Config]: either the
      whole loading throws, or it yields [getDatabase], which maps a name
      to the truthiness of its configuration, or throws. *)
  loadConfig : Thrown (string -> Thrown bool);
  (** [FileUtils.getCubeFilesRecursively(dir, suffix)]: file discovery *)
  getCubeFilesRecursively : string -> string -> Thrown (list string);
  (** whether [.dbcube/orderexecute.json] can be written *)
  orderFileWritable : bool;
  (** [new Date().toISOString()] *)
  now : string
}.

(** ** UIUtils.ProcessError and CubeValidator.ValidationResult *)

Record ProcessError : Type := mkProcessError {
  itemName : string;
  error : string;
  filePath : string;
  lineNumber : option nat
}.

Record ValidationResult : Type := mkValidationResult {
  isValid : bool;
  errors : list ProcessError
}.

(** [xs.slice(a, b)] for in-range, non-negative bounds. *)
Definition slice {A : Type} (a b : nat) (xs : list A) : list A :=
  firstn (b - a) (skipn a xs).

(** [(line.match(/\{/g) || []).length] and its closing twin. *)
Definition openBraces (line : string) : nat := countChars is_open_brace line.
Definition closeBraces (line : string) : nat := countChars is_close_brace line.

Module CubeValidator.

Definition validTypes : list string :=
  ["varchar"; "int"; "string"; "text"; "boolean"; "date"; "datetime";
   "timestamp"; "decimal"; "float"; "double"; "enum"; "json"].
Definition validOptions : list string :=
  ["not null"; "primary"; "autoincrement"; "unique"; "zerofill"; "index";
   "required"; "unsigned"].
Definition validProperties : list string :=
  ["type"; "length"; "options"; "value"; "defaultValue"; "foreign";
   "enumValues"; "description"].
Definition knownAnnotations : list string :=
  ["database"; "table"; "meta"; "columns"; "fields"; "dataset"; "beforeAdd";
   "afterAdd"; "beforeUpdate"; "afterUpdate"; "beforeDelete"; "afterDelete";
   "compute"; "column"].

(** *** The regular expressions of the validator

    In the comments DQ stands for the double-quote character and IDENT
    for [[a-zA-Z_][a-zA-Z0-9_]*]. *)

Definition identifier : regex :=
  Seq (Chr (fun c => is_alpha c || Ascii.eqb c "_"))
      (Star (Chr (fun c => is_alpha c || is_digit c || Ascii.eqb c "_"))).

(** [/@(\w+)/g] *)
Definition annotationRegex : regex :=
  Seq (Lit "@") (Group (Plus (Chr is_word))).

(** [/type:\s*[DQ'](\w+)[DQ']/g] *)
Definition typeRegex : regex :=
  seqs [Lit "type:"; Spaces; Chr is_quote; Group (Plus (Chr is_word)); Chr is_quote].

(** [/^\s*options\s*:\s*\[( .* )\]\s*;?\s*$/], the group being a
    greedy run of dots. *)
Definition optionsRegex : regex :=
  seqs [Bol; Spaces; Lit "options"; Spaces; Lit ":"; Spaces; Lit "[";
        Group (Star (Chr is_dot)); Lit "]"; Spaces; Opt (Lit ";"); Spaces; Eol].

(** [[^DQ,\s]] and [[^DQ]] *)
Definition isTokenChar (c : ascii) : bool :=
  negb (Ascii.eqb c dquote || Ascii.eqb c "," || is_space c).
Definition notDquote (c : ascii) : bool := negb (Ascii.eqb c dquote).

(** [/[^DQ]* DQ/], the body of the lookahead *)
Definition quoteAhead : regex := Seq (Star (Chr notDquote)) (Lit1 dquote).

(** [/[^DQ,\s]+(?![^DQ]* DQ)/] *)
Definition invalidSyntaxRegex : regex :=
  Seq (Plus (Chr isTokenChar)) (NotAhead quoteAhead).

(** [/DQ([^DQ]* )DQ/g] *)
Definition quotedOptionRegex : regex :=
  seqs [Lit1 dquote; Group (Star (Chr notDquote)); Lit1 dquote].

(** [/^\s*(IDENT)\s*:/] *)
Definition propertyKeyRegex : regex :=
  seqs [Bol; Spaces; Group identifier; Spaces; Lit ":"].

(** [/^\s*IDENT\s*:\s*\{/] *)
Definition columnOpenRegex : regex :=
  seqs [Bol; Spaces; identifier; Spaces; Lit ":"; Spaces; Lit "{"].

(** [/^\s*(IDENT)\s*:\s*\{/] *)
Definition columnDefRegex : regex :=
  seqs [Bol; Spaces; Group identifier; Spaces; Lit ":"; Spaces; Lit "{"].

(** [/^\s*(IDENT)\s*:\s*$/] *)
Definition incompletePropertyRegex : regex :=
  seqs [Bol; Spaces; Group identifier; Spaces; Lit ":"; Spaces; Eol].

(** [/^\s*\}\s*;?\s*$/] *)
Definition closingBraceRegex : regex :=
  seqs [Bol; Spaces; Lit "}"; Spaces; Opt (Lit ";"); Spaces; Eol].

(** [/^\s*type\s*:/] *)
Definition typePropertyRegex : regex :=
  seqs [Bol; Spaces; Lit "type"; Spaces; Lit ":"].

(** [/^\s*type\s*:\s*DQ([^DQ]+)DQ/] *)
Definition typeValueRegex : regex :=
  seqs [Bol; Spaces; Lit "type"; Spaces; Lit ":"; Spaces; Lit1 dquote;
        Group (Plus (Chr (fun c => negb (Ascii.eqb c dquote)))); Lit1 dquote].

(** [/@(database|table)\s*\(\s*DQ([^DQ]* )DQ\s*\)/] *)
Definition stringAnnotationRegex : regex :=
  seqs [Lit "@"; Group (Alt (Lit "database") (Lit "table")); Spaces; Lit "(";
        Spaces; Lit1 dquote;
        Group (Star (Chr (fun c => negb (Ascii.eqb c dquote)))); Lit1 dquote;
        Spaces; Lit ")"].

(** [/@meta\s*\(\s*\{/] *)
Definition metaObjectRegex : regex :=
  seqs [Lit "@meta"; Spaces; Lit "("; Spaces; Lit "{"].

(** [/foreign\s*:\s*\{/] *)
Definition foreignOpenRegex : regex :=
  seqs [Lit "foreign"; Spaces; Lit ":"; Spaces; Lit "{"].

Section Checks.

Variables (filePath fileName : string).

Definition report (lineNumber : nat) (message : string) : ProcessError :=
  mkProcessError fileName message filePath (Some lineNumber).

Definition validateAnnotations (line : string) (lineNumber : nat) : list ProcessError :=
  flat_map
    (fun mt =>
       let annotation := group1 mt in
       if arrayIncludes knownAnnotations annotation then []
       else [report lineNumber
               ("Unknown annotation '@" ++ annotation ++ "'. Valid annotations: "
                ++ join ", " knownAnnotations)])
    (matchAll annotationRegex line).

Definition varcharDeclaration : string := "type: " ++ dquoted "varchar".

Definition varcharLengthMessage : string :=
  "VARCHAR type requires a length specification".

Definition validateDataTypes (line : string) (lineNumber : nat) (content : string)
  : list ProcessError :=
  (flat_map
     (fun mt =>
        let type := group1 mt in
        if arrayIncludes validTypes type then []
        else [report lineNumber
                ("Invalid data type '" ++ type ++ "'. Valid types: "
                 ++ join ", " validTypes)])
     (matchAll typeRegex line)
   ++
   (* Check for varchar without length *)
   if includes line varcharDeclaration then
     let lines := split_lf content in
     let hasLengthNearby :=
       existsb (fun nextLine => includes nextLine "length:")
         (slice (Nat.max 0 (lineNumber - 1))
                (Nat.min (lineNumber + 4) (List.length lines)) lines) in
     if hasLengthNearby then []
     else [report lineNumber varcharLengthMessage]
   else [])%list.

(** The backward scan of [getColumnTypeForOptions], over the lines above
    the options line, nearest first. *)
Fixpoint scanColumnType (above : list string) : string :=
  match above with
  | [] => "unknown"
  | line :: rest =>
      match exec typeValueRegex line with
      | Some typeMatch => group1 typeMatch
      | None => if test columnOpenRegex line then "unknown" else scanColumnType rest
      end
  end.

Definition getColumnTypeForOptions (lines : list string) (optionsLineIndex : nat) : string :=
  scanColumnType (rev (firstn optionsLineIndex lines)).

Definition compatibilityRules : list (string * list string) :=
  [("zerofill", ["int"; "decimal"; "float"; "double"]);
   ("unsigned", ["int"; "decimal"; "float"; "double"]);
   ("autoincrement", ["int"]);
   ("primary", ["int"; "varchar"; "string"]);
   ("not null", ["int"; "varchar"; "string"; "text"; "boolean"; "date";
                 "datetime"; "timestamp"; "decimal"; "float"; "double"]);
   ("unique", ["int"; "varchar"; "string"; "text"]);
   ("index", ["int"; "varchar"; "string"; "text"; "date"; "datetime"; "timestamp"]);
   ("required", ["int"; "varchar"; "string"; "text"; "boolean"; "date";
                 "datetime"; "timestamp"; "decimal"; "float"; "double"])].

Fixpoint lookupRule (rules : list (string * list string)) (key : string)
  : option (list string) :=
  match rules with
  | [] => None
  | (name, types) :: rest =>
      if String.eqb name key then Some types else lookupRule rest key
  end.

Definition isOptionCompatibleWithType (option type : string) : bool :=
  match lookupRule compatibilityRules option with
  | None => true
  | Some compatibleTypes => arrayIncludes compatibleTypes type
  end.

Definition invalidSyntaxMessage (token : string) : string :=
  "Invalid syntax '" ++ token ++ "' in options array. All values must be quoted strings".

Definition checkOption (columnType : string) (lineNumber : nat) (optionMatch : Match)
  : list ProcessError :=
  let option := removeChar dquote (matched optionMatch) in
  if String.eqb (trim option) EmptyString then
    [report lineNumber
       "Empty option found in options array. All options must have a value"]
  else if negb (arrayIncludes validOptions option) then
    [report lineNumber
       ("Invalid option '" ++ option ++ "'. Valid options: " ++ join ", " validOptions)]
  else if negb (String.eqb columnType "unknown")
          && negb (isOptionCompatibleWithType option columnType) then
    [report lineNumber
       ("Option '" ++ option ++ "' is not compatible with type '" ++ columnType ++ "'")]
  else [].

Definition validateColumnOptions (line : string) (lineNumber : nat) (lines : list string)
  : list ProcessError :=
  match exec optionsRegex line with
  | None => []
  | Some optionsMatch =>
      let optionsContent := trim (group1 optionsMatch) in
      (* Check for invalid syntax (values without quotes) *)
      match exec invalidSyntaxRegex optionsContent with
      | Some invalidSyntaxMatch =>
          [report lineNumber (invalidSyntaxMessage (matched invalidSyntaxMatch))]
      | None =>
          match matchAll quotedOptionRegex optionsContent with
          | [] => []
          | optionMatches =>
              let columnType := getColumnTypeForOptions lines (lineNumber - 1) in
              flat_map (checkOption columnType lineNumber) optionMatches
          end
      end
  end.

(** [isInsideColumnsBlock]: the inner loop that looks for the line on
    which the brace count of the [@columns] block returns to zero.  [j] is
    the index of the head of [rest], [i] the index of the [@columns] line. *)
Fixpoint findColumnsEnd (rest : list string) (j i : nat) (braceCount : Z) : option nat :=
  match rest with
  | [] => None
  | currentLine :: rest' =>
      let braceCount :=
        (braceCount + Z.of_nat (openBraces currentLine)
         - Z.of_nat (closeBraces currentLine))%Z in
      if (braceCount =? 0)%Z && (i <? j)%nat then Some j
      else findColumnsEnd rest' (S j) i braceCount
  end.

(** Index of the first element satisfying [p], counting from [i]. *)
Fixpoint findIndexFrom {A : Type} (p : A -> bool) (xs : list A) (i : nat) : option nat :=
  match xs with
  | [] => None
  | x :: xs' => if p x then Some i else findIndexFrom p xs' (S i)
  end.

Definition isInsideColumnsBlock (content : string) (lineIndex : nat) : bool :=
  let lines := split_lf content in
  match findIndexFrom (fun l => includes l "@columns") lines 0 with
  | None => false
  | Some columnsStartLine =>
      match findColumnsEnd (skipn columnsStartLine lines)
                           columnsStartLine columnsStartLine 0%Z with
      | None => false
      | Some columnsEndLine =>
          (columnsStartLine <? lineIndex)%nat && (lineIndex <? columnsEndLine)%nat
      end
  end.

(** [isInsideForeignKeyObject]: the inner loop over the lines from the
    [foreign] line to the current one.  [None] is the early [return false]. *)
Fixpoint foreignBraceCount (segment : list string) (first : bool) (braceCount : Z)
  : option Z :=
  match segment with
  | [] => Some braceCount
  | currentLine :: rest =>
      let braceCount :=
        (braceCount + (Z.of_nat (openBraces currentLine)
                       - Z.of_nat (closeBraces currentLine)))%Z in
      if (braceCount =? 0)%Z && negb first then None
      else foreignBraceCount rest false braceCount
  end.

(** The backward loop of [isInsideForeignKeyObject]; [n] is [i + 1]. *)
Fixpoint scanForeign (lines : list string) (lineIndex : nat) (n : nat) : bool :=
  match n with
  | O => false
  | S i =>
      let line := nth i lines EmptyString in
      if test foreignOpenRegex line then
        match foreignBraceCount (slice i (S lineIndex) lines) true 0%Z with
        | None => false
        | Some braceCount => (0 <? braceCount)%Z
        end
      else if String.eqb (trim line) "}" || includes line "};" then false
      else scanForeign lines lineIndex i
  end.

Definition isInsideForeignKeyObject (content : string) (lineIndex : nat) : bool :=
  let lines := split_lf content in
  scanForeign lines lineIndex (S lineIndex).

Definition validForeignKeyProperties : list string := ["table"; "column"].

Definition validateColumnProperties (line : string) (lineNumber : nat) (content : string)
  : list ProcessError :=
  match exec propertyKeyRegex line with
  | None => []
  | Some propMatch =>
      let propertyName := group1 propMatch in
      (* Skip column definitions (they end with opening brace) *)
      if test columnOpenRegex line then []
      else if isInsideForeignKeyObject content (lineNumber - 1) then
        if arrayIncludes validForeignKeyProperties propertyName then []
        else [report lineNumber
                ("Invalid foreign key property '" ++ propertyName
                 ++ "'. Valid foreign key properties: "
                 ++ join ", " validForeignKeyProperties)]
      else
        ((if isInsideColumnsBlock content (lineNumber - 1)
             && negb (arrayIncludes validProperties propertyName)
          then [report lineNumber
                  ("Invalid property '" ++ propertyName ++ "'. Valid properties: "
                   ++ join ", " validProperties)]
          else [])
         ++
         (if test incompletePropertyRegex line
          then [report lineNumber ("Property '" ++ propertyName ++ "' is missing a value")]
          else []))%list
  end.

Definition sumBraces (count : string -> nat) (segment : list string) : nat :=
  fold_left (fun acc l => acc + count l) segment 0.

(** The backward search of [validateRequiredColumnProperties] for the
    line that opens the block closed at [lineNumber]; [n] is [i + 1]. *)
Fixpoint findColumnStart (lines : list string) (lineNumber : nat) (n : nat)
  : option (nat * string) :=
  match n with
  | O => None
  | S i =>
      let currentLine := nth i lines EmptyString in
      match exec columnDefRegex currentLine with
      | Some columnDefMatch =>
          let segment := slice i lineNumber lines in
          if (sumBraces openBraces segment =? sumBraces closeBraces segment)%nat
          then Some (i, group1 columnDefMatch)
          else findColumnStart lines lineNumber i
      | None => findColumnStart lines lineNumber i
      end
  end.

Definition validateRequiredColumnProperties (lines : list string) (lineNumber : nat)
  : list ProcessError :=
  let line := nth (lineNumber - 1) lines EmptyString in
  (* Check if current line is the closing of a column definition *)
  if negb (test closingBraceRegex line) then []
  else
    match findColumnStart lines lineNumber (lineNumber - 1) with
    | None => []
    | Some (columnStartLine, columnName) =>
        if String.eqb columnName EmptyString then []
        else
          let hasType :=
            existsb (fun l => test typePropertyRegex l)
                    (slice (columnStartLine + 1) (lineNumber - 1) lines) in
          if negb hasType && negb (String.eqb columnName "foreign")
             && negb (String.eqb columnName "defaultValue")
          then [report (columnStartLine + 1)
                  ("Column '" ++ columnName ++ "' is missing required 'type' property")]
          else []
    end.

Definition validateGeneralSyntax (line : string) (lineNumber : nat) : list ProcessError :=
  ((* Check for mismatched quotes *)
   (if negb (Nat.even (countChars is_quote line))
    then [report lineNumber "Mismatched quotes detected"] else [])
   ++
   (* Check for invalid annotation syntax *)
   (if (includes line "@database" || includes line "@table")
       && negb (test stringAnnotationRegex line)
    then [report lineNumber
            ("Invalid annotation syntax. Expected format: @annotation("
             ++ dquoted "value" ++ ")")]
    else [])
   ++
   (* Check for @meta annotation syntax *)
   (if includes line "@meta" && negb (test metaObjectRegex line)
    then [report lineNumber "Invalid @meta syntax. Expected format: @meta({ ... })"]
    else []))%list.

Definition validateOverallStructure (content : string) : list ProcessError :=
  let lines := split_lf content in
  ((if existsb (fun line => includes line "@database") lines then []
    else [report 1 "Missing required @database annotation"])
   ++
   (if includes filePath ".table.cube" then
      if existsb (fun line => includes line "@columns") lines then []
      else [report 1 "Table cube files require @columns annotation"]
    else []))%list.

(** Skip empty lines and comments. *)
Definition skippedLine (line : string) : bool :=
  String.eqb (trim line) EmptyString || startsWith (trim line) "//".

(** The body of the line loop of [validateCubeFile] for one line. *)
Definition validateLine (content : string) (lines : list string)
  (lineIndex : nat) (line : string) : list ProcessError :=
  if skippedLine line then []
  else
    (validateAnnotations line (lineIndex + 1)
     ++ validateDataTypes line (lineIndex + 1) content
     ++ validateColumnOptions line (lineIndex + 1) lines
     ++ validateColumnProperties line (lineIndex + 1) content
     ++ validateRequiredColumnProperties lines (lineIndex + 1)
     ++ validateGeneralSyntax line (lineIndex + 1))%list.

(** The line loop, from index [lineIndex] on; [rest] is
    [lines.slice(lineIndex)]. *)
Fixpoint validateLinesFrom (content : string) (lines : list string)
  (lineIndex : nat) (rest : list string) : list ProcessError :=
  match rest with
  | [] => []
  | line :: rest' =>
      (validateLine content lines lineIndex line
       ++ validateLinesFrom content lines (S lineIndex) rest')%list
  end.

End Checks.

Definition validateCubeFile (host : Host) (filePath : string) : ValidationResult :=
  let errors :=
    match readFileSync host filePath with
    | Returned content =>
        let lines := split_lf content in
        let fileName := basename host filePath (extname host filePath) in
        (validateLinesFrom filePath fileName content lines 0 lines
         ++ validateOverallStructure filePath fileName content)%list
    | Threw message =>
        [mkProcessError (basename host filePath (extname host filePath))
           ("Failed to read cube file: " ++ message) filePath (Some 1)]
    end in
  mkValidationResult (match errors with [] => true | _ => false end) errors.

End CubeValidator.

(** ** FileUtils *)

Module FileUtils.

Record StatusMessage : Type := mkStatusMessage {
  status : Z;
  message : string
}.

(** [/@meta\s*\(\s*\{\s*name\s*:\s*[DQ']([^DQ']+)[DQ']\s*;\s*[^}]*\}\s*\)/s] *)
Definition metaNameRegex : regex :=
  seqs [Lit "@meta"; Spaces; Lit "("; Spaces; Lit "{"; Spaces; Lit "name"; Spaces;
        Lit ":"; Spaces; Chr is_quote; Group (Plus (Chr (fun c => negb (is_quote c))));
        Chr is_quote; Spaces; Lit ";"; Spaces;
        Star (Chr (fun c => negb (is_close_brace c))); Lit "}"; Spaces; Lit ")"].

(** [/@database\s*\(\s*[DQ']([^DQ']+)[DQ']\s*\)\s*;?/] *)
Definition databaseRegex : regex :=
  seqs [Lit "@database"; Spaces; Lit "("; Spaces; Chr is_quote;
        Group (Plus (Chr (fun c => negb (is_quote c)))); Chr is_quote; Spaces;
        Lit ")"; Spaces; Opt (Lit ";")].

Definition extractDatabaseNameFromCube (host : Host) (filePath : string) : StatusMessage :=
  match readFileSync host filePath with
  | Returned content =>
      match exec databaseRegex content with
      | Some databaseMatch => mkStatusMessage 200 (group1 databaseMatch)
      | None =>
          mkStatusMessage 500 ("No @database directive found in file " ++ filePath)
      end
  | Threw msg => mkStatusMessage 500 msg
  end.

Definition extracTableNameFromCube (host : Host) (filePath : string) : StatusMessage :=
  match readFileSync host filePath with
  | Returned content =>
      match exec metaNameRegex content with
      | Some metaMatch => mkStatusMessage 200 (group1 metaMatch)
      | None =>
          mkStatusMessage 500
            ("Error to execute this file " ++ filePath
             ++ " because no exist a name of table.")
      end
  | Threw msg => mkStatusMessage 500 msg
  end.

(** [[\w-]] *)
Definition isWordOrDash (c : ascii) : bool := is_word c || Ascii.eqb c "-".

(** [/@database\([DQ']?([\w-]+)[DQ']?\)/] *)
Definition databaseNameRegex : regex :=
  seqs [Lit "@database("; Opt (Chr is_quote); Group (Plus (Chr isWordOrDash));
        Opt (Chr is_quote); Lit ")"].

(** [extractDatabaseName(input)]: the name or [null]. *)
Definition extractDatabaseName (input : string) : option string :=
  match exec databaseNameRegex input with
  | Some mt => Some (group1 mt)
  | None => None
  end.

End FileUtils.

(** ** JavaScript [Map] with string keys

    Iteration follows insertion order; [set] on a present key keeps the
    key's position and replaces its value. *)

Module JsMap.

Section WithValue.
Variable V : Type.

Definition t : Type := list (string * V).

Definition empty : t := [].

Fixpoint get (mp : t) (k : string) : option V :=
  match mp with
  | [] => None
  | (k', v) :: rest => if String.eqb k' k then Some v else get rest k
  end.

Definition has (mp : t) (k : string) : bool :=
  match get mp k with Some _ => true | None => false end.

Fixpoint set (mp : t) (k : string) (v : V) : t :=
  match mp with
  | [] => [(k, v)]
  | (k', v') :: rest =>
      if String.eqb k' k then (k, v) :: rest else (k', v') :: set rest k v
  end.

Fixpoint delete (mp : t) (k : string) : t :=
  match mp with
  | [] => []
  | (k', v') :: rest =>
      if String.eqb k' k then rest else (k', v') :: delete rest k
  end.

Definition keys (mp : t) : list string := map fst mp.
Definition values (mp : t) : list V := map snd mp.

End WithValue.

Arguments empty {V}.

End JsMap.

(** ** DependencyResolver *)

Inductive CubeType : Type := table | seeder.

Definition cubeTypeName (cubeType : CubeType) : string :=
  match cubeType with table => "table" | seeder => "seeder" end.

(** The field [filePath] of the source is [depFilePath] here, the name
    [filePath] being taken by [ProcessError]. *)
Record TableDependency : Type := mkTableDependency {
  tableName : string;
  depFilePath : string;
  dependencies : list string
}.

Record ExecutionOrder : Type := mkExecutionOrder {
  tables : list string;
  seeders : list string;
  timestamp : string
}.

Module DependencyResolver.

(** [/table\s*:\s*[DQ']([^DQ']+)[DQ']/] *)
Definition tableRefRegex : regex :=
  seqs [Lit "table"; Spaces; Lit ":"; Spaces; Chr is_quote;
        Group (Plus (Chr (fun c => negb (is_quote c)))); Chr is_quote].

(** The loop state of [extractForeignKeyReferences]. *)
Record ScanState : Type := mkScanState {
  found : list string;
  insideForeignKey : bool;
  braceCount : Z
}.

Definition scanLine (st : ScanState) (line : string) : ScanState :=
  (* Check for foreign key start *)
  if test CubeValidator.foreignOpenRegex line then
    (* Check if table is on the same line *)
    match exec tableRefRegex line with
    | Some sameLineMatch =>
        mkScanState (found st ++ [group1 sameLineMatch])%list false 0
    | None => mkScanState (found st) true 1
    end
  else if insideForeignKey st then
    let braceCount :=
      (braceCount st + Z.of_nat (openBraces line) - Z.of_nat (closeBraces line))%Z in
    let found :=
      match exec tableRefRegex line with
      | Some tableMatch => (found st ++ [group1 tableMatch])%list
      | None => found st
      end in
    mkScanState found (negb (braceCount =? 0)%Z) braceCount
  else st.

Definition scanForeignKeys (content : string) : list string :=
  found (fold_left scanLine (split_lf content) (mkScanState [] false 0)).

Definition extractForeignKeyReferences (host : Host) (filePath : string) : list string :=
  match readFileSync host filePath with
  | Returned content => scanForeignKeys content
  | Threw _ => []
  end.

(** The table name of a file: the [@meta] name, or the file's base name
    without its [.<cubeType>.cube] suffix. *)
Definition tableNameOf (host : Host) (cubeType : CubeType) (file filePath : string)
  : string :=
  let tableNameResult := FileUtils.extracTableNameFromCube host filePath in
  if (FileUtils.status tableNameResult =? 200)%Z
  then FileUtils.message tableNameResult
  else basename host file ("." ++ cubeTypeName cubeType ++ ".cube").

Definition extractDependencies (host : Host) (cubeFiles : list string)
  (cubeType : CubeType) : list TableDependency :=
  map (fun file =>
         let filePath :=
           if isAbsolute host file then file
           else if existsSync host file then resolve host file
           else joinCwdDbcube host file in
         mkTableDependency (tableNameOf host cubeType file filePath) filePath
           (extractForeignKeyReferences host filePath))
      cubeFiles.

(** [inDegree.get(k) || 0] *)
Definition degreeOr0 (inDegree : JsMap.t Z) (k : string) : Z :=
  match JsMap.get inDegree k with Some d => d | None => 0%Z end.

(** Build graph and initialize in-degree.  The third map of the source,
    [tableMap], is written here and never read. *)
Definition buildGraph (deps : list TableDependency) : JsMap.t (list string) :=
  fold_left (fun graph dep => JsMap.set graph (tableName dep) (dependencies dep))
            deps JsMap.empty.

Definition initInDegree (deps : list TableDependency) : JsMap.t Z :=
  fold_left (fun inDegree dep => JsMap.set inDegree (tableName dep) 0%Z)
            deps JsMap.empty.

(** Calculate in-degrees. *)
Definition countInDegree (deps : list TableDependency) (inDegree : JsMap.t Z)
  : JsMap.t Z :=
  fold_left
    (fun inDegree dep =>
       fold_left
         (fun inDegree dependency =>
            if JsMap.has inDegree dependency
            then JsMap.set inDegree (tableName dep)
                   (degreeOr0 inDegree (tableName dep) + 1)%Z
            else inDegree)
         (dependencies dep) inDegree)
    deps inDegree.

(** Find all nodes with no incoming edges. *)
Definition initialQueue (inDegree : JsMap.t Z) : list string :=
  map fst (filter (fun entry => (snd entry =? 0)%Z) inDegree).

(** For each neighbor, reduce in-degree. *)
Definition relax (acc : JsMap.t Z * list string) (neighbor : string)
  : JsMap.t Z * list string :=
  let (inDegree, queue) := acc in
  if JsMap.has inDegree neighbor then
    let newDegree := (degreeOr0 inDegree neighbor - 1)%Z in
    let inDegree := JsMap.set inDegree neighbor newDegree in
    if (newDegree =? 0)%Z then (inDegree, (queue ++ [neighbor])%list)
    else (inDegree, queue)
  else (inDegree, queue).

(** The [while (queue.length > 0)] loop; [None] when the fuel runs out. *)
Fixpoint kahnLoop (fuel : nat) (graph : JsMap.t (list string))
  (inDegree : JsMap.t Z) (queue result : list string) : option (list string) :=
  match fuel with
  | O => None
  | S fuel' =>
      match queue with
      | [] => Some result
      | current :: queue' =>
          let result := (result ++ [current])%list in
          let currentDeps :=
            match JsMap.get graph current with Some ds => ds | None => [] end in
          let (inDegree', queue'') := fold_left relax currentDeps (inDegree, queue') in
          kahnLoop fuel' graph inDegree' queue'' result
      end
  end.

(** Everything of [topologicalSort] up to the end of the loop. *)
Definition kahn (fuel : nat) (deps : list TableDependency) : option (list string) :=
  let graph := buildGraph deps in
  let inDegree := countInDegree deps (initInDegree deps) in
  kahnLoop fuel graph inDegree (initialQueue inDegree) [].

(** Add remaining tables that weren't processed. *)
Definition appendRemaining (deps : list TableDependency) (result : list string)
  : list string :=
  fold_left
    (fun result dep =>
       if arrayIncludes result (tableName dep) then result
       else (result ++ [tableName dep])%list)
    deps result.

Definition topologicalSort (fuel : nat) (deps : list TableDependency)
  : option (list string) :=
  match kahn fuel deps with
  | None => None
  | Some result =>
      if (List.length result =? List.length deps)%nat then Some result
      else Some (appendRemaining deps result)
  end.

(** The persisted [.dbcube/orderexecute.json]: absent, unreadable and
    unparsable all load as [None]. *)
Definition Store : Type := option ExecutionOrder.

Definition loadExecutionOrder (store : Store) : option ExecutionOrder := store.

(** A failed write is caught and only logged. *)
Definition saveExecutionOrder (host : Host) (store : Store) (order : ExecutionOrder)
  : Store :=
  if orderFileWritable host then Some order else store.

(** [resolveDependencies] returns the order and the store it leaves. *)
Definition resolveDependencies (fuel : nat) (host : Host) (store : Store)
  (cubeFiles : list string) (cubeType : CubeType) : option (ExecutionOrder * Store) :=
  let tableDependencies := extractDependencies host cubeFiles cubeType in
  match topologicalSort fuel tableDependencies with
  | None => None
  | Some orderedTables =>
      let executionOrder :=
        mkExecutionOrder
          (match cubeType with table => orderedTables | seeder => [] end)
          (match cubeType with seeder => orderedTables | table => [] end)
          (now host) in
      Some (executionOrder, saveExecutionOrder host store executionOrder)
  end.

(** Create a map of table names to file paths. *)
Definition buildFileMap (host : Host) (cubeType : CubeType) (cubeFiles : list string)
  : JsMap.t string :=
  fold_left
    (fun fileMap file =>
       let filePath := if isAbsolute host file then file else joinCwdDbcube host file in
       JsMap.set fileMap (tableNameOf host cubeType file filePath) file)
    cubeFiles JsMap.empty.

(** Order files according to execution order (using table order). *)
Definition pickOrdered (orderList : list string) (fileMap : JsMap.t string)
  : list string * JsMap.t string :=
  fold_left
    (fun (acc : list string * JsMap.t string) tableName =>
       let (orderedFiles, fileMap) := acc in
       match JsMap.get fileMap tableName with
       | Some file => ((orderedFiles ++ [file])%list, JsMap.delete fileMap tableName)
       | None => acc
       end)
    orderList ([], fileMap).

Definition orderCubeFiles (host : Host) (store : Store) (cubeFiles : list string)
  (cubeType : CubeType) : list string :=
  match loadExecutionOrder store with
  | None => cubeFiles
  | Some executionOrder =>
      let orderList := tables executionOrder in
      let (orderedFiles, fileMap) :=
        pickOrdered orderList (buildFileMap host cubeType cubeFiles) in
      (* Add any remaining files that weren't in the order *)
      (orderedFiles ++ JsMap.values fileMap)%list
  end.

End DependencyResolver.

(** ** Schema: the passes over tables, seeders and triggers *)

Module Schema.

Inductive Mode : Type := refresh | fresh.

(** [findDatabaseLineNumber] *)
Definition findDatabaseLineNumber (host : Host) (filePath : string) : nat :=
  match readFileSync host filePath with
  | Returned content =>
      match CubeValidator.findIndexFrom (fun l => includes l "@database")
              (split_lf content) 0 with
      | Some i => i + 1
      | None => 1
      end
  | Threw _ => 1
  end.

(** The result of [validateDatabaseConfiguration]; [vError] is absent
    exactly when the file is valid. *)
Record Validation : Type := mkValidation {
  vIsValid : bool;
  vError : option ProcessError
}.

Definition testNames : list string :=
  ["test"; "development"; "production"; "local"; "main"].

Definition validateDatabaseConfiguration (host : Host) (filePath : string) : Validation :=
  let failure (msg : string) :=
    mkValidation false
      (Some (mkProcessError (basename host filePath (extname host filePath)) msg
               filePath (Some (findDatabaseLineNumber host filePath)))) in
  (* First, perform comprehensive cube file validation *)
  let cubeValidation := CubeValidator.validateCubeFile host filePath in
  match errors cubeValidation with
  | firstError :: _ => mkValidation false (Some firstError)
  | [] =>
      (* Extract database name from cube file *)
      let dbResult := FileUtils.extractDatabaseNameFromCube host filePath in
      if negb (FileUtils.status dbResult =? 200)%Z then
        failure ("Error reading database directive: " ++ FileUtils.message dbResult)
      else
        let cubeDbName := FileUtils.message dbResult in
        match loadConfig host with
        | Threw msg => failure ("Database configuration validation failed: " ++ msg)
        | Returned getDatabase =>
            match getDatabase cubeDbName with
            | Threw msg => failure ("Database configuration validation failed: " ++ msg)
            | Returned true => mkValidation true None
            | Returned false =>
                let availableDbs :=
                  filter (fun testName =>
                            match getDatabase testName with
                            | Returned true => true
                            | _ => false
                            end) testNames in
                let availableText :=
                  match availableDbs with
                  | [] => "none found"
                  | _ => join ", " availableDbs
                  end in
                failure ("Database configuration '" ++ cubeDbName
                         ++ "' not found in dbcube.config.js. Available: "
                         ++ availableText)
            end
        end
  end.

(** [extractForeignKeyDependencies]: the same scan as
    [DependencyResolver.extractForeignKeyReferences], line for line. *)
Definition extractForeignKeyDependencies (host : Host) (filePath : string) : list string :=
  match readFileSync host filePath with
  | Returned content => DependencyResolver.scanForeignKeys content
  | Threw _ => []
  end.

(** [findForeignKeyLineNumber] *)
Definition findForeignKeyLineNumber (host : Host) (filePath tableName : string) : nat :=
  match readFileSync host filePath with
  | Returned content =>
      match CubeValidator.findIndexFrom
              (fun l => includes l ("table: " ++ dquoted tableName)
                        || includes l ("table: " ++ squoted tableName))
              (split_lf content) 0 with
      | Some i => i + 1
      | None => 1
      end
  | Threw _ => 1
  end.

(** A JavaScript [Set] of strings, in insertion order. *)
Definition setHas (s : list string) (x : string) : bool := arrayIncludes s x.
Definition setAdd (s : list string) (x : string) : list string :=
  if setHas s x then s else (s ++ [x])%list.

Section WithEngine.

(** The engine's payloads ([response.data] and what is computed from it)
    are opaque values. *)
Variable Payload : Type.

Record Response : Type := mkResponse {
  status : Z;
  message : string;
  data : Payload
}.

(** What reaches the engine: [engine.run('schema_engine', args)] and
    [TableProcessor.saveQuery]. *)
Inductive EngineEvent : Type :=
| EngineRun (args : list string)
| SaveQuery (dmlData createQuery : Payload).

Record Engine : Type := mkEngine {
  (** the answer to [run] may depend on what the engine has seen so far *)
  run : list EngineEvent -> list string -> Thrown Response;
  (** [JSON.stringify(dml.data.actions)] and its three [replace] calls *)
  stringifyActions : Payload -> Thrown string;
  (** [delete queries.data.database_type] (refresh), [._type] (fresh) *)
  deleteTypeField : Mode -> Payload -> Thrown Payload;
  (** [JSON.stringify(queries.data)] *)
  stringifyData : Payload -> Thrown string;
  (** [queries.data.regular_queries.filter(q => q.includes(CREATE))[0]] *)
  createQueryOf : Payload -> Thrown Payload;
  (** [TableProcessor.saveQuery(dml.data.table, dml.data.database, q)] *)
  saveQuery : list EngineEvent -> Payload -> Payload -> Thrown unit
}.

Record PassState : Type := mkPassState {
  totalTablesProcessed : nat;
  successCount : nat;
  errorCount : nat;
  processedTables : list string;
  passErrors : list ProcessError;
  failedTables : list string;
  engineTrace : list EngineEvent
}.

Definition initialState : PassState := mkPassState 0 0 0 [] [] [] [].

(** How the [try] block of one file ends. *)
Inductive Outcome (A : Type) : Type :=
| Done (a : A)
| Caught (msg : string)
| ProcessExit.
Arguments Done {A} a.
Arguments Caught {A} msg.
Arguments ProcessExit {A}.

(** Computations of the [try] block thread the engine trace. *)
Definition Try (A : Type) : Type := list EngineEvent -> list EngineEvent * Outcome A.

Definition ret {A : Type} (a : A) : Try A := fun tr => (tr, Done a).

Definition bind {A B : Type} (c : Try A) (f : A -> Try B) : Try B :=
  fun tr =>
    match c tr with
    | (tr', Done a) => f a tr'
    | (tr', Caught msg) => (tr', Caught msg)
    | (tr', ProcessExit) => (tr', ProcessExit)
    end.

Definition lift {A : Type} (x : Thrown A) : Try A :=
  fun tr => match x with
            | Returned a => (tr, Done a)
            | Threw msg => (tr, Caught msg)
            end.

(** [await this.engine.run('schema_engine', args)] followed by the status
    test: [returnFormattedError] ends in [process.exit(1)]. *)
Definition runChecked (engine : Engine) (args : list string) : Try Response :=
  fun tr =>
    let tr' := (tr ++ [EngineRun args])%list in
    match run engine tr args with
    | Threw msg => (tr', Caught msg)
    | Returned response =>
        if (status response =? 200)%Z then (tr', Done response)
        else (tr', ProcessExit)
    end.

Definition callSaveQuery (engine : Engine) (dmlData createQuery : Payload) : Try unit :=
  fun tr =>
    let tr' := (tr ++ [SaveQuery dmlData createQuery])%list in
    match saveQuery engine tr dmlData createQuery with
    | Threw msg => (tr', Caught msg)
    | Returned u => (tr', Done u)
    end.

Notation "x <- c ;; k" := (bind c (fun x => k))
  (at level 61, c at next level, right associativity).

(** The engine calls of one table, after both checks have passed. *)
Definition engineSteps (mode : Mode) (engine : Engine) (filePath : string) : Try unit :=
  match mode with
  | refresh =>
      dml <- runChecked engine
               ["--action"; "parse_table"; "--mode"; "refresh"; "--schema-path"; filePath] ;;
      parseJson <- lift (stringifyActions engine (data dml)) ;;
      queries <- runChecked engine
               ["--action"; "generate"; "--mode"; "refresh"; "--dml"; parseJson] ;;
      queriesData <- lift (deleteTypeField engine refresh (data queries)) ;;
      parseJsonQueries <- lift (stringifyData engine queriesData) ;;
      response <- runChecked engine
               ["--action"; "execute"; "--mode"; "refresh"; "--dml"; parseJsonQueries] ;;
      createQuery <- lift (createQueryOf engine queriesData) ;;
      callSaveQuery engine (data dml) createQuery
  | fresh =>
      dml <- runChecked engine
               ["--action"; "parse_table"; "--schema-path"; filePath; "--mode"; "fresh"] ;;
      parseJson <- lift (stringifyActions engine (data dml)) ;;
      queries <- runChecked engine ["--action"; "generate"; "--dml"; parseJson] ;;
      queriesData <- lift (deleteTypeField engine fresh (data queries)) ;;
      createQuery <- lift (createQueryOf engine queriesData) ;;
      parseJsonQueries <- lift (stringifyData engine queriesData) ;;
      response <- runChecked engine
               ["--action"; "execute"; "--mode"; "fresh"; "--dml"; parseJsonQueries] ;;
      callSaveQuery engine (data dml) createQuery
  end.

Definition dependencyErrorMessage (mode : Mode) (tableName : string)
  (missingDependencies : list string) : string :=
  (match mode with
   | refresh => "Cannot refresh table '"
   | fresh => "Cannot create table '"
   end)
  ++ tableName ++ "' because it depends on failed table(s): "
  ++ join ", " missingDependencies.

(** Why a pass stops before its summary. *)
Inductive Rejection : Type :=
| CubesFolderMissing
| NoCubes
| DiscoveryThrew (msg : string)
| StatThrew (msg : string)
| OutOfFuel.

Inductive StepResult : Type :=
| Continue (st : PassState)
| Exited (st : PassState)
| Rejected (why : Rejection).

Definition recordFailure (st : PassState) (tableName : string) (e : ProcessError)
  (trace : list EngineEvent) : PassState :=
  mkPassState (totalTablesProcessed st) (successCount st) (S (errorCount st))
    (processedTables st) (passErrors st ++ [e])%list
    (setAdd (failedTables st) tableName) trace.

(** The body of the [for] loop for one file of the ordered list. *)
Definition processFile (mode : Mode) (host : Host) (engine : Engine)
  (st : PassState) (file : string) : StepResult :=
  let filePath := if isAbsolute host file then file else joinCwdDbcube host file in
  match statIsFile host filePath with
  | Threw msg => Rejected (StatThrew msg)
  | Returned false => Continue st
  | Returned true =>
      let tableName := DependencyResolver.tableNameOf host table file filePath in
      (* Validate database configuration before processing *)
      let validation := validateDatabaseConfiguration host filePath in
      match vIsValid validation, vError validation with
      | false, Some validationError =>
          Continue (recordFailure st tableName validationError (engineTrace st))
      | _, _ =>
          (* Check if any dependent tables failed *)
          let dependencies := extractForeignKeyDependencies host filePath in
          let missingDependencies := filter (setHas (failedTables st)) dependencies in
          match missingDependencies with
          | firstMissing :: _ =>
              let dependencyError :=
                mkProcessError tableName
                  (dependencyErrorMessage mode tableName missingDependencies)
                  filePath
                  (Some (findForeignKeyLineNumber host filePath firstMissing)) in
              Continue (recordFailure st tableName dependencyError (engineTrace st))
          | [] =>
              match engineSteps mode engine filePath (engineTrace st) with
              | (trace, Done _) =>
                  Continue
                    (mkPassState (S (totalTablesProcessed st)) (S (successCount st))
                       (errorCount st) (processedTables st ++ [tableName])%list
                       (passErrors st) (failedTables st) trace)
              | (trace, Caught msg) =>
                  Continue
                    (recordFailure st tableName
                       (mkProcessError tableName msg filePath None) trace)
              | (trace, ProcessExit) =>
                  Exited
                    (mkPassState (totalTablesProcessed st) (successCount st)
                       (errorCount st) (processedTables st) (passErrors st)
                       (failedTables st) trace)
              end
          end
      end
  end.

(** The [for] loop over the ordered files. *)
Fixpoint processFiles (mode : Mode) (host : Host) (engine : Engine)
  (st : PassState) (files : list string) : StepResult :=
  match files with
  | [] => Continue st
  | file :: rest =>
      match processFile mode host engine st file with
      | Continue st' => processFiles mode host engine st' rest
      | stop => stop
      end
  end.

(** [refreshTables] and [freshTables].  [cubesDir] is
    [path.join(process.cwd(), 'dbcube')], that is [joinCwdDbcube] of the
    empty path; console output is left out. *)
Definition runTables (mode : Mode) (fuel : nat) (host : Host) (engine : Engine)
  (store : DependencyResolver.Store) : StepResult :=
  if negb (existsSync host (joinCwdDbcube host EmptyString)) then Rejected CubesFolderMissing
  else
    match getCubeFilesRecursively host "dbcube" ".table.cube" with
    | Threw msg => Rejected (DiscoveryThrew msg)
    | Returned [] => Rejected NoCubes
    | Returned cubeFiles =>
        (* Resolve dependencies and create execution order *)
        match DependencyResolver.resolveDependencies fuel host store cubeFiles table with
        | None => Rejected OutOfFuel
        | Some (_, store') =>
            (* Order files based on dependencies *)
            let orderedCubeFiles :=
              DependencyResolver.orderCubeFiles host store' cubeFiles table in
            processFiles mode host engine initialState orderedCubeFiles
        end
    end.

Definition refreshTables := runTables refresh.
Definition freshTables := runTables fresh.

(** *** The item passes [executeSeeders] and [executeTriggers] *)

Inductive ItemKind : Type := seederCubes | triggerCubes.

Definition itemSuffix (kind : ItemKind) : string :=
  match kind with
  | seederCubes => ".seeder.cube"
  | triggerCubes => ".trigger.cube"
  end.

(** The arguments of the one engine call of an item; [triggersDirExit]
    is [path.join(process.cwd(), 'dbcube', 'triggers')]. *)
Definition itemArgs (kind : ItemKind) (host : Host) (filePath : string) : list string :=
  match kind with
  | seederCubes => ["--action"; "seeder"; "--schema-path"; filePath]
  | triggerCubes =>
      ["--action"; "trigger"; "--path-exit"; joinCwdDbcube host "triggers";
       "--schema-path"; filePath]
  end.

Record ItemState : Type := mkItemState {
  totalItemsProcessed : nat;
  itemSuccessCount : nat;
  itemErrorCount : nat;
  processedItems : list string;
  itemErrors : list ProcessError;
  itemTrace : list EngineEvent
}.

Definition initialItemState : ItemState := mkItemState 0 0 0 [] [] [].

Inductive ItemStep : Type :=
| ItemContinue (st : ItemState)
| ItemExited (st : ItemState)
| ItemRejected (why : Rejection).

Definition recordItemFailure (st : ItemState) (e : ProcessError)
  (trace : list EngineEvent) : ItemState :=
  mkItemState (totalItemsProcessed st) (itemSuccessCount st) (S (itemErrorCount st))
    (processedItems st) (itemErrors st ++ [e])%list trace.

(** The body of the [for] loop for one seeder or trigger file. *)
Definition processItem (kind : ItemKind) (host : Host) (engine : Engine)
  (st : ItemState) (file : string) : ItemStep :=
  let filePath := if isAbsolute host file then file else joinCwdDbcube host file in
  match statIsFile host filePath with
  | Threw msg => ItemRejected (StatThrew msg)
  | Returned false => ItemContinue st
  | Returned true =>
      let getItemName := FileUtils.extracTableNameFromCube host filePath in
      let itemName :=
        if (FileUtils.status getItemName =? 200)%Z then FileUtils.message getItemName
        else basename host file (itemSuffix kind) in
      (* Validate database configuration before processing *)
      let validation := validateDatabaseConfiguration host filePath in
      match vIsValid validation, vError validation with
      | false, Some validationError =>
          ItemContinue (recordItemFailure st validationError (itemTrace st))
      | _, _ =>
          let args := itemArgs kind host filePath in
          let trace := (itemTrace st ++ [EngineRun args])%list in
          match run engine (itemTrace st) args with
          | Threw msg =>
              ItemContinue
                (recordItemFailure st (mkProcessError itemName msg filePath None) trace)
          | Returned response =>
              if negb (status response =? 200)%Z then
                ItemExited
                  (mkItemState (totalItemsProcessed st) (itemSuccessCount st)
                     (itemErrorCount st) (processedItems st) (itemErrors st) trace)
              else
                ItemContinue
                  (mkItemState (S (totalItemsProcessed st)) (S (itemSuccessCount st))
                     (itemErrorCount st) (processedItems st ++ [itemName])%list
                     (itemErrors st) trace)
          end
      end
  end.

Fixpoint processItems (kind : ItemKind) (host : Host) (engine : Engine)
  (st : ItemState) (files : list string) : ItemStep :=
  match files with
  | [] => ItemContinue st
  | file :: rest =>
      match processItem kind host engine st file with
      | ItemContinue st' => processItems kind host engine st' rest
      | stop => stop
      end
  end.

(** How an item pass ends: with its return value after the summary, by
    the engine's exit, or by a throw before the loop or from [statSync]. *)
Inductive ItemsEnd : Type :=
| Summarised (st : ItemState) (returned : option (nat * nat * nat))
| ItemsExited (st : ItemState)
| ItemsThrew (why : Rejection).

(** [total > 0 ? { processed, success, errors } : null] *)
Definition summarise (step : ItemStep) : ItemsEnd :=
  match step with
  | ItemContinue st =>
      Summarised st
        (if (0 <? totalItemsProcessed st)%nat
         then Some (totalItemsProcessed st, itemSuccessCount st, itemErrorCount st)
         else None)
  | ItemExited st => ItemsExited st
  | ItemRejected why => ItemsThrew why
  end.

Definition executeSeeders (host : Host) (engine : Engine)
  (store : DependencyResolver.Store) : ItemsEnd :=
  if negb (existsSync host (joinCwdDbcube host EmptyString)) then
    ItemsThrew CubesFolderMissing
  else
    match getCubeFilesRecursively host "dbcube" ".seeder.cube" with
    | Threw msg => ItemsThrew (DiscoveryThrew msg)
    | Returned [] => ItemsThrew NoCubes
    | Returned cubeFiles =>
        (* Use existing table dependency order for seeders *)
        let orderedCubeFiles :=
          DependencyResolver.orderCubeFiles host store cubeFiles seeder in
        summarise (processItems seederCubes host engine initialItemState orderedCubeFiles)
    end.

Definition executeTriggers (host : Host) (engine : Engine) : ItemsEnd :=
  if negb (existsSync host (joinCwdDbcube host EmptyString)) then
    ItemsThrew CubesFolderMissing
  else
    match getCubeFilesRecursively host "dbcube" ".trigger.cube" with
    | Threw msg => ItemsThrew (DiscoveryThrew msg)
    | Returned [] => ItemsThrew NoCubes
    | Returned cubeFiles =>
        summarise (processItems triggerCubes host engine initialItemState cubeFiles)
    end.

End WithEngine.

End Schema.

(** * Vocabulary of the statements and sample data *)

(** ** A sample host

    A POSIX host whose working directory is [/proj] and whose file system
    is an association list from absolute paths to contents.  It serves
    the concrete runs below. *)

Module SampleHost.

Fixpoint lookupFile (files : list (string * string)) (p : string) : option string :=
  match files with
  | [] => None
  | (q, content) :: rest => if String.eqb q p then Some content else lookupFile rest p
  end.

(** The part of [p] after its last slash. *)
Fixpoint lastSegment (p : string) : string :=
  match p with
  | EmptyString => EmptyString
  | String c p' =>
      if includes p' "/" then lastSegment p'
      else if Ascii.eqb c "/" then p' else p
  end.

Fixpoint endsWith (s suffix : string) : bool :=
  String.eqb s suffix ||
  match s with
  | EmptyString => false
  | String _ s' => endsWith s' suffix
  end.

Definition posixBasename (p ext : string) : string :=
  let base := lastSegment p in
  if endsWith base ext && negb (String.eqb base ext)
  then take (String.length base - String.length ext) base
  else base.

(** The extension: from the last dot of the base name, unless that dot
    is its first character. *)
Fixpoint lastDotSuffix (s : string) : string :=
  match s with
  | EmptyString => EmptyString
  | String c s' =>
      if includes s' "." then lastDotSuffix s'
      else if Ascii.eqb c "." then s else EmptyString
  end.

Definition posixExtname (p : string) : string :=
  match lastSegment p with
  | EmptyString => EmptyString
  | String _ tail => lastDotSuffix tail
  end.

Definition host (files : list (string * string)) : Host :=
  {| readFileSync := fun p =>
       match lookupFile files p with
       | Some content => Returned content
       | None => Threw ("ENOENT: no such file or directory, open '" ++ p ++ "'")
       end;
     existsSync := fun p =>
       match lookupFile files p with Some _ => true | None => false end;
     statIsFile := fun p =>
       match lookupFile files p with
       | Some _ => Returned true
       | None => Threw ("ENOENT: no such file or directory, stat '" ++ p ++ "'")
       end;
     isAbsolute := fun p => startsWith p "/";
     resolve := fun p => if startsWith p "/" then p else "/proj/" ++ p;
     joinCwdDbcube := fun p => "/proj/dbcube/" ++ p;
     basename := posixBasename;
     extname := posixExtname;
     loadConfig := Returned (fun _ => Returned true);
     getCubeFilesRecursively := fun _ suffix =>
       Returned (filter (fun p => endsWith p suffix) (map fst files));
     orderFileWritable := true;
     now := "2025-01-01T00:00:00.000Z" |}.

(** Lines joined by line feeds. *)
Definition text (lines : list string) : string := join (String lf EmptyString) lines.

End SampleHost.

Unset Implicit Arguments.

(** ** Vocabulary for the resolver: in-degrees, roots *)

Module ResolverSpec.
Import JsMap DependencyResolver.

Definition names (deps : list TableDependency) : list string := map tableName deps.

Definition setZero (inDegree : JsMap.t Z) (dep : TableDependency) : JsMap.t Z :=
  set inDegree (tableName dep) 0%Z.

(** One step of the inner loop that counts the known dependencies of the
    table [n]. *)
Definition bump (n : string) (inDegree : JsMap.t Z) (dependency : string) : JsMap.t Z :=
  if has inDegree dependency
  then set inDegree n (degreeOr0 inDegree n + 1)%Z
  else inDegree.

Definition knownCount (m : JsMap.t Z) (ds : list string) : Z :=
  Z.of_nat (List.length (filter (has m) ds)).

(** The number of references from entries named [x] to known tables. *)
Fixpoint knownRefs (m : JsMap.t Z) (deps : list TableDependency) (x : string) : Z :=
  match deps with
  | [] => 0%Z
  | e :: rest =>
      ((if String.eqb (tableName e) x then knownCount m (dependencies e) else 0)
       + knownRefs m rest x)%Z
  end.

Definition setDeps (graph : JsMap.t (list string)) (dep : TableDependency) :=
  set graph (tableName dep) (dependencies dep).

Definition neighbours (graph : JsMap.t (list string)) (c : string) : list string :=
  match get graph c with Some ds => ds | None => [] end.

Definition finalInDegree (deps : list TableDependency) : JsMap.t Z :=
  countInDegree deps (initInDegree deps).

(** The tables that reference no known table, in map order. *)
Definition roots (deps : list TableDependency) : list string :=
  initialQueue (finalInDegree deps).

End ResolverSpec.

(** ** Vocabulary for the topological order *)

Module TopologicalSortSpec.
Import DependencyResolver.

Definition notIn (result : list string) (n : string) : bool :=
  negb (arrayIncludes result n).

(** A two-cycle: A references B and B references A. *)
Definition twoCycle : list TableDependency :=
  [mkTableDependency "A" "/proj/dbcube/a.table.cube" ["B"];
   mkTableDependency "B" "/proj/dbcube/b.table.cube" ["A"]].

End TopologicalSortSpec.

(** ** Sample data: a chain of three tables *)

Module ChainExample.

Definition foreignColumn (target : string) : list string :=
  ["    parent_id: {";
   "        type: " ++ dquoted "int" ++ ";";
   "        foreign: { table: " ++ dquoted target ++ ", column: " ++ dquoted "id" ++ " };";
   "    };"].

Definition cubeText (name : string) (extraColumns : list string) : string :=
  SampleHost.text
    (List.app
       (List.app
          ["@database(" ++ dquoted "main" ++ ");";
           "@meta({";
           "    name: " ++ dquoted name ++ ";";
           "    description: " ++ dquoted "chain" ++ ";";
           "});";
           "@columns({";
           "    id: {";
           "        type: " ++ dquoted "int" ++ ";";
           "        options: [" ++ dquoted "primary" ++ "];";
           "    };"]
          extraColumns)
       ["});"]).

Definition fileC : string := "/proj/dbcube/c.table.cube".
Definition fileB : string := "/proj/dbcube/b.table.cube".
Definition fileA : string := "/proj/dbcube/a.table.cube".

Definition files : list (string * string) :=
  [(fileC, cubeText "C" (foreignColumn "B"));
   (fileB, cubeText "B" (foreignColumn "A"));
   (fileA, cubeText "A" [])].

Definition host : Host := SampleHost.host files.

End ChainExample.

(** ** Vocabulary for re-ordering: the file map and the picks *)

Module OrderSpec.
Import JsMap DependencyResolver.

Section WithNames.

(** The table name that a file resolves to. *)
Variable nm : string -> string.

Definition setFile (fileMap : JsMap.t string) (file : string) : JsMap.t string :=
  set fileMap (nm file) file.

Definition build (files : list string) : JsMap.t string :=
  fold_left setFile files empty.

(** Every entry of the map is a file under its own name. *)
Definition named (mp : JsMap.t string) : Prop :=
  forall k f, In (k, f) mp -> k = nm f.

Fixpoint picked (orderList : list string) (mp : JsMap.t string) : JsMap.t string :=
  match orderList with
  | [] => []
  | t :: ts =>
      match get mp t with
      | Some f => (t, f) :: picked ts (delete mp t)
      | None => picked ts mp
      end
  end.

Fixpoint remaining (orderList : list string) (mp : JsMap.t string) : JsMap.t string :=
  match orderList with
  | [] => mp
  | t :: ts =>
      match get mp t with
      | Some _ => remaining ts (delete mp t)
      | None => remaining ts mp
      end
  end.

Definition keyIs (t : string) (e : string * string) : bool := String.eqb (fst e) t.

Definition notListed (orderList : list string) (e : string * string) : bool :=
  negb (arrayIncludes orderList (fst e)).

(** The files in stored order followed by the unlisted ones. *)
Definition reorder (orderList : list string) (files : list string) : list string :=
  (values (picked orderList (build files))
   ++ values (remaining orderList (build files)))%list.

Definition reorderEntries (orderList : list string) (files : list string)
  : JsMap.t string :=
  (picked orderList (build files) ++ remaining orderList (build files))%list.

End WithNames.

(** The name function that [orderCubeFiles] applies to each file. *)
Definition nameOf (host : Host) (cubeType : CubeType) (file : string) : string :=
  tableNameOf host cubeType file
    (if isAbsolute host file then file else joinCwdDbcube host file).

End OrderSpec.

(** ** Sample data: two files of one table name *)

Module OrderExample.
Import DependencyResolver.

(** Two files that declare the same table name. *)
Definition first : string := "/proj/dbcube/1_users.table.cube".
Definition second : string := "/proj/dbcube/2_users.table.cube".

Definition host : Host :=
  SampleHost.host
    [(first, ChainExample.cubeText "users" []);
     (second, ChainExample.cubeText "users" [])].

Definition stored : ExecutionOrder :=
  mkExecutionOrder ["A"; "B"; "C"] [] "2025-01-01T00:00:00.000Z".

End OrderExample.

(** ** Vocabulary for the varchar length rule *)

Module VarcharSpec.
Import CubeValidator.

(** The length error of the data-type check, attributed to line [n]. *)
Definition isVarcharLengthError (n : nat) (e : ProcessError) : bool :=
  String.eqb (error e) varcharLengthMessage
  && match lineNumber e with Some k => (k =? n)%nat | None => false end.

(** An error of a different kind. *)
Definition otherMessage (e : ProcessError) : Prop :=
  String.eqb (error e) varcharLengthMessage = false.

Definition hasLengthNearby (i : nat) (lines : list string) : bool :=
  existsb (fun nextLine => includes nextLine "length:") (firstn 5 (skipn i lines)).

Fixpoint allSpaces (s : string) : bool :=
  match s with
  | EmptyString => true
  | String c s' => is_space c && allSpaces s'
  end.

(** An error that mentions the length specification, at line [n]. *)
Definition mentionsLengthAt (n : nat) (e : ProcessError) : bool :=
  includes (error e) "length specification"
  && match lineNumber e with Some k => (k =? n)%nat | None => false end.

End VarcharSpec.

(** ** Sample data: varchar declarations *)

Module VarcharExample.

Definition file : string := "/proj/dbcube/users.table.cube".

Definition commentLine : string :=
  "    // legacy_name: { type: " ++ dquoted "varchar" ++ "; };".

Definition oddOptionsLine : string :=
  "        options: [type: " ++ dquoted "varchar" ++ ", "
  ++ dquoted "length specification" ++ "];".

Definition varcharLine : string := "        type: " ++ dquoted "varchar" ++ ";".

Definition content : string :=
  SampleHost.text
    ["@database(" ++ dquoted "main" ++ ");";
     "@meta({";
     "    name: " ++ dquoted "users" ++ ";";
     "});";
     "@columns({";
     "    id: {";
     "        type: " ++ dquoted "int" ++ ";";
     "    };";
     commentLine;
     "    nick: {";
     "        type: " ++ dquoted "int" ++ ";";
     oddOptionsLine;
     "    };";
     "    name: {";
     varcharLine;
     "        options: [" ++ dquoted "not null" ++ "];";
     "    };";
     "});"].

Definition host : Host := SampleHost.host [(file, content)].

End VarcharExample.

(** ** Sample data: a failing parent and its child *)

Module PassExample.
Import Schema.

Definition parentFile : string := "/proj/dbcube/1_parent.table.cube".
Definition childFile : string := "/proj/dbcube/2_child.table.cube".

(** The parent declares a varchar without a length: it fails validation. *)
Definition parentText : string :=
  SampleHost.text
    ["@database(" ++ dquoted "main" ++ ");";
     "@meta({";
     "    name: " ++ dquoted "parent" ++ ";";
     "});";
     "@columns({";
     "    id: {";
     "        type: " ++ dquoted "varchar" ++ ";";
     "    };";
     "});"].

Definition childText : string :=
  ChainExample.cubeText "child" (ChainExample.foreignColumn "parent").

Definition host : Host :=
  SampleHost.host [(parentFile, parentText); (childFile, childText)].

(** An engine that accepts everything. *)
Definition engine : Engine unit :=
  {| run := fun _ _ => Returned (mkResponse 200 "ok" tt);
     stringifyActions := fun _ => Returned "[]";
     deleteTypeField := fun _ d => Returned d;
     stringifyData := fun _ => Returned "{}";
     createQueryOf := fun d => Returned d;
     saveQuery := fun _ _ _ => Returned tt |}.

Definition afterParent : PassState unit :=
  match processFiles fresh host engine (initialState unit) [parentFile] with
  | Continue st => st
  | _ => initialState unit
  end.

End PassExample.

(** ** Vocabulary for the options check: runs and quotes *)

Module OptionsSpec.
Import CubeValidator.

(** Greedy repetition of a character class, written as a recursion on
    the input: the longest run first, shorter ones on failure. *)
Fixpoint starChr (p : ascii -> bool) (k : Cont) (pos : nat) (s : string)
  (caps : list string) : option MatchEnd :=
  match s with
  | String c s' =>
      if p c then
        match starChr p k (S pos) s' caps with
        | Some e => Some e
        | None => k pos s caps
        end
      else k pos s caps
  | EmptyString => k pos s caps
  end.






(** The trimmed text between the brackets of a line that matches the
    options form. *)
Definition optionsContentOf (line : string) : option string :=
  option_map (fun optionsMatch => trim (group1 optionsMatch))
    (exec optionsRegex line).

End OptionsSpec.

(** ** Sample data: options lines *)

Module OptionsExample.

Definition file : string := "/proj/dbcube/users.table.cube".



Definition bareWordLine : string :=
  "        options: [primary, " ++ dquoted "unique" ++ "];".

Definition tableWith (optionsLine : string) : string :=
  SampleHost.text
    ["@database(" ++ dquoted "main" ++ ");";
     "@meta({";
     "    name: " ++ dquoted "users" ++ ";";
     "});";
     "@columns({";
     "    id: {";
     "        type: " ++ dquoted "int" ++ ";";
     optionsLine;
     "    };";
     "});"].

Definition hostWith (optionsLine : string) : Host :=
  SampleHost.host [(file, tableWith optionsLine)].

End OptionsExample.

(** ** Vocabulary for captures *)

Module CaptureSpec.

(** A regular expression without capture groups of its own; the groups
    inside a lookahead are dropped when it ends. *)
Fixpoint groupFree (r : regex) : bool :=
  match r with
  | Chr _ | Eps | Bol | Eol | NotAhead _ => true
  | Seq r1 r2 | Alt r1 r2 => groupFree r1 && groupFree r2
  | Star r1 => groupFree r1
  | Group _ => false
  end.

(** Every character of the string satisfies [p]. *)
Fixpoint allChars (p : ascii -> bool) (s : string) : bool :=
  match s with
  | EmptyString => true
  | String c s' => p c && allChars p s'
  end.

(** A captured name: not empty, and made of characters of the class. *)
Definition nameOfClass (p : ascii -> bool) (s : string) : Prop :=
  s <> EmptyString /\ allChars p s = true.

Definition notQuote (c : ascii) : bool := negb (is_quote c).

End CaptureSpec.

(** ** Vocabulary for the shape of the resolved order *)

Module SortSpec.

(** The entry references no table of the input. *)
Definition isRoot (deps : list TableDependency) (e : TableDependency) : bool :=
  forallb (fun d => negb (arrayIncludes (map tableName deps) d)) (dependencies e).

(** The entry with only its references to tables of the input. *)
Definition dropUnknown (deps : list TableDependency) (e : TableDependency)
  : TableDependency :=
  mkTableDependency (tableName e) (depFilePath e)
    (filter (arrayIncludes (map tableName deps)) (dependencies e)).

(** [x] occurs in [l] somewhere before an occurrence of [y]. *)
Definition before (l : list string) (x y : string) : Prop :=
  exists l1 l2, l = (l1 ++ y :: l2)%list /\ In x l1.

(** Every table comes after the input tables it references. *)
Definition respects (deps : list TableDependency) (l : list string) : Prop :=
  forall e d,
    In e deps -> In d (dependencies e) -> In d (map tableName deps) ->
    before l d (tableName e).

End SortSpec.

(** ** Vocabulary for the shape of the re-ordered list *)

Module OrderShapeSpec.

(** The files of a given table name. *)
Definition filesNamed (nm : string -> string) (files : list string) (t : string)
  : list string :=
  filter (fun f => String.eqb (nm f) t) files.

(** What the map holds for a table name, as a list. *)
Definition lookupFiles (mp : JsMap.t string) (t : string) : list string :=
  match JsMap.get mp t with Some f => [f] | None => [] end.

(** The files whose table name is not in the list. *)
Definition unlisted (nm : string -> string) (orderList files : list string)
  : list string :=
  filter (fun f => negb (arrayIncludes orderList (nm f))) files.

End OrderShapeSpec.

(** ** Sample data: a [table:] property outside any foreign block *)

Module LooseTableExample.

Definition file : string := "/proj/dbcube/audit.table.cube".

Definition content : string :=
  ChainExample.cubeText "audit"
    ["    source: {";
     "        type: " ++ dquoted "varchar" ++ ";";
     "        length: " ++ dquoted "40" ++ ";";
     "        table: " ++ dquoted "users" ++ ";";
     "    };"].

Definition host : Host := SampleHost.host [(file, content)].

End LooseTableExample.

(** ** Vocabulary for the validator's reports *)

Module ErrorSpec.

(** The error names the file and a line between [lo] and [hi]. *)
Definition locatedIn (fileName path : string) (lo hi : nat) (e : ProcessError) : Prop :=
  itemName e = fileName /\ filePath e = path
  /\ exists n, lineNumber e = Some n /\ lo <= n /\ n <= hi.

(** An error with a line number points at a line of its own file. *)
Definition wellLocated (host : Host) (e : ProcessError) : Prop :=
  forall n, lineNumber e = Some n ->
    1 <= n
    /\ forall content, readFileSync host (filePath e) = Returned content ->
         n <= List.length (split_lf content).

(** The checks of a line that look at nothing but the line. *)
Definition lineIsClean (line : string) : Prop :=
  Nat.even (countChars is_quote line) = true
  /\ (forall mt, In mt (matchAll CubeValidator.annotationRegex line) ->
        In (group1 mt) CubeValidator.knownAnnotations)
  /\ (forall mt, In mt (matchAll CubeValidator.typeRegex line) ->
        In (group1 mt) CubeValidator.validTypes).

End ErrorSpec.

(** ** Vocabulary and sample data: options against column types *)

Module CompatibilitySpec.

(** Every type that some compatibility rule admits. *)
Definition ruleTypes : list string :=
  flat_map snd CubeValidator.compatibilityRules.

End CompatibilitySpec.

Module EnumExample.

Definition optionsLine : string := "        options: [" ++ dquoted "not null" ++ "];".

Definition lines : list string :=
  ["    status: {";
   "        type: " ++ dquoted "enum" ++ ";";
   optionsLine;
   "    };"].

End EnumExample.

(** ** Vocabulary for the counters of a pass *)

Module PassSpec.

(** The loop treats the file: its path resolves to a regular file. *)
Definition isRegular (host : Host) (file : string) : bool :=
  match statIsFile host (if isAbsolute host file then file
                         else joinCwdDbcube host file) with
  | Returned true => true
  | _ => false
  end.

(** The counters agree with the lists they count. *)
Definition countersAgree {Payload : Type} (st : Schema.PassState Payload) : Prop :=
  Schema.errorCount st = List.length (Schema.passErrors st)
  /\ Schema.successCount st = List.length (Schema.processedTables st)
  /\ Schema.totalTablesProcessed st = Schema.successCount st.

(** The state a pass result carries, if any. *)
Definition stateOf {Payload : Type} (r : Schema.StepResult Payload)
  : option (Schema.PassState Payload) :=
  match r with
  | Schema.Continue st | Schema.Exited st => Some st
  | Schema.Rejected _ _ => None
  end.

End PassSpec.

(** ** Sample data: a whole pass over the parent and the child *)

Module RunExample.
Import Schema.

(** The host of [PassExample], with the cubes folder in place. *)
Definition host : Host :=
  {| readFileSync := readFileSync PassExample.host;
     existsSync := fun p =>
       String.eqb p "/proj/dbcube/" || existsSync PassExample.host p;
     statIsFile := statIsFile PassExample.host;
     isAbsolute := isAbsolute PassExample.host;
     resolve := resolve PassExample.host;
     joinCwdDbcube := joinCwdDbcube PassExample.host;
     basename := basename PassExample.host;
     extname := extname PassExample.host;
     loadConfig := loadConfig PassExample.host;
     getCubeFilesRecursively := getCubeFilesRecursively PassExample.host;
     orderFileWritable := orderFileWritable PassExample.host;
     now := now PassExample.host |}.

Definition final : PassState unit :=
  match runTables fresh 3 host PassExample.engine None with
  | Continue st | Exited st => st
  | Rejected _ _ => initialState unit
  end.

End RunExample.

(** ** Vocabulary and sample data for the item passes *)

Module ItemSpec.
Import Schema.

(** The path the loop works on. *)
Definition pathOf (host : Host) (file : string) : string :=
  if isAbsolute host file then file else joinCwdDbcube host file.

(** The file is regular and passes the database check. *)
Definition reachesEngine (host : Host) (file : string) : bool :=
  PassSpec.isRegular host file
  && vIsValid (validateDatabaseConfiguration host (pathOf host file)).

(** The engine call of a file. *)
Definition engineCall (Payload : Type) (kind : ItemKind) (host : Host) (file : string)
  : EngineEvent Payload :=
  EngineRun Payload (itemArgs kind host (pathOf host file)).

(** The counters agree with the lists they count. *)
Definition agree {Payload : Type} (st : ItemState Payload) : Prop :=
  itemErrorCount st = List.length (itemErrors st)
  /\ itemSuccessCount st = List.length (processedItems st)
  /\ totalItemsProcessed st = itemSuccessCount st.

(** The value returned after the summary, read off the lists. *)
Definition returnedFor {Payload : Type} (st : ItemState Payload)
  : option (nat * nat * nat) :=
  match processedItems st with
  | [] => None
  | _ => Some (List.length (processedItems st), List.length (processedItems st),
               List.length (itemErrors st))
  end.

End ItemSpec.

Module SeederExample.
Import Schema.

Definition goodFile : string := "/proj/dbcube/users.seeder.cube".
Definition badFile : string := "/proj/dbcube/orphans.seeder.cube".

Definition goodText : string :=
  SampleHost.text
    ["@database(" ++ dquoted "main" ++ ");";
     "@meta({";
     "    name: " ++ dquoted "users" ++ ";";
     "});"].

(** No [@database] line. *)
Definition badText : string :=
  SampleHost.text
    ["@meta({";
     "    name: " ++ dquoted "orphans" ++ ";";
     "});"].

Definition files : list (string * string) :=
  [(badFile, badText); (goodFile, goodText)].

Definition host : Host :=
  {| readFileSync := readFileSync (SampleHost.host files);
     existsSync := fun p =>
       String.eqb p "/proj/dbcube/" || existsSync (SampleHost.host files) p;
     statIsFile := statIsFile (SampleHost.host files);
     isAbsolute := isAbsolute (SampleHost.host files);
     resolve := resolve (SampleHost.host files);
     joinCwdDbcube := joinCwdDbcube (SampleHost.host files);
     basename := basename (SampleHost.host files);
     extname := extname (SampleHost.host files);
     loadConfig := loadConfig (SampleHost.host files);
     getCubeFilesRecursively := getCubeFilesRecursively (SampleHost.host files);
     orderFileWritable := orderFileWritable (SampleHost.host files);
     now := now (SampleHost.host files) |}.

Definition stateOf (r : ItemsEnd unit) : ItemState unit :=
  match r with
  | Summarised st _ | ItemsExited st => st
  | ItemsThrew _ _ => initialItemState unit
  end.

Definition final : ItemState unit :=
  stateOf (executeSeeders host PassExample.engine None).

End SeederExample.

(** ** Sample data: a failing parent and a child that is itself invalid *)

Module InvalidChildExample.
Import Schema.

Definition brokenChildFile : string := "/proj/dbcube/2_broken_child.table.cube".

(** The child references the parent and declares a varchar without a
    length: it fails validation on its own. *)
Definition brokenChildText : string :=
  ChainExample.cubeText "broken_child"
    (List.app
       (ChainExample.foreignColumn "parent")
       ["    label: {";
        "        type: " ++ dquoted "varchar" ++ ";";
        "    };"]).

Definition host : Host :=
  SampleHost.host
    [(PassExample.parentFile, PassExample.parentText);
     (brokenChildFile, brokenChildText)].

Definition afterParent : PassState unit :=
  match processFiles fresh host PassExample.engine (initialState unit)
          [PassExample.parentFile] with
  | Continue st => st
  | _ => initialState unit
  end.

Definition afterBoth : PassState unit :=
  match processFiles fresh host PassExample.engine (initialState unit)
          [PassExample.parentFile; brokenChildFile] with
  | Continue st => st
  | _ => initialState unit
  end.

End InvalidChildExample.

(** * Properties *)

(** ** Strings *)

Section StringFacts.

Lemma startsWith_app (p s : string) : startsWith (p ++ s) p = true.
Proof.
  induction p as [|c p IH]; simpl.
  - destruct s; reflexivity.
  - rewrite Ascii.eqb_refl. exact IH.
Qed.

Lemma includes_app_r (a s p : string) :
  includes s p = true -> includes (a ++ s) p = true.
Proof.
  intros H. induction a as [|c a IH]; simpl.
  - exact H.
  - rewrite IH. apply orb_true_r.
Qed.

Lemma includes_here (p s : string) : includes (p ++ s) p = true.
Proof.
  destruct p as [|c p]; simpl.
  - destruct s; reflexivity.
  - rewrite Ascii.eqb_refl. simpl. rewrite startsWith_app. reflexivity.
Qed.

(** [a ++ p ++ b] includes [p]. *)
Lemma includes_middle (a p b : string) : includes (a ++ p ++ b) p = true.
Proof. apply includes_app_r, includes_here. Qed.

Lemma append_nil_r (s : string) : s ++ EmptyString = s.
Proof. induction s; simpl; congruence. Qed.


Lemma includes_suffix (a p : string) : includes (a ++ p) p = true.
Proof.
  rewrite <- (append_nil_r p) at 1. apply includes_middle.
Qed.

End StringFacts.

(** ** Read failures (C9) *)

(** C9: when the file cannot be read, [validateCubeFile] still returns a
    result: it is invalid and carries exactly one error, whose message is
    the read exception's message after a fixed prefix (so it contains that
    message), attributed to line 1. *)
Theorem validateCubeFile_read_failure (host : Host) (path msg : string) :
  readFileSync host path = Threw msg ->
  exists e,
    CubeValidator.validateCubeFile host path = mkValidationResult false [e]
    /\ error e = "Failed to read cube file: " ++ msg
    /\ includes (error e) msg = true
    /\ lineNumber e = Some 1
    /\ filePath e = path.
Proof.
  intros Hread. unfold CubeValidator.validateCubeFile. rewrite Hread.
  eexists. split; [reflexivity|]. simpl.
  repeat split. apply (includes_suffix "Failed to read cube file: " msg).
Qed.

Lemma validateCubeFile_read_failure_witness :
  exists e,
    CubeValidator.validateCubeFile (SampleHost.host []) "/proj/dbcube/users.table.cube"
      = mkValidationResult false [e]
    /\ error e = "Failed to read cube file: "
                 ++ "ENOENT: no such file or directory, open '/proj/dbcube/users.table.cube'"
    /\ includes (error e)
         "ENOENT: no such file or directory, open '/proj/dbcube/users.table.cube'" = true
    /\ lineNumber e = Some 1
    /\ filePath e = "/proj/dbcube/users.table.cube".
Proof.
  apply (validateCubeFile_read_failure (SampleHost.host [])
           "/proj/dbcube/users.table.cube"
           "ENOENT: no such file or directory, open '/proj/dbcube/users.table.cube'").
  reflexivity.
Defined.

(** ** The insertion-ordered map *)

Module JsMapFacts.
Import JsMap.

Section Facts.
Context {V : Type}.
Implicit Types (mp : JsMap.t V) (k : string) (v : V).

Lemma get_set_same mp k v : get (set mp k v) k = Some v.
Proof.
  induction mp as [|[k' v'] mp IH]; simpl.
  - now rewrite String.eqb_refl.
  - destruct (String.eqb k' k) eqn:E; simpl.
    + now rewrite String.eqb_refl.
    + now rewrite E.
Qed.

Lemma get_set_other mp k k' v : k <> k' -> get (set mp k v) k' = get mp k'.
Proof.
  intros Hne. induction mp as [|[k0 v0] mp IH]; simpl.
  - apply String.eqb_neq in Hne. now rewrite Hne.
  - destruct (String.eqb k0 k) eqn:E; simpl.
    + apply String.eqb_eq in E. subst k0.
      apply String.eqb_neq in Hne. now rewrite Hne.
    + now rewrite IH.
Qed.

Lemma has_set_present mp k v x : has mp k = true -> has (set mp k v) x = has mp x.
Proof.
  unfold has. intros Hk.
  destruct (String.eqb k x) eqn:E.
  - apply String.eqb_eq in E. subst x. now rewrite get_set_same, Hk.
  - apply String.eqb_neq in E. now rewrite get_set_other.
Qed.

Lemma has_set mp k v x : has (set mp k v) x = String.eqb k x || has mp x.
Proof.
  unfold has. destruct (String.eqb k x) eqn:E.
  - apply String.eqb_eq in E. subst x. now rewrite get_set_same.
  - apply String.eqb_neq in E. now rewrite get_set_other.
Qed.

Lemma has_In_keys mp k : has mp k = true <-> In k (keys mp).
Proof.
  unfold has, keys. induction mp as [|[k' v'] mp IH]; simpl.
  - split; [discriminate | tauto].
  - destruct (String.eqb k' k) eqn:E.
    + apply String.eqb_eq in E. tauto.
    + apply String.eqb_neq in E. rewrite IH. split; [tauto | intros [H|H]; [contradiction | exact H]].
Qed.

Lemma keys_set_present mp k v : has mp k = true -> keys (set mp k v) = keys mp.
Proof.
  unfold has, keys. induction mp as [|[k' v'] mp IH]; simpl.
  - discriminate.
  - destruct (String.eqb k' k) eqn:E; simpl.
    + apply String.eqb_eq in E. now subst.
    + intros H. now rewrite IH.
Qed.

Lemma keys_set_absent mp k v : has mp k = false -> keys (set mp k v) = (keys mp ++ [k])%list.
Proof.
  unfold has, keys. induction mp as [|[k' v'] mp IH]; simpl.
  - reflexivity.
  - destruct (String.eqb k' k) eqn:E; simpl.
    + discriminate.
    + intros H. now rewrite IH.
Qed.

Lemma set_absent mp k v : has mp k = false -> set mp k v = (mp ++ [(k, v)])%list.
Proof.
  unfold has. induction mp as [|[k' v'] mp IH]; simpl.
  - reflexivity.
  - destruct (String.eqb k' k) eqn:E; simpl.
    + discriminate.
    + intros H. now rewrite IH.
Qed.

Lemma get_In mp k v : get mp k = Some v -> In (k, v) mp.
Proof.
  induction mp as [|[k' v'] mp IH]; simpl.
  - discriminate.
  - destruct (String.eqb k' k) eqn:E.
    + apply String.eqb_eq in E. intros [= ->]. left. now subst.
    + intros H. right. now apply IH.
Qed.

Lemma In_get mp k v : NoDup (keys mp) -> In (k, v) mp -> get mp k = Some v.
Proof.
  unfold keys. induction mp as [|[k' v'] mp IH]; simpl.
  - tauto.
  - intros Hnd [H|H].
    + injection H as -> ->. now rewrite String.eqb_refl.
    + inversion Hnd as [|? ? Hnotin Hnd']; subst.
      destruct (String.eqb k' k) eqn:E.
      * apply String.eqb_eq in E. subst k'.
        exfalso. apply Hnotin. now apply (in_map fst) in H.
      * now apply IH.
Qed.

Lemma get_app_absent mp mp' k : has mp k = false -> get (mp ++ mp')%list k = get mp' k.
Proof.
  unfold has. induction mp as [|[k' v'] mp IH]; simpl.
  - reflexivity.
  - destruct (String.eqb k' k); [discriminate | exact IH].
Qed.

End Facts.

End JsMapFacts.

(** ** The dependency resolver *)

Module ResolverFacts.
Import JsMap JsMapFacts DependencyResolver.
Import ResolverSpec.

Lemma NoDup_keys_set {V : Type} (mp : JsMap.t V) k v :
  NoDup (keys mp) -> NoDup (keys (set mp k v)).
Proof.
  intros Hnd. destruct (has mp k) eqn:E.
  - now rewrite keys_set_present.
  - rewrite keys_set_absent by exact E.
    apply NoDup_app; [exact Hnd | repeat constructor; simpl; tauto |].
    intros x Hx [<-|[]]. apply has_In_keys in Hx. congruence.
Qed.

(** *** The in-degree table *)

Lemma initFold_has deps : forall m0 x,
  has (fold_left setZero deps m0) x = has m0 x || arrayIncludes (names deps) x.
Proof.
  induction deps as [|e deps IH]; intros m0 x; simpl.
  - now rewrite orb_false_r.
  - rewrite IH. unfold setZero. rewrite has_set.
    rewrite (String.eqb_sym x). destruct (String.eqb (tableName e) x), (has m0 x); reflexivity.
Qed.

Lemma initFold_NoDup deps : forall m0,
  NoDup (keys m0) -> NoDup (keys (fold_left setZero deps m0)).
Proof.
  induction deps as [|e deps IH]; intros m0 H; simpl; [exact H|].
  apply IH. now apply NoDup_keys_set.
Qed.

Lemma initFold_zero deps : forall m0,
  (forall k v, get m0 k = Some v -> v = 0%Z) ->
  forall k v, get (fold_left setZero deps m0) k = Some v -> v = 0%Z.
Proof.
  induction deps as [|e deps IH]; intros m0 H k v; simpl; [apply H|].
  apply IH. intros k' v'. unfold setZero.
  destruct (String.eqb (tableName e) k') eqn:E.
  - apply String.eqb_eq in E. subst k'. rewrite get_set_same. congruence.
  - apply String.eqb_neq in E. rewrite get_set_other by exact E. apply H.
Qed.

Lemma initFold_keys deps : forall m0,
  NoDup (keys m0 ++ names deps)%list ->
  keys (fold_left setZero deps m0) = (keys m0 ++ names deps)%list.
Proof.
  induction deps as [|e deps IH]; intros m0 H; simpl.
  - now rewrite app_nil_r.
  - assert (Habs : has m0 (tableName e) = false).
    { destruct (has m0 (tableName e)) eqn:E; [|reflexivity].
      apply has_In_keys in E. apply NoDup_remove_2 in H. exfalso. apply H.
      apply in_or_app. now left. }
    rewrite IH; unfold setZero; rewrite keys_set_absent by exact Habs.
    + now rewrite <- app_assoc.
    + rewrite <- app_assoc. exact H.
Qed.

Lemma initInDegree_has deps x :
  has (initInDegree deps) x = arrayIncludes (names deps) x.
Proof. unfold initInDegree. apply (initFold_has deps empty x). Qed.

Lemma initInDegree_keys deps :
  NoDup (names deps) -> keys (initInDegree deps) = names deps.
Proof. intros H. unfold initInDegree. apply (initFold_keys deps empty H). Qed.

Lemma degreeOr0_set_same m k v : degreeOr0 (set m k v) k = v.
Proof. unfold degreeOr0. now rewrite get_set_same. Qed.

Lemma degreeOr0_set_other m k k' v : k <> k' -> degreeOr0 (set m k v) k' = degreeOr0 m k'.
Proof. intros H. unfold degreeOr0. now rewrite get_set_other. Qed.

Lemma bump_fold n ds : forall m,
  has m n = true ->
  let m' := fold_left (bump n) ds m in
  (forall x, has m' x = has m x)
  /\ keys m' = keys m
  /\ degreeOr0 m' n = (degreeOr0 m n + knownCount m ds)%Z
  /\ (forall x, x <> n -> degreeOr0 m' x = degreeOr0 m x).
Proof.
  induction ds as [|d ds IH]; intros m Hn; simpl.
  - unfold knownCount. simpl. repeat split; auto. lia.
  - assert (Hstep : (forall x, has (bump n m d) x = has m x)
                    /\ keys (bump n m d) = keys m
                    /\ degreeOr0 (bump n m d) n
                       = (degreeOr0 m n + (if has m d then 1 else 0))%Z
                    /\ (forall x, x <> n -> degreeOr0 (bump n m d) x = degreeOr0 m x)).
    { unfold bump. destruct (has m d) eqn:Ed.
      - repeat split.
        + intros x. now apply has_set_present.
        + now apply keys_set_present.
        + now rewrite degreeOr0_set_same.
        + intros x Hx. apply degreeOr0_set_other. congruence.
      - repeat split; auto. lia. }
    destruct Hstep as (Hhas & Hkeys & Hdeg & Hoth).
    destruct (IH (bump n m d)) as (Hhas' & Hkeys' & Hdeg' & Hoth').
    { now rewrite Hhas. }
    repeat split.
    + intros x. now rewrite Hhas', Hhas.
    + now rewrite Hkeys', Hkeys.
    + rewrite Hdeg', Hdeg. unfold knownCount.
      rewrite (filter_ext _ _ Hhas ds). simpl.
      destruct (has m d); simpl List.length; lia.
    + intros x Hx. now rewrite Hoth', Hoth.
Qed.

Lemma knownCount_ext m m' ds :
  (forall x, has m' x = has m x) -> knownCount m' ds = knownCount m ds.
Proof. intros H. unfold knownCount. now rewrite (filter_ext _ _ H ds). Qed.

Lemma knownRefs_ext m m' deps x :
  (forall y, has m' y = has m y) -> knownRefs m' deps x = knownRefs m deps x.
Proof.
  intros H. induction deps as [|e deps IH]; simpl; [reflexivity|].
  now rewrite IH, (knownCount_ext m m' _ H).
Qed.

Lemma countInDegree_spec deps : forall m,
  (forall e, In e deps -> has m (tableName e) = true) ->
  let m' := countInDegree deps m in
  (forall x, has m' x = has m x)
  /\ keys m' = keys m
  /\ (forall x, degreeOr0 m' x = (degreeOr0 m x + knownRefs m deps x)%Z).
Proof.
  unfold countInDegree.
  induction deps as [|e deps IH]; intros m Hin; simpl.
  - repeat split; auto. intros; lia.
  - destruct (bump_fold (tableName e) (dependencies e) m) as (Hhas & Hkeys & Hdeg & Hoth).
    { apply Hin. now left. }
    fold (bump (tableName e)) in *.
    set (m1 := fold_left (bump (tableName e)) (dependencies e) m) in *.
    destruct (IH m1) as (Hhas' & Hkeys' & Hdeg').
    { intros e' He'. rewrite Hhas. apply Hin. now right. }
    repeat split.
    + intros x. now rewrite Hhas', Hhas.
    + now rewrite Hkeys', Hkeys.
    + intros x. rewrite Hdeg'. rewrite (knownRefs_ext m m1 deps x Hhas).
      destruct (String.eqb (tableName e) x) eqn:E.
      * apply String.eqb_eq in E. subst x. rewrite Hdeg. lia.
      * apply String.eqb_neq in E. rewrite Hoth by congruence. lia.
Qed.

Lemma knownCount_nonneg m ds : (0 <= knownCount m ds)%Z.
Proof. unfold knownCount. lia. Qed.

Lemma knownRefs_nonneg m deps x : (0 <= knownRefs m deps x)%Z.
Proof.
  induction deps as [|e deps IH]; simpl; [lia|].
  pose proof (knownCount_nonneg m (dependencies e)).
  destruct (String.eqb (tableName e) x); lia.
Qed.

Lemma knownRefs_zero m deps x e d :
  knownRefs m deps x = 0%Z -> In e deps -> tableName e = x ->
  In d (dependencies e) -> has m d = false.
Proof.
  induction deps as [|e' deps IH]; simpl; [tauto|].
  intros Hz [->|Hin] Hname Hd.
  - rewrite Hname, String.eqb_refl in Hz.
    pose proof (knownRefs_nonneg m deps x).
    pose proof (knownCount_nonneg m (dependencies e)).
    assert (Hc : knownCount m (dependencies e) = 0%Z) by lia.
    unfold knownCount in Hc.
    destruct (has m d) eqn:Ed; [|reflexivity].
    assert (Hf : In d (filter (has m) (dependencies e))) by (apply filter_In; auto).
    destruct (filter (has m) (dependencies e)); [destruct Hf | simpl in Hc; lia].
  - apply IH; auto.
    pose proof (knownRefs_nonneg m deps x).
    pose proof (knownCount_nonneg m (dependencies e')).
    destruct (String.eqb (tableName e') x); lia.
Qed.

(** *** The graph *)

Lemma graphFold_get deps : forall g0 c ds,
  get (fold_left setDeps deps g0) c = Some ds ->
  get g0 c = Some ds
  \/ exists e, In e deps /\ tableName e = c /\ dependencies e = ds.
Proof.
  induction deps as [|e deps IH]; intros g0 c ds H; simpl in *; [now left|].
  destruct (IH _ _ _ H) as [H0|(e' & He' & Hn & Hd)].
  - unfold setDeps in H0. destruct (String.eqb (tableName e) c) eqn:E.
    + apply String.eqb_eq in E. subst c. rewrite get_set_same in H0.
      right. exists e. split; [now left|]. split; congruence.
    + apply String.eqb_neq in E. rewrite get_set_other in H0 by exact E. now left.
  - right. exists e'. auto.
Qed.

Lemma buildGraph_get deps c ds :
  get (buildGraph deps) c = Some ds ->
  exists e, In e deps /\ tableName e = c /\ dependencies e = ds.
Proof.
  intros H. destruct (graphFold_get deps empty c ds H) as [H0|H0]; [discriminate | exact H0].
Qed.

(** *** The loop *)

Lemma relax_unknown ds : forall inDegree queue,
  (forall d, In d ds -> has inDegree d = false) ->
  fold_left relax ds (inDegree, queue) = (inDegree, queue).
Proof.
  induction ds as [|d ds IH]; intros inDegree queue H; simpl; [reflexivity|].
  rewrite (H d) by now left. apply IH. intros d' Hd'. apply H. now right.
Qed.

(** A queue whose members have no known dependency is emptied without a
    single in-degree being touched. *)
Lemma kahnLoop_inert graph inDegree : forall queue fuel result,
  (forall c d, In c queue -> In d (neighbours graph c) -> has inDegree d = false) ->
  List.length queue < fuel ->
  kahnLoop fuel graph inDegree queue result = Some (result ++ queue)%list.
Proof.
  induction queue as [|c queue IH]; intros fuel result H Hfuel.
  - destruct fuel; [lia|]. simpl. now rewrite app_nil_r.
  - destruct fuel; [simpl in Hfuel; lia|]. simpl.
    fold (neighbours graph c).
    rewrite relax_unknown by (intros d Hd; apply (H c d); [now left | exact Hd]).
    rewrite IH.
    + now rewrite <- app_assoc.
    + intros c' d Hc' Hd. apply (H c' d); [now right | exact Hd].
    + simpl in Hfuel. lia.
Qed.

Lemma initInDegree_covers deps e : In e deps -> has (initInDegree deps) (tableName e) = true.
Proof.
  intros H. rewrite initInDegree_has. unfold arrayIncludes.
  apply existsb_exists. exists (tableName e). split.
  - unfold names. now apply in_map.
  - apply String.eqb_refl.
Qed.

Lemma finalInDegree_NoDup deps : NoDup (keys (finalInDegree deps)).
Proof.
  unfold finalInDegree.
  destruct (countInDegree_spec deps (initInDegree deps) (initInDegree_covers deps))
    as (_ & -> & _).
  unfold initInDegree. apply initFold_NoDup. constructor.
Qed.

Lemma roots_no_known_dependency deps c d :
  In c (roots deps) -> In d (neighbours (buildGraph deps) c) ->
  has (finalInDegree deps) d = false.
Proof.
  unfold roots, initialQueue, neighbours. intros Hc Hd.
  apply in_map_iff in Hc. destruct Hc as ([c' z] & Hfst & Hc). simpl in Hfst. subst c'.
  apply filter_In in Hc. destruct Hc as [Hc Hz]. simpl in Hz. apply Z.eqb_eq in Hz. subst z.
  pose proof (finalInDegree_NoDup deps) as Hnd.
  apply (In_get _ _ _ Hnd) in Hc.
  destruct (countInDegree_spec deps (initInDegree deps) (initInDegree_covers deps))
    as (Hhas & Hkeys & Hdeg).
  fold (finalInDegree deps) in Hhas, Hkeys, Hdeg.
  rewrite Hhas.
  destruct (get (buildGraph deps) c) as [ds|] eqn:Eg; [|destruct Hd].
  destruct (buildGraph_get deps c ds Eg) as (e & He & Hname & Hds). subst ds.
  apply (knownRefs_zero (initInDegree deps) deps c e d); auto.
  specialize (Hdeg c). unfold degreeOr0 in Hdeg at 1. rewrite Hc in Hdeg.
  assert (H0 : degreeOr0 (initInDegree deps) c = 0%Z).
  { unfold degreeOr0. destruct (get (initInDegree deps) c) as [v|] eqn:Ev; [|reflexivity].
    unfold initInDegree in Ev.
    apply (initFold_zero deps empty) in Ev; [exact Ev | discriminate]. }
  lia.
Qed.

Lemma length_filter_le {A : Type} (f : A -> bool) (l : list A) :
  List.length (filter f l) <= List.length l.
Proof. induction l as [|a l IH]; simpl; [lia|]. destruct (f a); simpl; lia. Qed.

Lemma set_length {V : Type} (mp : JsMap.t V) k v :
  List.length (set mp k v) <= S (List.length mp).
Proof.
  induction mp as [|[k' v'] mp IH]; simpl; [lia|].
  destruct (String.eqb k' k); simpl; lia.
Qed.

Lemma initFold_length deps : forall m0,
  List.length (fold_left setZero deps m0) <= List.length m0 + List.length deps.
Proof.
  induction deps as [|e deps IH]; intros m0; simpl; [lia|].
  specialize (IH (setZero m0 e)).
  pose proof (set_length m0 (tableName e) 0%Z). unfold setZero in *. lia.
Qed.

Lemma roots_length deps : List.length (roots deps) <= List.length deps.
Proof.
  unfold roots, initialQueue. rewrite length_map.
  etransitivity; [apply length_filter_le|].
  change (List.length (finalInDegree deps)) with (List.length (finalInDegree deps)).
  rewrite <- (length_map fst). fold (keys (finalInDegree deps)).
  unfold finalInDegree.
  destruct (countInDegree_spec deps (initInDegree deps) (initInDegree_covers deps))
    as (_ & -> & _).
  unfold keys. rewrite length_map. unfold initInDegree.
  apply (initFold_length deps empty).
Qed.

(** The loop of [topologicalSort] ends, for every input, with exactly the
    initial queue as its result: nothing is ever enqueued later. *)
Lemma kahn_result deps fuel :
  List.length deps < fuel -> kahn fuel deps = Some (roots deps).
Proof.
  intros Hfuel. unfold kahn. fold (finalInDegree deps). fold (roots deps).
  rewrite kahnLoop_inert; [reflexivity | | pose proof (roots_length deps); lia].
  intros c d Hc Hd. now apply (roots_no_known_dependency deps c d).
Qed.

(** With fuel above the number of files, resolution always returns. *)
Lemma resolveDependencies_total fuel host store cubeFiles cubeType :
  List.length cubeFiles < fuel ->
  resolveDependencies fuel host store cubeFiles cubeType <> None.
Proof.
  intros Hfuel. unfold resolveDependencies, topologicalSort.
  rewrite kahn_result by (unfold extractDependencies; now rewrite length_map).
  destruct (_ =? _)%nat; discriminate.
Qed.

End ResolverFacts.

(** ** Topological order (C1, C3) *)

Module TopologicalSortFacts.
Import JsMap JsMapFacts DependencyResolver ResolverSpec ResolverFacts.
Import TopologicalSortSpec.

Lemma arrayIncludes_In xs x : arrayIncludes xs x = true <-> In x xs.
Proof.
  unfold arrayIncludes. rewrite existsb_exists. split.
  - intros (y & Hy & E). apply String.eqb_eq in E. now subst.
  - intros H. exists x. split; [exact H | apply String.eqb_refl].
Qed.

Lemma arrayIncludes_app xs ys x :
  arrayIncludes (xs ++ ys)%list x = arrayIncludes xs x || arrayIncludes ys x.
Proof. unfold arrayIncludes. apply existsb_app. Qed.

Lemma filter_none {A : Type} (f : A -> bool) (l : list A) :
  (forall x, In x l -> f x = false) -> filter f l = [].
Proof.
  induction l as [|a l IH]; simpl; intros H; [reflexivity|].
  rewrite (H a) by now left. apply IH. intros x Hx. apply H. now right.
Qed.

(** With pairwise distinct names the completion step appends, in input
    order, the names that the loop did not produce. *)
Lemma appendRemaining_filter deps : forall result,
  NoDup (names deps) ->
  appendRemaining deps result = (result ++ filter (notIn result) (names deps))%list.
Proof.
  unfold appendRemaining.
  induction deps as [|e deps IH]; intros result Hnd; simpl.
  - now rewrite app_nil_r.
  - inversion Hnd as [|? ? Hnotin Hnd']; subst.
    unfold notIn at 1. destruct (arrayIncludes result (tableName e)) eqn:E; simpl.
    + now apply IH.
    + rewrite IH by exact Hnd'. rewrite <- app_assoc. simpl. do 2 f_equal.
      apply filter_ext_in. intros n Hn. unfold notIn.
      rewrite arrayIncludes_app. simpl.
      destruct (String.eqb n (tableName e)) eqn:En.
      * apply String.eqb_eq in En. subst n. contradiction.
      * now rewrite orb_false_r.
Qed.

Lemma NoDup_map_fst_filter {V : Type} (f : string * V -> bool) (mp : list (string * V)) :
  NoDup (map fst mp) -> NoDup (map fst (filter f mp)).
Proof.
  induction mp as [|[k v] mp IH]; simpl; intros H; [constructor|].
  inversion H as [|? ? Hnotin Hnd]; subst.
  destruct (f (k, v)); simpl; [|now apply IH].
  constructor; [|now apply IH].
  intros Hin. apply Hnotin. apply in_map_iff in Hin.
  destruct Hin as (p & Hp & Hin). apply filter_In in Hin.
  apply in_map_iff. exists p. tauto.
Qed.

Lemma roots_NoDup deps : NoDup (roots deps).
Proof.
  unfold roots, initialQueue. apply NoDup_map_fst_filter.
  apply (finalInDegree_NoDup deps).
Qed.

Lemma roots_incl deps n : In n (roots deps) -> In n (names deps).
Proof.
  unfold roots, initialQueue. intros H.
  apply in_map_iff in H. destruct H as (p & <- & Hp). apply filter_In in Hp.
  destruct Hp as [Hp _].
  assert (Hk : In (fst p) (keys (finalInDegree deps))) by (now apply in_map).
  apply has_In_keys in Hk. unfold finalInDegree in Hk.
  destruct (countInDegree_spec deps (initInDegree deps) (initInDegree_covers deps))
    as (Hhas & _ & _).
  rewrite Hhas, initInDegree_has in Hk. now apply arrayIncludes_In.
Qed.

Lemma completed_NoDup sorted all :
  NoDup sorted -> NoDup all ->
  NoDup (sorted ++ filter (notIn sorted) all)%list.
Proof.
  intros Hs Ha. apply NoDup_app; [exact Hs | now apply NoDup_filter |].
  intros x Hx Hf. apply filter_In in Hf. destruct Hf as [_ Hf].
  unfold notIn in Hf. apply arrayIncludes_In in Hx. now rewrite Hx in Hf.
Qed.

Lemma completed_In sorted all n :
  (forall x, In x sorted -> In x all) ->
  In n (sorted ++ filter (notIn sorted) all)%list <-> In n all.
Proof.
  intros Hincl. rewrite in_app_iff, filter_In. split.
  - intros [H|[H _]]; auto.
  - intros H. unfold notIn. destruct (arrayIncludes sorted n) eqn:E.
    + left. now apply arrayIncludes_In.
    + right. auto.
Qed.

(** C3: for pairwise distinct table names, cyclic or not, the sort ends
    (any fuel above the number of entries is enough) and its result is the
    prefix produced by the loop followed by the remaining names in input
    order; every input name occurs in it exactly once. *)
Theorem topologicalSort_returns_every_table_once
  (deps : list TableDependency) (fuel : nat) :
  NoDup (map tableName deps) ->
  List.length deps < fuel ->
  exists sorted result,
    kahn fuel deps = Some sorted
    /\ topologicalSort fuel deps = Some result
    /\ result = (sorted
                 ++ filter (fun n => negb (arrayIncludes sorted n))
                      (map tableName deps))%list
    /\ NoDup result
    /\ Permutation (map tableName deps) result.
Proof.
  intros Hnd Hfuel. fold (names deps) in *.
  exists (roots deps).
  exists (roots deps ++ filter (notIn (roots deps)) (names deps))%list.
  pose proof (roots_NoDup deps) as Hrn.
  pose proof (roots_incl deps) as Hri.
  split; [now apply kahn_result|].
  split.
  - unfold topologicalSort. rewrite kahn_result by exact Hfuel.
    destruct (List.length (roots deps) =? List.length deps)%nat eqn:E.
    + apply Nat.eqb_eq in E.
      assert (Hall : incl (names deps) (roots deps)).
      { apply NoDup_length_incl; [exact Hrn | | exact Hri].
        unfold names. rewrite length_map. lia. }
      replace (filter (notIn (roots deps)) (names deps)) with (@nil string).
      * now rewrite app_nil_r.
      * symmetry. apply filter_none.
        intros n Hn. unfold notIn. apply Hall in Hn.
        apply arrayIncludes_In in Hn. now rewrite Hn.
    + now rewrite appendRemaining_filter.
  - split; [reflexivity|]. split.
    + now apply completed_NoDup.
    + apply NoDup_Permutation; [exact Hnd | now apply completed_NoDup |].
      intros n. symmetry. now apply completed_In.
Qed.

Lemma topologicalSort_returns_every_table_once_witness :
  exists sorted result,
    kahn 3 twoCycle = Some sorted
    /\ topologicalSort 3 twoCycle = Some result
    /\ result = (sorted
                 ++ filter (fun n => negb (arrayIncludes sorted n))
                      (map tableName twoCycle))%list
    /\ NoDup result
    /\ Permutation (map tableName twoCycle) result.
Proof.
  apply (topologicalSort_returns_every_table_once twoCycle 3).
  - simpl. repeat constructor; simpl; intuition discriminate.
  - simpl. lia.
Defined.

Example topologicalSort_twoCycle : topologicalSort 3 twoCycle = Some ["A"; "B"].
Proof. reflexivity. Qed.

End TopologicalSortFacts.

(** The chain C -> B -> A under any three distinct names: the loop
    releases only the root, and the completion step appends the others in
    input order. *)
Lemma topologicalSort_chain (a b c pa pb pc : string) (fuel : nat) :
  a <> b -> b <> c -> a <> c -> 3 < fuel ->
  DependencyResolver.topologicalSort fuel
    [mkTableDependency c pc [b]; mkTableDependency b pb [a]; mkTableDependency a pa []]
  = Some [a; c; b].
Proof.
  intros Hab Hbc Hac Hfuel.
  assert (Eab : String.eqb a b = false) by now apply String.eqb_neq.
  assert (Eba : String.eqb b a = false) by (apply String.eqb_neq; congruence).
  assert (Ebc : String.eqb b c = false) by now apply String.eqb_neq.
  assert (Ecb : String.eqb c b = false) by (apply String.eqb_neq; congruence).
  assert (Eac : String.eqb a c = false) by now apply String.eqb_neq.
  assert (Eca : String.eqb c a = false) by (apply String.eqb_neq; congruence).
  unfold DependencyResolver.topologicalSort.
  rewrite ResolverFacts.kahn_result by (simpl; lia).
  unfold ResolverSpec.roots, ResolverSpec.finalInDegree, DependencyResolver.initInDegree,
    DependencyResolver.countInDegree, DependencyResolver.initialQueue,
    DependencyResolver.appendRemaining, DependencyResolver.degreeOr0,
    JsMap.has, arrayIncludes.
  cbn.
  repeat (rewrite ?String.eqb_refl, ?Eab, ?Eba, ?Ebc, ?Ecb, ?Eac, ?Eca; cbn).
  reflexivity.
Qed.

Example chain_dependencies :
  DependencyResolver.extractDependencies ChainExample.host
    [ChainExample.fileC; ChainExample.fileB; ChainExample.fileA] table
  = [mkTableDependency "C" ChainExample.fileC ["B"];
     mkTableDependency "B" ChainExample.fileB ["A"];
     mkTableDependency "A" ChainExample.fileA []].
Proof. vm_compute. reflexivity. Qed.

(** C1, evaluated: three table files in the order C, B, A, where C
    references B, B references A and A references nothing.  The source
    stores under each table the tables it references and then walks those
    lists as if they held the referencing tables, so nothing is released
    after A and the rest follows in input order: C comes before B. *)
Theorem resolveDependencies_chain_puts_C_before_B :
  option_map (fun r => tables (fst r))
    (DependencyResolver.resolveDependencies 4 ChainExample.host None
       [ChainExample.fileC; ChainExample.fileB; ChainExample.fileA] table)
  = Some ["A"; "C"; "B"].
Proof. vm_compute. reflexivity. Qed.

(** ** Re-ordering by the stored order (C4, C6, C10) *)

Module OrderFacts.
Import JsMap JsMapFacts DependencyResolver.
Import OrderSpec.

Lemma filter_twice {A : Type} (f g : A -> bool) (l : list A) :
  filter f (filter g l) = filter (fun x => g x && f x) l.
Proof.
  induction l as [|a l IH]; simpl; [reflexivity|].
  destruct (g a); simpl; [destruct (f a)|]; now rewrite IH.
Qed.

Section WithNames.

(** The table name that a file resolves to. *)
Variable nm : string -> string.

Local Abbreviation setFile := (OrderSpec.setFile nm).
Local Abbreviation build := (OrderSpec.build nm).
Local Abbreviation named := (OrderSpec.named nm).
Local Abbreviation reorder := (OrderSpec.reorder nm).
Local Abbreviation reorderEntries := (OrderSpec.reorderEntries nm).

Lemma In_set (mp : JsMap.t string) k v e :
  In e (set mp k v) -> e = (k, v) \/ In e mp.
Proof.
  induction mp as [|[k' v'] mp IH]; simpl.
  - intros [H|[]]; auto.
  - destruct (String.eqb k' k); simpl; intros [H|H]; auto.
    destruct (IH H); auto.
Qed.

Lemma named_set mp f : named mp -> named (set mp (nm f) f).
Proof.
  intros H k g Hin. apply In_set in Hin. destruct Hin as [[= -> ->]|Hin]; auto.
Qed.

Lemma buildFold_invariant files : forall m0,
  named m0 -> NoDup (keys m0) ->
  named (fold_left setFile files m0) /\ NoDup (keys (fold_left setFile files m0)).
Proof.
  induction files as [|f files IH]; intros m0 Hn Hd; simpl; [auto|].
  apply IH; [now apply named_set | now apply ResolverFacts.NoDup_keys_set].
Qed.

Lemma build_invariant files : named (build files) /\ NoDup (keys (build files)).
Proof. apply buildFold_invariant; [intros k f [] | constructor]. Qed.

(** With pairwise distinct names the map lists the files in input order. *)
Lemma buildFold_distinct files : forall m0,
  NoDup (keys m0 ++ map nm files)%list ->
  fold_left setFile files m0 = (m0 ++ map (fun f => (nm f, f)) files)%list.
Proof.
  induction files as [|f files IH]; intros m0 H; simpl.
  - now rewrite app_nil_r.
  - assert (Habs : has m0 (nm f) = false).
    { destruct (has m0 (nm f)) eqn:E; [|reflexivity].
      apply has_In_keys in E. apply NoDup_remove_2 in H. exfalso. apply H.
      apply in_or_app. now left. }
    unfold setFile at 2. rewrite set_absent by exact Habs.
    rewrite IH.
    + now rewrite <- app_assoc.
    + unfold keys. rewrite map_app. simpl. rewrite <- app_assoc. exact H.
Qed.

Lemma build_distinct files :
  NoDup (map nm files) -> build files = map (fun f => (nm f, f)) files.
Proof. intros H. unfold build. now rewrite buildFold_distinct. Qed.

(** *** Picking files in the stored order *)

Lemma pickOrdered_fold orderList : forall mp acc,
  fold_left
    (fun (acc : list string * JsMap.t string) tableName =>
       let (orderedFiles, fileMap) := acc in
       match get fileMap tableName with
       | Some file => ((orderedFiles ++ [file])%list, delete fileMap tableName)
       | None => acc
       end)
    orderList (acc, mp)
  = ((acc ++ values (picked orderList mp))%list, remaining orderList mp).
Proof.
  induction orderList as [|t ts IH]; intros mp acc; simpl.
  - now rewrite app_nil_r.
  - destruct (get mp t) as [f|] eqn:E.
    + rewrite IH. simpl. now rewrite <- app_assoc.
    + apply IH.
Qed.

Lemma pickOrdered_spec orderList mp :
  pickOrdered orderList mp = (values (picked orderList mp), remaining orderList mp).
Proof. unfold pickOrdered. now rewrite pickOrdered_fold. Qed.

Lemma delete_filter (mp : JsMap.t string) t :
  NoDup (keys mp) -> delete mp t = filter (fun e => negb (keyIs t e)) mp.
Proof.
  unfold keys, keyIs. induction mp as [|[k v] mp IH]; simpl; intros H; [reflexivity|].
  inversion H as [|? ? Hnotin Hnd]; subst.
  destruct (String.eqb k t) eqn:E; simpl.
  - apply String.eqb_eq in E. subst k. symmetry.
    apply List.forallb_filter_id.
    apply forallb_forall. intros [k' v'] Hin. simpl.
    destruct (String.eqb k' t) eqn:E'; [|reflexivity].
    apply String.eqb_eq in E'. subst k'. exfalso. apply Hnotin.
    now apply (in_map fst) in Hin.
  - now rewrite IH.
Qed.

Lemma NoDup_keys_delete (mp : JsMap.t string) t :
  NoDup (keys mp) -> NoDup (keys (delete mp t)).
Proof.
  intros H. rewrite delete_filter by exact H.
  now apply TopologicalSortFacts.NoDup_map_fst_filter.
Qed.

Lemma In_delete (mp : JsMap.t string) t e :
  NoDup (keys mp) -> (In e (delete mp t) <-> In e mp /\ fst e <> t).
Proof.
  intros H. rewrite delete_filter by exact H. rewrite filter_In. unfold keyIs.
  destruct (String.eqb (fst e) t) eqn:E; simpl.
  - apply String.eqb_eq in E. intuition congruence.
  - apply String.eqb_neq in E. intuition.
Qed.

Lemma get_delete_perm (mp : JsMap.t string) t f :
  get mp t = Some f -> Permutation ((t, f) :: delete mp t) mp.
Proof.
  induction mp as [|[k v] mp IH]; simpl; [discriminate|].
  destruct (String.eqb k t) eqn:E.
  - apply String.eqb_eq in E. intros [= ->]. now subst.
  - intros H. rewrite perm_swap. constructor. now apply IH.
Qed.

Lemma picked_remaining_perm orderList : forall mp,
  Permutation (picked orderList mp ++ remaining orderList mp)%list mp.
Proof.
  induction orderList as [|t ts IH]; intros mp; simpl; [reflexivity|].
  destruct (get mp t) as [f|] eqn:E; [|apply IH].
  simpl. rewrite IH. now apply get_delete_perm.
Qed.

Lemma remaining_filter orderList : forall mp,
  NoDup (keys mp) -> remaining orderList mp = filter (notListed orderList) mp.
Proof.
  induction orderList as [|t ts IH]; intros mp Hnd; simpl.
  - symmetry. apply List.forallb_filter_id. apply forallb_forall. reflexivity.
  - destruct (get mp t) as [f|] eqn:E.
    + rewrite IH by now apply NoDup_keys_delete.
      rewrite delete_filter by exact Hnd. rewrite filter_twice.
      apply filter_ext. intros e. unfold notListed, keyIs, arrayIncludes. simpl.
      destruct (String.eqb (fst e) t); reflexivity.
    + rewrite IH by exact Hnd. apply filter_ext_in. intros e He.
      unfold notListed, arrayIncludes. simpl.
      destruct (String.eqb (fst e) t) eqn:E'; [|reflexivity].
      apply String.eqb_eq in E'. destruct e as [k v]. simpl in E'. subst k.
      apply (In_get _ _ _ Hnd) in He. congruence.
Qed.

Lemma picked_listed orderList : forall mp e,
  In e (picked orderList mp) -> arrayIncludes orderList (fst e) = true.
Proof.
  induction orderList as [|t ts IH]; intros mp e; simpl; [tauto|].
  unfold arrayIncludes in *. simpl.
  destruct (get mp t) as [f|] eqn:E.
  - intros [<-|H]; simpl.
    + now rewrite String.eqb_refl.
    + rewrite (IH _ _ H). apply orb_true_r.
  - intros H. rewrite (IH _ _ H). apply orb_true_r.
Qed.

Lemma get_ext (m1 m2 : JsMap.t string) :
  NoDup (keys m1) -> NoDup (keys m2) -> (forall e, In e m1 <-> In e m2) ->
  forall k, get m1 k = get m2 k.
Proof.
  intros H1 H2 Hiff k.
  destruct (get m1 k) as [v|] eqn:E1.
  - apply get_In in E1. apply Hiff in E1. symmetry. now apply In_get.
  - destruct (get m2 k) as [v|] eqn:E2; [|reflexivity].
    apply get_In in E2. apply Hiff in E2. apply (In_get _ _ _ H1) in E2. congruence.
Qed.

Lemma picked_ext orderList : forall m1 m2,
  NoDup (keys m1) -> NoDup (keys m2) -> (forall e, In e m1 <-> In e m2) ->
  picked orderList m1 = picked orderList m2.
Proof.
  induction orderList as [|t ts IH]; intros m1 m2 H1 H2 Hiff; simpl; [reflexivity|].
  rewrite (get_ext m1 m2 H1 H2 Hiff t).
  destruct (get m2 t) as [f|]; [|now apply IH].
  f_equal. apply IH; try now apply NoDup_keys_delete.
  intros e. rewrite !In_delete by assumption. now rewrite Hiff.
Qed.

Lemma reorder_values orderList files :
  reorder orderList files = values (reorderEntries orderList files).
Proof. unfold reorder, reorderEntries, values. now rewrite map_app. Qed.

Lemma reorderEntries_perm orderList files :
  Permutation (reorderEntries orderList files) (build files).
Proof. apply picked_remaining_perm. Qed.

Lemma reorderEntries_invariant orderList files :
  named (reorderEntries orderList files)
  /\ NoDup (keys (reorderEntries orderList files)).
Proof.
  destruct (build_invariant files) as [Hn Hd].
  pose proof (reorderEntries_perm orderList files) as Hp. split.
  - intros k f Hin. apply Hn. now apply (Permutation_in _ Hp).
  - apply (Permutation_NoDup (l := keys (build files))); [|exact Hd].
    unfold keys. apply Permutation_map. now symmetry.
Qed.

(** Re-reading the re-ordered files rebuilds the re-ordered map. *)
Lemma build_reorder orderList files :
  build (reorder orderList files) = reorderEntries orderList files.
Proof.
  destruct (reorderEntries_invariant orderList files) as [Hn Hd].
  rewrite reorder_values. set (E := reorderEntries orderList files) in *.
  assert (Hnames : map nm (values E) = keys E).
  { unfold values, keys. rewrite map_map. apply map_ext_in.
    intros [k f] Hin. simpl. symmetry. now apply Hn. }
  rewrite build_distinct by (rewrite Hnames; exact Hd).
  unfold values. rewrite map_map. rewrite <- (map_id E) at 2.
  apply map_ext_in. intros [k f] Hin. simpl. f_equal. symmetry. now apply Hn.
Qed.

Lemma reorder_idempotent orderList files :
  reorder orderList (reorder orderList files) = reorder orderList files.
Proof.
  unfold reorder at 1. rewrite build_reorder.
  destruct (build_invariant files) as [_ Hd].
  destruct (reorderEntries_invariant orderList files) as [_ Hd'].
  pose proof (reorderEntries_perm orderList files) as Hp.
  rewrite (picked_ext orderList (reorderEntries orderList files) (build files) Hd' Hd).
  2:{ intros e. split; apply Permutation_in; [exact Hp | now symmetry]. }
  rewrite (remaining_filter orderList _ Hd').
  unfold reorderEntries at 1. rewrite filter_app.
  rewrite (TopologicalSortFacts.filter_none (notListed orderList)
             (picked orderList (build files))).
  2:{ intros e He. unfold notListed. now rewrite (picked_listed _ _ _ He). }
  rewrite (remaining_filter orderList _ Hd). rewrite filter_twice.
  simpl. unfold reorder. do 2 f_equal.
  rewrite (remaining_filter orderList _ Hd).
  apply filter_ext. intros e. apply andb_diag.
Qed.

(** *** What the map keeps when names repeat *)











End WithNames.

Lemma orderCubeFiles_reorder host eo files cubeType :
  orderCubeFiles host (Some eo) files cubeType
  = reorder (nameOf host cubeType) (tables eo) files.
Proof.
  unfold orderCubeFiles. simpl. rewrite pickOrdered_spec.
  reflexivity.
Qed.

End OrderFacts.

Module OrderExampleFacts.
Import OrderExample.
Import DependencyResolver.

Example same_name :
  OrderSpec.nameOf host table first = "users"
  /\ OrderSpec.nameOf host table second = "users".
Proof. split; vm_compute; reflexivity. Qed.

Example chain_reordered :
  orderCubeFiles ChainExample.host (Some stored)
    [ChainExample.fileC; ChainExample.fileB; ChainExample.fileA] table
  = [ChainExample.fileA; ChainExample.fileB; ChainExample.fileC].
Proof. vm_compute. reflexivity. Qed.

Example duplicates_reordered :
  orderCubeFiles host (Some stored) [first; second] table = [second].
Proof. vm_compute. reflexivity. Qed.

End OrderExampleFacts.

(** C4: re-ordering is idempotent.  With the same host (hence the same
    file contents and table names) and the same stored order, or with no
    stored order at all, ordering the ordered list changes nothing. *)
Theorem orderCubeFiles_idempotent
  (host : Host) (store : DependencyResolver.Store) (files : list string)
  (cubeType : CubeType) :
  DependencyResolver.orderCubeFiles host store
    (DependencyResolver.orderCubeFiles host store files cubeType) cubeType
  = DependencyResolver.orderCubeFiles host store files cubeType.
Proof.
  destruct store as [eo|]; [|reflexivity].
  rewrite !OrderFacts.orderCubeFiles_reorder.
  apply OrderFacts.reorder_idempotent.
Qed.

(** C6: for both categories the output depends on the stored order only
    through its [tables]: two stored orders with the same tables, whatever
    their seeders (and timestamps), give the same output, which is the
    re-ordering of the files by that table sequence. *)
Theorem orderCubeFiles_ignores_seeders
  (host : Host) (stored1 stored2 : ExecutionOrder) (files : list string)
  (cubeType : CubeType) :
  tables stored1 = tables stored2 ->
  DependencyResolver.orderCubeFiles host (Some stored1) files cubeType
  = DependencyResolver.orderCubeFiles host (Some stored2) files cubeType
  /\ DependencyResolver.orderCubeFiles host (Some stored1) files cubeType
     = OrderSpec.reorder (OrderSpec.nameOf host cubeType) (tables stored1) files.
Proof.
  intros Htables. rewrite !OrderFacts.orderCubeFiles_reorder, Htables.
  split; reflexivity.
Qed.

Lemma orderCubeFiles_ignores_seeders_witness :
  DependencyResolver.orderCubeFiles ChainExample.host
    (Some (mkExecutionOrder ["A"; "B"; "C"] [] "2025-01-01T00:00:00.000Z"))
    [ChainExample.fileC; ChainExample.fileB; ChainExample.fileA] seeder
  = DependencyResolver.orderCubeFiles ChainExample.host
      (Some (mkExecutionOrder ["A"; "B"; "C"] ["C"; "B"; "A"] "2025-02-02T00:00:00.000Z"))
      [ChainExample.fileC; ChainExample.fileB; ChainExample.fileA] seeder
  /\ DependencyResolver.orderCubeFiles ChainExample.host
       (Some (mkExecutionOrder ["A"; "B"; "C"] [] "2025-01-01T00:00:00.000Z"))
       [ChainExample.fileC; ChainExample.fileB; ChainExample.fileA] seeder
     = OrderSpec.reorder (OrderSpec.nameOf ChainExample.host seeder) ["A"; "B"; "C"]
         [ChainExample.fileC; ChainExample.fileB; ChainExample.fileA].
Proof.
  apply (orderCubeFiles_ignores_seeders ChainExample.host
           (mkExecutionOrder ["A"; "B"; "C"] [] "2025-01-01T00:00:00.000Z")
           (mkExecutionOrder ["A"; "B"; "C"] ["C"; "B"; "A"] "2025-02-02T00:00:00.000Z")
           [ChainExample.fileC; ChainExample.fileB; ChainExample.fileA] seeder).
  reflexivity.
Defined.




(** ** The varchar length rule (C7) *)

Module VarcharFacts.
Import CubeValidator.
Import VarcharSpec.

Lemma Forall_flat_map {A B : Type} (P : B -> Prop) (f : A -> list B) (l : list A) :
  (forall x, Forall P (f x)) -> Forall P (flat_map f l).
Proof.
  intros H. induction l as [|a l IH]; simpl; [constructor|].
  apply Forall_app. split; [apply H | exact IH].
Qed.

Ltac other_singletons :=
  repeat match goal with
         | |- Forall _ (let _ := _ in _) => cbv zeta
         | |- Forall _ (_ ++ _)%list => apply Forall_app; split
         | |- Forall _ [] => constructor
         | |- Forall _ [_] => constructor; [reflexivity | constructor]
         | |- Forall _ (if ?b then _ else _) => destruct b
         | |- Forall _ (match ?x with Some _ => _ | None => _ end) => destruct x
         end.

Section Others.
Variables (path name : string).

Lemma validateAnnotations_other line n :
  Forall otherMessage (validateAnnotations path name line n).
Proof. apply Forall_flat_map. intros mt. other_singletons. Qed.

Lemma checkOption_other columnType n mt :
  Forall otherMessage (checkOption path name columnType n mt).
Proof. unfold checkOption. other_singletons. Qed.

Lemma validateColumnOptions_other line n lines :
  Forall otherMessage (validateColumnOptions path name line n lines).
Proof.
  unfold validateColumnOptions. other_singletons.
  destruct (matchAll quotedOptionRegex _); [constructor|].
  apply Forall_flat_map. intros mt. apply checkOption_other.
Qed.

Lemma validateColumnProperties_other line n content :
  Forall otherMessage (validateColumnProperties path name line n content).
Proof. unfold validateColumnProperties. other_singletons. Qed.

Lemma validateRequiredColumnProperties_other lines n :
  Forall otherMessage (validateRequiredColumnProperties path name lines n).
Proof.
  unfold validateRequiredColumnProperties. other_singletons.
  destruct p as [columnStartLine columnName]. other_singletons.
Qed.

Lemma validateGeneralSyntax_other line n :
  Forall otherMessage (validateGeneralSyntax path name line n).
Proof. unfold validateGeneralSyntax. other_singletons. Qed.

Lemma validateOverallStructure_other content :
  Forall otherMessage (validateOverallStructure path name content).
Proof. unfold validateOverallStructure. other_singletons. Qed.

Lemma no_hit_of_other n errs :
  Forall otherMessage errs -> filter (isVarcharLengthError n) errs = [].
Proof.
  intros H. apply TopologicalSortFacts.filter_none. intros e He.
  rewrite Forall_forall in H. unfold isVarcharLengthError. now rewrite (H e He).
Qed.

(** The window of the varchar rule is the declaring line and the four
    lines after it. *)
Lemma window_slice {A : Type} (i : nat) (lines : list A) :
  slice (Nat.max 0 (i + 1 - 1)) (Nat.min (i + 1 + 4) (List.length lines)) lines
  = firstn 5 (skipn i lines).
Proof.
  unfold slice. replace (Nat.max 0 (i + 1 - 1)) with i by lia.
  destruct (Nat.le_gt_cases (i + 5) (List.length lines)) as [H|H].
  - f_equal. lia.
  - rewrite !firstn_all2; [reflexivity | |]; rewrite length_skipn; lia.
Qed.

Lemma validateDataTypes_hits line i content :
  includes line varcharDeclaration = true ->
  filter (isVarcharLengthError (i + 1)) (validateDataTypes path name line (i + 1) content)
  = if hasLengthNearby i (split_lf content) then []
    else [report path name (i + 1) varcharLengthMessage].
Proof.
  intros Hv. unfold validateDataTypes. rewrite Hv, filter_app.
  rewrite no_hit_of_other by (apply Forall_flat_map; intros mt; other_singletons).
  rewrite window_slice. fold (hasLengthNearby i (split_lf content)).
  destruct (hasLengthNearby i (split_lf content)); simpl; [reflexivity|].
  unfold isVarcharLengthError. simpl. now rewrite Nat.eqb_refl.
Qed.

Lemma validateDataTypes_elsewhere line j i content :
  j <> i ->
  filter (isVarcharLengthError (i + 1)) (validateDataTypes path name line (j + 1) content)
  = [].
Proof.
  intros Hne. apply TopologicalSortFacts.filter_none. intros e He.
  unfold validateDataTypes in He. apply in_app_or in He. destruct He as [He|He].
  - assert (Ho : Forall otherMessage
                   (flat_map
                      (fun mt =>
                         if arrayIncludes validTypes (group1 mt) then []
                         else [report path name (j + 1)
                                 ("Invalid data type '" ++ group1 mt ++ "'. Valid types: "
                                  ++ join ", " validTypes)])
                      (matchAll typeRegex line)))
      by (apply Forall_flat_map; intros mt; other_singletons).
    rewrite Forall_forall in Ho. unfold isVarcharLengthError. now rewrite (Ho e He).
  - destruct (includes line varcharDeclaration); [|destruct He].
    destruct (existsb _ _); [destruct He|].
    destruct He as [<-|[]]. unfold isVarcharLengthError, report, lineNumber.
    destruct (Nat.eqb_spec (j + 1) (i + 1)) as [E|E]; [lia | apply andb_false_r].
Qed.

(** On the declaring line only the data-type check can report the length
    error. *)
Lemma validateLine_hits content lines line i :
  skippedLine line = false ->
  includes line varcharDeclaration = true ->
  filter (isVarcharLengthError (i + 1)) (validateLine path name content lines i line)
  = if hasLengthNearby i (split_lf content) then []
    else [report path name (i + 1) varcharLengthMessage].
Proof.
  intros Hs Hv. unfold validateLine. rewrite Hs. rewrite !filter_app.
  rewrite (no_hit_of_other _ _ (validateAnnotations_other line (i + 1))).
  rewrite (no_hit_of_other _ _ (validateColumnOptions_other line (i + 1) lines)).
  rewrite (no_hit_of_other _ _ (validateColumnProperties_other line (i + 1) content)).
  rewrite (no_hit_of_other _ _ (validateRequiredColumnProperties_other lines (i + 1))).
  rewrite (no_hit_of_other _ _ (validateGeneralSyntax_other line (i + 1))).
  rewrite validateDataTypes_hits by exact Hv. simpl. now rewrite app_nil_r.
Qed.

Lemma validateLine_elsewhere content lines line j i :
  j <> i ->
  filter (isVarcharLengthError (i + 1)) (validateLine path name content lines j line) = [].
Proof.
  intros Hne. unfold validateLine. destruct (skippedLine line); [reflexivity|].
  rewrite !filter_app.
  rewrite (no_hit_of_other _ _ (validateAnnotations_other line (j + 1))).
  rewrite (no_hit_of_other _ _ (validateColumnOptions_other line (j + 1) lines)).
  rewrite (no_hit_of_other _ _ (validateColumnProperties_other line (j + 1) content)).
  rewrite (no_hit_of_other _ _ (validateRequiredColumnProperties_other lines (j + 1))).
  rewrite (no_hit_of_other _ _ (validateGeneralSyntax_other line (j + 1))).
  now rewrite validateDataTypes_elsewhere.
Qed.

Lemma validateLinesFrom_app content lines a : forall k b,
  validateLinesFrom path name content lines k (a ++ b)
  = (validateLinesFrom path name content lines k a
     ++ validateLinesFrom path name content lines (k + List.length a) b)%list.
Proof.
  induction a as [|x a IH]; intros k b; simpl.
  - now rewrite Nat.add_0_r.
  - rewrite IH, <- app_assoc. do 3 f_equal. lia.
Qed.

Lemma validateLinesFrom_elsewhere content lines i rest : forall k,
  (forall j, k <= j < k + List.length rest -> j <> i) ->
  filter (isVarcharLengthError (i + 1))
    (validateLinesFrom path name content lines k rest) = [].
Proof.
  induction rest as [|x rest IH]; intros k H; simpl; [reflexivity|].
  rewrite filter_app, validateLine_elsewhere by (apply H; simpl; lia).
  apply IH. intros j Hj. apply H. simpl. lia.
Qed.

Lemma validateLinesFrom_hits content lines i line :
  nth_error lines i = Some line ->
  skippedLine line = false ->
  includes line varcharDeclaration = true ->
  filter (isVarcharLengthError (i + 1))
    (validateLinesFrom path name content lines 0 lines)
  = if hasLengthNearby i (split_lf content) then []
    else [report path name (i + 1) varcharLengthMessage].
Proof.
  intros Hnth Hs Hv.
  destruct (nth_error_split lines i Hnth) as (pre & post & Hsplit & Hlen).
  rewrite Hsplit at 2. rewrite validateLinesFrom_app. simpl. rewrite Hlen.
  rewrite !filter_app.
  rewrite validateLinesFrom_elsewhere by (intros j Hj; lia).
  rewrite validateLinesFrom_elsewhere by (intros j Hj; lia).
  rewrite validateLine_hits by assumption.
  simpl. now rewrite app_nil_r.
Qed.

End Others.

(** *** A line that declares a varchar is never blank *)

Lemma trimEnd_empty s : trimEnd s = EmptyString -> allSpaces s = true.
Proof.
  induction s as [|c s IH]; simpl; [reflexivity|].
  destruct (trimEnd s) eqn:E; [|discriminate].
  destruct (is_space c); [intros _; now apply IH | discriminate].
Qed.

Lemma trimStart_allSpaces s : allSpaces (trimStart s) = true -> allSpaces s = true.
Proof.
  induction s as [|c s IH]; simpl; [reflexivity|].
  destruct (is_space c) eqn:E; simpl; [exact IH|].
  now rewrite E.
Qed.

Lemma trim_empty s : trim s = EmptyString -> allSpaces s = true.
Proof. intros H. now apply trimStart_allSpaces, trimEnd_empty. Qed.

Lemma includes_allSpaces s c p :
  allSpaces s = true -> includes s (String c p) = true -> is_space c = true.
Proof.
  induction s as [|d s IH]; simpl; [discriminate|].
  intros Ha Hi. apply andb_prop in Ha. destruct Ha as [Hd Hs].
  apply orb_prop in Hi. destruct Hi as [Hi|Hi]; [|now apply IH].
  apply andb_prop in Hi. destruct Hi as [Hc _].
  apply Ascii.eqb_eq in Hc. now subst.
Qed.

Lemma varchar_line_not_blank line :
  includes line varcharDeclaration = true -> String.eqb (trim line) EmptyString = false.
Proof.
  intros Hv. apply String.eqb_neq. intros Ht. apply trim_empty in Ht.
  pose proof (includes_allSpaces line "t" _ Ht Hv) as Hsp. discriminate.
Qed.

End VarcharFacts.

(** C7 as stated fails twice on one file.  Line 9 is a comment that
    contains the varchar declaration, with no [length:] in its window:
    the line is skipped and no error is reported for it.  Line 12 is an
    options line that contains the declaration and quotes the words
    "length specification": two errors of that line mention them. *)
Lemma varchar_rule_counterexample :
  nth_error (split_lf VarcharExample.content) 8 = Some VarcharExample.commentLine
  /\ includes VarcharExample.commentLine CubeValidator.varcharDeclaration = true
  /\ existsb (fun l => includes l "length:")
       (firstn 5 (skipn 8 (split_lf VarcharExample.content))) = false
  /\ filter (VarcharSpec.mentionsLengthAt 9)
       (errors (CubeValidator.validateCubeFile VarcharExample.host VarcharExample.file))
     = []
  /\ nth_error (split_lf VarcharExample.content) 11 = Some VarcharExample.oddOptionsLine
  /\ includes VarcharExample.oddOptionsLine CubeValidator.varcharDeclaration = true
  /\ List.length
       (filter (VarcharSpec.mentionsLengthAt 12)
          (errors (CubeValidator.validateCubeFile VarcharExample.host VarcharExample.file)))
     = 2.
Proof. repeat split; vm_compute; reflexivity. Qed.

(** C7, amended: for a line that contains the varchar declaration and is
    not a [//] comment, the length error of the data-type check is
    reported for that line's number exactly once when no line of the
    five-line window (the line and the next four) contains [length:],
    and not at all when one does. *)
Theorem varchar_length_rule
  (host : Host) (path content line : string) (i : nat) :
  readFileSync host path = Returned content ->
  nth_error (split_lf content) i = Some line ->
  includes line CubeValidator.varcharDeclaration = true ->
  startsWith (trim line) "//" = false ->
  filter (VarcharSpec.isVarcharLengthError (i + 1))
    (errors (CubeValidator.validateCubeFile host path))
  = if existsb (fun l => includes l "length:") (firstn 5 (skipn i (split_lf content)))
    then []
    else [mkProcessError (basename host path (extname host path))
            CubeValidator.varcharLengthMessage path (Some (i + 1))].
Proof.
  intros Hread Hnth Hv Hc. unfold CubeValidator.validateCubeFile. rewrite Hread.
  cbn [errors]. rewrite filter_app.
  rewrite (VarcharFacts.no_hit_of_other _ _
             (VarcharFacts.validateOverallStructure_other _ _ content)).
  rewrite app_nil_r.
  apply (VarcharFacts.validateLinesFrom_hits _ _ content (split_lf content) i line);
    try assumption.
  unfold CubeValidator.skippedLine.
  now rewrite VarcharFacts.varchar_line_not_blank, Hc.
Qed.

Lemma varchar_length_rule_witness :
  filter (VarcharSpec.isVarcharLengthError (14 + 1))
    (errors (CubeValidator.validateCubeFile VarcharExample.host VarcharExample.file))
  = if existsb (fun l => includes l "length:")
         (firstn 5 (skipn 14 (split_lf VarcharExample.content)))
    then []
    else [mkProcessError
            (basename VarcharExample.host VarcharExample.file
               (extname VarcharExample.host VarcharExample.file))
            CubeValidator.varcharLengthMessage VarcharExample.file (Some (14 + 1))].
Proof.
  apply (varchar_length_rule VarcharExample.host VarcharExample.file
           VarcharExample.content VarcharExample.varcharLine 14);
    vm_compute; reflexivity.
Defined.

Example varchar_length_rule_reports_line_15 :
  filter (VarcharSpec.isVarcharLengthError 15)
    (errors (CubeValidator.validateCubeFile VarcharExample.host VarcharExample.file))
  = [mkProcessError "users.table" "VARCHAR type requires a length specification"
       VarcharExample.file (Some 15)].
Proof. vm_compute. reflexivity. Qed.

(** ** Failure propagation in the table passes (C2) *)

Module PassFacts.
Import Schema.

Lemma setHas_setAdd s x : setHas (setAdd s x) x = true.
Proof.
  unfold setAdd. destruct (setHas s x) eqn:E; [exact E|].
  unfold setHas. rewrite TopologicalSortFacts.arrayIncludes_app.
  unfold arrayIncludes at 2. simpl. rewrite String.eqb_refl. apply orb_true_r.
Qed.

Lemma join_includes sep xs d : In d xs -> includes (join sep xs) d = true.
Proof.
  induction xs as [|x xs IH]; [intros []|].
  intros [->|Hin].
  - destruct xs as [|y ys]; simpl join.
    + exact (includes_suffix EmptyString d).
    + apply includes_here.
  - destruct xs as [|y ys]; [destruct Hin|].
    change (join sep (x :: y :: ys)) with (x ++ sep ++ join sep (y :: ys)).
    apply includes_app_r, includes_app_r. now apply IH.
Qed.

Lemma dependencyErrorMessage_names mode tableName missing d :
  In d missing -> includes (dependencyErrorMessage mode tableName missing) d = true.
Proof.
  intros Hin. unfold dependencyErrorMessage.
  apply includes_app_r, includes_app_r, includes_app_r. now apply join_includes.
Qed.

(** An invalid result always carries its error. *)
Lemma invalid_has_error host filePath :
  vIsValid (validateDatabaseConfiguration host filePath) = false ->
  exists e, vError (validateDatabaseConfiguration host filePath) = Some e.
Proof.
  unfold validateDatabaseConfiguration.
  destruct (errors (CubeValidator.validateCubeFile host filePath)) as [|e0 rest];
    [|intros _; eexists; reflexivity].
  destruct (negb _); [intros _; eexists; reflexivity|].
  destruct (loadConfig host) as [getDatabase|msg]; [|intros _; eexists; reflexivity].
  destruct (getDatabase _) as [[|]|msg]; simpl; intros H;
    [discriminate | eexists; reflexivity | eexists; reflexivity].
Qed.

Section WithEngine.
Variable Payload : Type.

Lemma processFiles_app mode host (engine : Engine Payload) pre : forall st rest,
  processFiles mode host engine st (pre ++ rest)
  = match processFiles mode host engine st pre with
    | Continue st' => processFiles mode host engine st' rest
    | stop => stop
    end.
Proof.
  induction pre as [|f pre IH]; intros st rest; simpl; [reflexivity|].
  destruct (processFile mode host engine st f); auto.
Qed.

(** Past discovery, both passes are the loop over the re-ordered files. *)
Lemma runTables_is_loop mode fuel host (engine : Engine Payload) store files :
  existsSync host (joinCwdDbcube host EmptyString) = true ->
  getCubeFilesRecursively host "dbcube" ".table.cube" = Returned files ->
  files <> [] ->
  List.length files < fuel ->
  exists order store',
    DependencyResolver.resolveDependencies fuel host store files table
      = Some (order, store')
    /\ runTables mode fuel host engine store
       = processFiles mode host engine (initialState Payload)
           (DependencyResolver.orderCubeFiles host store' files table).
Proof.
  intros Hdir Hfiles Hne Hfuel. unfold runTables. rewrite Hdir, Hfiles. simpl.
  destruct files as [|f files]; [contradiction|].
  pose proof (ResolverFacts.resolveDependencies_total fuel host store (f :: files)
                table Hfuel) as Htotal.
  destruct (DependencyResolver.resolveDependencies fuel host store (f :: files) table)
    as [[order store']|]; [|contradiction].
  exists order, store'. split; reflexivity.
Qed.

End WithEngine.

End PassFacts.

(** C2 as stated fails for a processed file that does not pass validation.
    The broken child is a regular file whose dependency list holds the
    failed table "parent", yet the error recorded for it is the
    validation error: no error of the pass names the prerequisite. *)
Lemma invalid_dependent_records_validation_error :
  Schema.processFiles Schema.fresh InvalidChildExample.host PassExample.engine
    (Schema.initialState unit) [PassExample.parentFile]
  = Schema.Continue InvalidChildExample.afterParent
  /\ Schema.failedTables InvalidChildExample.afterParent = ["parent"]
  /\ statIsFile InvalidChildExample.host InvalidChildExample.brokenChildFile
     = Returned true
  /\ Schema.extractForeignKeyDependencies InvalidChildExample.host
       InvalidChildExample.brokenChildFile = ["parent"]
  /\ Schema.processFiles Schema.fresh InvalidChildExample.host PassExample.engine
       (Schema.initialState unit)
       [PassExample.parentFile; InvalidChildExample.brokenChildFile]
     = Schema.Continue InvalidChildExample.afterBoth
  /\ Schema.passErrors InvalidChildExample.afterBoth
     = (Schema.passErrors InvalidChildExample.afterParent
        ++ [mkProcessError "2_broken_child.table"
              "VARCHAR type requires a length specification"
              InvalidChildExample.brokenChildFile (Some 16)])%list
  /\ existsb (fun e => includes (error e) "parent")
       (Schema.passErrors InvalidChildExample.afterBoth) = false.
Proof. repeat split; vm_compute; reflexivity. Qed.

(** C2, amended: in a table pass ([refresh] or [fresh]), take a file that
    the loop reaches in state [st] and that is processed (it is a regular
    file).  If one of its foreign-key dependencies is in the failed set,
    then the loop continues with a state in which the engine trace is
    unchanged (no engine interaction for this file), the error count has
    grown by one and the file's table name is in the failed set.
    Validation comes first: if the file passes validation, the recorded
    error is the dependency error, whose message names every failed
    dependency; if it does not, the recorded error is the validation
    error and the dependency check is never reached. *)
Theorem failed_dependency_skips_table
  (Payload : Type) (mode : Schema.Mode) (host : Host) (engine : Schema.Engine Payload)
  (pre : list string) (file : string) (st : Schema.PassState Payload) (dep : string) :
  let filePath := if isAbsolute host file then file else joinCwdDbcube host file in
  let tableName := DependencyResolver.tableNameOf host table file filePath in
  let validation := Schema.validateDatabaseConfiguration host filePath in
  let missing :=
    filter (Schema.setHas (Schema.failedTables st))
      (Schema.extractForeignKeyDependencies host filePath) in
  Schema.processFiles mode host engine (Schema.initialState Payload) pre
    = Schema.Continue st ->
  statIsFile host filePath = Returned true ->
  In dep (Schema.extractForeignKeyDependencies host filePath) ->
  Schema.setHas (Schema.failedTables st) dep = true ->
  exists st' recorded,
    Schema.processFiles mode host engine (Schema.initialState Payload) (pre ++ [file])
      = Schema.Continue st'
    /\ Schema.engineTrace st' = Schema.engineTrace st
    /\ Schema.passErrors st' = (Schema.passErrors st ++ [recorded])%list
    /\ Schema.errorCount st' = S (Schema.errorCount st)
    /\ Schema.setHas (Schema.failedTables st') tableName = true
    /\ Schema.processedTables st' = Schema.processedTables st
    /\ (Schema.vIsValid validation = true ->
        recorded
        = mkProcessError tableName
            (Schema.dependencyErrorMessage mode tableName missing) filePath
            (Some (Schema.findForeignKeyLineNumber host filePath (hd dep missing)))
        /\ includes (error recorded) dep = true
        /\ forall d, In d missing -> includes (error recorded) d = true)
    /\ (Schema.vIsValid validation = false ->
        Schema.vError validation = Some recorded).
Proof.
  intros filePath tableName validation missing Hpre Hstat Hdep Hfailed.
  assert (Hmiss : In dep missing) by (apply filter_In; auto).
  rewrite PassFacts.processFiles_app, Hpre. simpl.
  unfold Schema.processFile. fold filePath. rewrite Hstat.
  fold tableName. fold validation. fold missing.
  destruct (Schema.vIsValid validation) eqn:Ev.
  - destruct missing as [|firstMissing rest] eqn:Em; [destruct Hmiss|].
    eexists. eexists. split; [reflexivity|]. simpl.
    repeat split; try discriminate.
    + apply PassFacts.setHas_setAdd.
    + now apply PassFacts.dependencyErrorMessage_names.
    + intros d Hd. now apply PassFacts.dependencyErrorMessage_names.
  - destruct (PassFacts.invalid_has_error host filePath Ev) as [e He].
    fold validation in He. rewrite He.
    exists (Schema.recordFailure st tableName e (Schema.engineTrace st)), e.
    split; [reflexivity|]. simpl.
    repeat split; try discriminate.
    apply PassFacts.setHas_setAdd.
Qed.

Module PassExampleFacts.
Import PassExample.
Import Schema.

Example parent_fails_validation :
  processFiles fresh host engine (initialState unit) [parentFile] = Continue afterParent
  /\ failedTables afterParent = ["parent"]
  /\ engineTrace afterParent = [].
Proof. repeat split; vm_compute; reflexivity. Qed.

Example child_alone_reaches_engine :
  match processFiles fresh host engine (initialState unit) [childFile] with
  | Continue st => List.length (engineTrace st) = 4 /\ processedTables st = ["child"]
  | _ => False
  end.
Proof. vm_compute. split; reflexivity. Qed.

Example child_after_parent_is_skipped :
  match processFiles fresh host engine (initialState unit) [parentFile; childFile] with
  | Continue st =>
      engineTrace st = []
      /\ failedTables st = ["parent"; "child"]
      /\ map error (passErrors st)
         = ["VARCHAR type requires a length specification";
            "Cannot create table 'child' because it depends on failed table(s): parent"]
      /\ map lineNumber (passErrors st) = [Some 7; Some 13]
  | _ => False
  end.
Proof. vm_compute. repeat split; reflexivity. Qed.

End PassExampleFacts.

Lemma failed_dependency_skips_table_witness :
  exists st' recorded,
    Schema.processFiles Schema.fresh PassExample.host PassExample.engine
      (Schema.initialState unit) [PassExample.parentFile; PassExample.childFile]
    = Schema.Continue st'
    /\ Schema.engineTrace st' = Schema.engineTrace PassExample.afterParent
    /\ Schema.passErrors st'
       = (Schema.passErrors PassExample.afterParent ++ [recorded])%list
    /\ Schema.setHas (Schema.failedTables st') "child" = true
    /\ includes (error recorded) "parent" = true.
Proof.
  destruct (failed_dependency_skips_table unit Schema.fresh PassExample.host
              PassExample.engine [PassExample.parentFile] PassExample.childFile
              PassExample.afterParent "parent")
    as (st' & recorded & Hrun & Htrace & Herrors & _ & Hfailed & _ & Hvalid & _).
  - vm_compute. reflexivity.
  - vm_compute. reflexivity.
  - vm_compute. left. reflexivity.
  - vm_compute. reflexivity.
  - exists st', recorded. split; [exact Hrun|]. split; [exact Htrace|].
    split; [exact Herrors|]. split; [exact Hfailed|].
    destruct Hvalid as (_ & Hnames & _); [vm_compute; reflexivity | exact Hnames].
Defined.

(** ** Quoting in the options array (C5, C8) *)

Module OptionsFacts.
Import CubeValidator.
Import OptionsSpec.

Lemma starLoop_chr p k : forall n pos s caps,
  String.length s <= n ->
  starLoop (m (Chr p)) k n pos s caps = starChr p k pos s caps.
Proof.
  induction n as [|n IH]; intros pos s caps Hlen.
  - destruct s; [reflexivity | simpl in Hlen; lia].
  - destruct s as [|c s']; [reflexivity|].
    simpl. destruct (p c); [|reflexivity].
    replace (String.length s' <? S (String.length s'))%nat with true
      by (symmetry; apply Nat.ltb_lt; lia).
    rewrite IH by (simpl in Hlen; lia). reflexivity.
Qed.

Lemma m_star_chr p pos s caps k :
  m (Star (Chr p)) pos s caps k = starChr p k pos s caps.
Proof. simpl. now apply starLoop_chr. Qed.













(** *** Lists of quoted entries *)








End OptionsFacts.




(** C8, evaluated: a table file whose options line holds the bare word
    [primary] before a quoted entry.  The lookahead of the syntax check
    rejects every token that is followed, anywhere, by a double quote, so
    the bare word goes unreported: the check returns no error and the
    whole file validates. *)
Theorem bare_word_before_quoted_entry_is_not_reported :
  nth_error (split_lf (OptionsExample.tableWith OptionsExample.bareWordLine)) 7
  = Some OptionsExample.bareWordLine
  /\ OptionsSpec.optionsContentOf OptionsExample.bareWordLine
     = Some ("primary, " ++ dquoted "unique")
  /\ CubeValidator.validateColumnOptions OptionsExample.file "users.table"
       OptionsExample.bareWordLine 8
       (split_lf (OptionsExample.tableWith OptionsExample.bareWordLine))
     = []
  /\ CubeValidator.validateCubeFile
       (OptionsExample.hostWith OptionsExample.bareWordLine) OptionsExample.file
     = mkValidationResult true [].
Proof. repeat split; vm_compute; reflexivity. Qed.

(** When the bare word comes last, the check does report it, once. *)
Example bare_word_last_is_reported :
  CubeValidator.validateColumnOptions OptionsExample.file "users.table"
    ("        options: [" ++ dquoted "unique" ++ ", primary];") 8 []
  = [CubeValidator.report OptionsExample.file "users.table" 8
       (CubeValidator.invalidSyntaxMessage "primary")].
Proof. vm_compute. reflexivity. Qed.

(** ** What a capture group can hold *)

Module CaptureFacts.
Import CaptureSpec OptionsSpec.

(** A regular expression without groups hands the captures it received
    to its continuation. *)
Lemma m_groupFree r : groupFree r = true ->
  forall pos s caps k e,
    m r pos s caps k = Some e -> exists pos' s', k pos' s' caps = Some e.
Proof.
  induction r as [p| |r1 IH1 r2 IH2|r1 IH1 r2 IH2|r1 IH1|r1 IH1|r1 IH1| |];
    intros Hg pos s caps k e H; simpl in Hg.
  - simpl in H. destruct s as [|c s']; [discriminate|].
    destruct (p c); [eauto | discriminate].
  - eauto.
  - apply andb_prop in Hg. destruct Hg as [Hg1 Hg2]. simpl in H.
    destruct (IH1 Hg1 _ _ _ _ _ H) as (pos1 & s1 & H1). eauto.
  - apply andb_prop in Hg. destruct Hg as [Hg1 Hg2]. simpl in H.
    destruct (m r1 pos s caps k) as [e1|] eqn:E1.
    + injection H as <-. eauto.
    + eauto.
  - cbn [m] in H. set (n := String.length s) in H. clearbody n.
    revert pos s caps H.
    induction n as [|n IHn]; intros pos s caps H; simpl in H; [eauto|].
    match type of H with
    | match ?X with _ => _ end = _ => destruct X as [e1|] eqn:E1
    end; [|eauto].
    injection H as <-.
    destruct (IH1 Hg _ _ _ _ _ E1) as (pos1 & s1 & H1).
    destruct (String.length s1 <? String.length s)%nat; [eauto | discriminate].
  - discriminate.
  - simpl in H. destruct (m r1 pos s caps accept); [discriminate | eauto].
  - simpl in H. destruct (pos =? 0)%nat; [eauto | discriminate].
  - simpl in H. destruct s; [eauto | discriminate].
Qed.

Lemma m_seq_groupFree r1 r2 pos s caps k e :
  groupFree r1 = true ->
  m (Seq r1 r2) pos s caps k = Some e ->
  exists pos' s', m r2 pos' s' caps k = Some e.
Proof.
  intros Hg H. simpl in H.
  exact (m_groupFree r1 Hg _ _ _ _ _ H).
Qed.

Lemma length_drop n : forall s, String.length (drop n s) = String.length s - n.
Proof.
  induction n as [|n IH]; intros s; simpl.
  - lia.
  - destruct s as [|c s]; simpl; [reflexivity | apply IH].
Qed.

(** A successful greedy run consumed some prefix of class characters. *)
Lemma starChr_run p k : forall s pos caps e,
  starChr p k pos s caps = Some e ->
  exists n, n <= String.length s
            /\ allChars p (take n s) = true
            /\ k (pos + n) (drop n s) caps = Some e.
Proof.
  induction s as [|c s IH]; intros pos caps e H; simpl in H.
  - exists 0. rewrite Nat.add_0_r. auto.
  - destruct (p c) eqn:Ep.
    + destruct (starChr p k (S pos) s caps) as [e1|] eqn:E1.
      * injection H as <-. destruct (IH _ _ _ E1) as (n & Hn & Hall & Hk).
        exists (S n). simpl. rewrite Ep, Hall.
        replace (pos + S n) with (S pos + n) by lia. repeat split; auto. lia.
      * exists 0. rewrite Nat.add_0_r. simpl. repeat split; auto. lia.
    + exists 0. rewrite Nat.add_0_r. simpl. repeat split; auto. lia.
Qed.

Lemma m_plus_chr p pos s caps k :
  m (Plus (Chr p)) pos s caps k
  = match s with
    | String c s' => if p c then starChr p k (S pos) s' caps else None
    | EmptyString => None
    end.
Proof.
  unfold Plus. cbn [m]. destruct s as [|c s']; [reflexivity|].
  destruct (p c); [|reflexivity]. apply OptionsFacts.starLoop_chr. lia.
Qed.

(** The group [(p+)] appends a non-empty capture of class characters. *)
Lemma m_group_plus p pos s caps k e :
  m (Group (Plus (Chr p))) pos s caps k = Some e ->
  exists pos' s' c,
    k pos' s' (caps ++ [c])%list = Some e /\ nameOfClass p c.
Proof.
  change (m (Group (Plus (Chr p))) pos s caps k)
    with (m (Plus (Chr p)) pos s caps
            (fun pos' s' caps' =>
               k pos' s' (caps' ++ [take (String.length s - String.length s') s])%list)).
  rewrite m_plus_chr. destruct s as [|c0 s0]; [discriminate|].
  destruct (p c0) eqn:Ep; [|discriminate].
  intros H.
  apply starChr_run in H. destruct H as (n & Hn & Hall & Hk).
  cbv beta in Hk. rewrite length_drop in Hk.
  replace (String.length (String c0 s0) - (String.length s0 - n)) with (S n) in Hk
    by (change (String.length (String c0 s0)) with (S (String.length s0)); lia).
  eexists. eexists. eexists. split; [exact Hk|].
  split; [discriminate|]. simpl. now rewrite Ep, Hall.
Qed.

(** A match found by [search] is a match of the regex at some position. *)
Lemma search_some r : forall s pos mt,
  search r pos s = Some mt ->
  exists pos' s' rest, m r pos' s' [] accept = Some (rest, groups mt).
Proof.
  induction s as [|c s IH]; intros pos mt H; simpl in H.
  - destruct (m r pos EmptyString [] accept) as [[rest caps]|] eqn:E; [|discriminate].
    injection H as <-. simpl. eauto.
  - destruct (m r pos (String c s) [] accept) as [[rest caps]|] eqn:E.
    + injection H as <-. simpl. eauto.
    + eauto.
Qed.

Lemma In_execAll r : forall fuel pos s mt,
  In mt (execAll fuel r pos s) ->
  exists pos' s' rest, m r pos' s' [] accept = Some (rest, groups mt).
Proof.
  induction fuel as [|fuel IH]; intros pos s mt H; simpl in H; [destruct H|].
  destruct (search r pos s) as [mt0|] eqn:E; [|destruct H].
  assert (Hhead : mt0 = mt ->
                  exists pos' s' rest, m r pos' s' [] accept = Some (rest, groups mt))
    by (intros <-; now apply (search_some r s pos)).
  destruct (matched mt0).
  - destruct (drop (index mt0 - pos) s).
    + destruct H as [H|[]]. auto.
    + destruct H as [H|H]; [auto | eauto].
  - destruct H as [H|H]; [auto | eauto].
Qed.

End CaptureFacts.

(** ** Literals and substrings *)

Module LiteralFacts.

Lemma m_lit p : forall pos s caps k e,
  m (Lit p) pos s caps k = Some e -> startsWith s p = true.
Proof.
  induction p as [|c p IH]; intros pos s caps k e H.
  - destruct s; reflexivity.
  - cbn [Lit] in H. unfold Lit1 in H. cbn [m] in H.
    destruct s as [|d s']; [discriminate|]. simpl.
    destruct (Ascii.eqb c d); [|discriminate]. simpl. eauto.
Qed.

Lemma m_seq_lit p r pos s caps k e :
  m (Seq (Lit p) r) pos s caps k = Some e -> startsWith s p = true.
Proof. cbn [m]. apply m_lit. Qed.

(** A regex that can only match where [p] starts is only found in
    strings that include [p]. *)
Lemma search_includes r p :
  (forall pos s e, m r pos s [] accept = Some e -> startsWith s p = true) ->
  forall s pos mt, search r pos s = Some mt -> includes s p = true.
Proof.
  intros Hr. induction s as [|c s IH]; intros pos mt H; cbn [search] in H.
  - destruct (m r pos EmptyString [] accept) as [[rest caps]|] eqn:E; [|discriminate].
    apply Hr in E. destruct p; [reflexivity | discriminate].
  - destruct (m r pos (String c s) [] accept) as [[rest caps]|] eqn:E.
    + apply Hr in E. cbn [includes]. now rewrite E.
    + cbn [includes]. rewrite (IH _ _ H). apply orb_true_r.
Qed.

Lemma includes_app_l a b p : includes a p = true -> includes (a ++ b) p = true.
Proof.
  assert (Hs : forall a, startsWith a p = true -> startsWith (a ++ b) p = true).
  { clear a. induction p as [|c p IH]; intros a H; [destruct (a ++ b); reflexivity|].
    destruct a as [|d a]; [discriminate|]. simpl in *.
    apply andb_prop in H. destruct H as [-> H]. simpl. now apply IH. }
  induction a as [|d a IH]; intros H.
  - destruct p as [|c p]; [|discriminate]. simpl. destruct b; reflexivity.
  - cbn [includes] in H. apply orb_prop in H. destruct H as [H|H].
    + apply Hs in H. change ((String d a) ++ b) with (String d (a ++ b)) in *.
      cbn [includes]. now rewrite H.
    + change ((String d a) ++ b) with (String d (a ++ b)).
      cbn [includes]. rewrite (IH H). apply orb_true_r.
Qed.

(** A line of a text is the whole text or is followed by a line feed. *)
Lemma split_lf_cons s : forall l ls,
  split_lf s = l :: ls ->
  (ls = [] /\ s = l)
  \/ exists rest, s = l ++ String lf rest /\ split_lf rest = ls.
Proof.
  induction s as [|c s IH]; intros l ls H; simpl in H.
  - injection H as <- <-. left. auto.
  - destruct (Ascii.eqb c lf) eqn:Ec.
    + apply Ascii.eqb_eq in Ec. subst c. injection H as <- <-.
      right. exists s. auto.
    + destruct (split_lf s) as [|l0 ls0] eqn:Es.
      * injection H as <- <-. left. split; [reflexivity|].
        destruct s; [reflexivity | simpl in Es].
        destruct (Ascii.eqb a lf); [discriminate|].
        destruct (split_lf s); discriminate.
      * injection H as <- <-.
        destruct (IH _ _ eq_refl) as [[-> ->]|(rest & -> & Hr)].
        -- left. auto.
        -- right. exists rest. auto.
Qed.

Lemma length_append (a b : string) :
  String.length (a ++ b) = String.length a + String.length b.
Proof. induction a as [|c a IH]; simpl; [reflexivity | now rewrite IH]. Qed.

Lemma split_lf_includes p : forall s l,
  In l (split_lf s) -> includes l p = true -> includes s p = true.
Proof.
  intros s. remember (String.length s) as n eqn:Hn.
  revert s Hn. induction n as [n IH] using lt_wf_ind. intros s Hn l Hin Hl.
  destruct (split_lf s) as [|l0 ls] eqn:Es; [destruct Hin|].
  destruct (split_lf_cons s l0 ls Es) as [[-> ->]|(rest & -> & Hr)].
  - destruct Hin as [<-|[]]. exact Hl.
  - destruct Hin as [<-|Hin].
    + now apply includes_app_l.
    + apply includes_app_r. cbn [includes]. subst ls.
      rewrite (IH (String.length rest)) with (l := l); auto using orb_true_r.
      subst n. rewrite length_append. simpl. lia.
Qed.

End LiteralFacts.

(** ** Names read from cube files *)

Module NameFacts.
Import CaptureSpec CaptureFacts LiteralFacts.

Lemma m_seq r1 r2 pos s caps k :
  m (Seq r1 r2) pos s caps k
  = m r1 pos s caps (fun pos' s' caps' => m r2 pos' s' caps' k).
Proof. reflexivity. Qed.

(** Peel the group-free pieces in front of the group. *)
Ltac peel H :=
  repeat (apply m_seq_groupFree in H; [|reflexivity];
          let pos := fresh "pos" in
          let s := fresh "s" in
          destruct H as (pos & s & H)).

(** What follows the group is group-free: the captures are the group. *)
Ltac finish H c :=
  rewrite m_seq in H; apply m_group_plus in H;
  let pos := fresh "pos" in
  let s := fresh "s" in
  let Hc := fresh "Hc" in
  destruct H as (pos & s & c & H & Hc);
  apply m_groupFree in H; [|reflexivity];
  destruct H as (? & ? & H); injection H as _ H.

Lemma tableRef_capture line mt :
  exec DependencyResolver.tableRefRegex line = Some mt ->
  nameOfClass notQuote (group1 mt).
Proof.
  unfold exec. intros H. apply search_some in H. destruct H as (pos & s & rest & H).
  unfold DependencyResolver.tableRefRegex in H. cbn [seqs] in H.
  peel H. finish H c. unfold group1. rewrite <- H. exact Hc.
Qed.

Lemma metaName_capture content mt :
  exec FileUtils.metaNameRegex content = Some mt ->
  nameOfClass notQuote (group1 mt).
Proof.
  unfold exec. intros H. apply search_some in H. destruct H as (pos & s & rest & H).
  unfold FileUtils.metaNameRegex in H. cbn [seqs] in H.
  peel H. finish H c. unfold group1. rewrite <- H. exact Hc.
Qed.

Lemma database_capture content mt :
  exec FileUtils.databaseRegex content = Some mt ->
  nameOfClass notQuote (group1 mt).
Proof.
  unfold exec. intros H. apply search_some in H. destruct H as (pos & s & rest & H).
  unfold FileUtils.databaseRegex in H. cbn [seqs] in H.
  peel H. finish H c. unfold group1. rewrite <- H. exact Hc.
Qed.

Lemma databaseName_capture input mt :
  exec FileUtils.databaseNameRegex input = Some mt ->
  nameOfClass FileUtils.isWordOrDash (group1 mt).
Proof.
  unfold exec. intros H. apply search_some in H. destruct H as (pos & s & rest & H).
  unfold FileUtils.databaseNameRegex in H. cbn [seqs] in H.
  peel H. finish H c. unfold group1. rewrite <- H. exact Hc.
Qed.

Lemma starts_with_literal p r :
  forall pos s e, m (Seq (Lit p) r) pos s [] accept = Some e -> startsWith s p = true.
Proof. intros pos s e. apply m_seq_lit. Qed.

Lemma metaName_includes content mt :
  exec FileUtils.metaNameRegex content = Some mt -> includes content "@meta" = true.
Proof.
  unfold exec, FileUtils.metaNameRegex. cbn [seqs].
  apply search_includes. apply starts_with_literal.
Qed.

Lemma database_includes content mt :
  exec FileUtils.databaseRegex content = Some mt -> includes content "@database" = true.
Proof.
  unfold exec, FileUtils.databaseRegex. cbn [seqs].
  apply search_includes. apply starts_with_literal.
Qed.

Lemma foreignOpen_includes line :
  test CubeValidator.foreignOpenRegex line = true -> includes line "foreign" = true.
Proof.
  unfold test, exec, CubeValidator.foreignOpenRegex. cbn [seqs].
  destruct (search _ 0 line) as [mt|] eqn:E; [intros _ | discriminate].
  revert E. apply search_includes. apply starts_with_literal.
Qed.

(** Every name the scan has found so far is a captured table name. *)
Lemma scanLine_names st line :
  Forall (nameOfClass notQuote) (DependencyResolver.found st) ->
  Forall (nameOfClass notQuote)
    (DependencyResolver.found (DependencyResolver.scanLine st line)).
Proof.
  intros H. unfold DependencyResolver.scanLine.
  destruct (test CubeValidator.foreignOpenRegex line).
  - destruct (exec DependencyResolver.tableRefRegex line) as [mt|] eqn:E; simpl; [|exact H].
    apply Forall_app. split; [exact H|]. constructor; [|constructor].
    now apply (tableRef_capture line).
  - destruct (DependencyResolver.insideForeignKey st); [|exact H]. simpl.
    destruct (exec DependencyResolver.tableRefRegex line) as [mt|] eqn:E; [|exact H].
    apply Forall_app. split; [exact H|]. constructor; [|constructor].
    now apply (tableRef_capture line).
Qed.

Lemma scanFold_names lines : forall st,
  Forall (nameOfClass notQuote) (DependencyResolver.found st) ->
  Forall (nameOfClass notQuote)
    (DependencyResolver.found (fold_left DependencyResolver.scanLine lines st)).
Proof.
  induction lines as [|l lines IH]; intros st H; simpl; [exact H|].
  apply IH. now apply scanLine_names.
Qed.

Lemma scanForeignKeys_names content :
  Forall (nameOfClass notQuote) (DependencyResolver.scanForeignKeys content).
Proof. unfold DependencyResolver.scanForeignKeys. apply scanFold_names. constructor. Qed.

(** Outside a foreign block, lines without the opener change nothing. *)
Lemma scanFold_idle lines :
  (forall l, In l lines -> test CubeValidator.foreignOpenRegex l = false) ->
  fold_left DependencyResolver.scanLine lines (DependencyResolver.mkScanState [] false 0)
  = DependencyResolver.mkScanState [] false 0.
Proof.
  induction lines as [|l lines IH]; intros H; simpl; [reflexivity|].
  unfold DependencyResolver.scanLine at 2. rewrite (H l) by now left. simpl.
  apply IH. intros l' Hl'. apply H. now right.
Qed.

End NameFacts.

(** X1: every table name that the foreign-key scan returns, in the
    resolver and in the table passes alike, is a non-empty string without
    any quote character; an unreadable file has no dependencies. *)
Theorem extracted_dependencies_are_names (host : Host) (path dep : string) :
  In dep (DependencyResolver.extractForeignKeyReferences host path)
  \/ In dep (Schema.extractForeignKeyDependencies host path) ->
  dep <> EmptyString
  /\ CaptureSpec.allChars CaptureSpec.notQuote dep = true
  /\ exists content, readFileSync host path = Returned content.
Proof.
  unfold DependencyResolver.extractForeignKeyReferences,
    Schema.extractForeignKeyDependencies.
  destruct (readFileSync host path) as [content|msg]; [|intros [[]|[]]].
  intros H. assert (Hin : In dep (DependencyResolver.scanForeignKeys content)) by tauto.
  pose proof (NameFacts.scanForeignKeys_names content) as Hall.
  rewrite Forall_forall in Hall. destruct (Hall dep Hin) as [Hne Hq].
  repeat split; eauto.
Qed.

Lemma extracted_dependencies_are_names_witness :
  "B" <> EmptyString
  /\ CaptureSpec.allChars CaptureSpec.notQuote "B" = true
  /\ exists content, readFileSync ChainExample.host ChainExample.fileC = Returned content.
Proof.
  apply (extracted_dependencies_are_names ChainExample.host ChainExample.fileC "B").
  left. vm_compute. left. reflexivity.
Defined.

(** X2: a file whose text nowhere contains the word [foreign] has no
    dependencies, whatever [table:] properties it holds. *)
Theorem no_foreign_block_no_dependencies (host : Host) (path content : string) :
  readFileSync host path = Returned content ->
  includes content "foreign" = false ->
  DependencyResolver.extractForeignKeyReferences host path = []
  /\ Schema.extractForeignKeyDependencies host path = [].
Proof.
  intros Hread Hno.
  unfold DependencyResolver.extractForeignKeyReferences,
    Schema.extractForeignKeyDependencies. rewrite Hread.
  unfold DependencyResolver.scanForeignKeys.
  rewrite NameFacts.scanFold_idle; [split; reflexivity|].
  intros l Hl. destruct (test CubeValidator.foreignOpenRegex l) eqn:E; [|reflexivity].
  apply NameFacts.foreignOpen_includes in E.
  rewrite (LiteralFacts.split_lf_includes "foreign" content l Hl E) in Hno. discriminate.
Qed.

Lemma no_foreign_block_no_dependencies_witness :
  DependencyResolver.extractForeignKeyReferences LooseTableExample.host
    LooseTableExample.file = []
  /\ Schema.extractForeignKeyDependencies LooseTableExample.host
       LooseTableExample.file = [].
Proof.
  apply (no_foreign_block_no_dependencies LooseTableExample.host
           LooseTableExample.file LooseTableExample.content).
  - vm_compute. reflexivity.
  - vm_compute. reflexivity.
Defined.

(** ** The shape of the resolved order *)

Module SortFacts.
Import JsMap JsMapFacts DependencyResolver ResolverSpec ResolverFacts.
Import TopologicalSortSpec TopologicalSortFacts SortSpec.

Lemma appendRemaining_general deps : forall result,
  NoDup result ->
  NoDup (appendRemaining deps result)
  /\ forall n, In n (appendRemaining deps result) <-> In n result \/ In n (names deps).
Proof.
  unfold appendRemaining.
  induction deps as [|e deps IH]; intros result Hnd; simpl.
  - split; [exact Hnd | intros n; tauto].
  - destruct (arrayIncludes result (tableName e)) eqn:E.
    + destruct (IH result Hnd) as [H1 H2]. split; [exact H1|].
      intros n. rewrite H2. apply arrayIncludes_In in E.
      split; [tauto | intros [H|[<-|H]]; auto].
    + assert (Hnd' : NoDup (result ++ [tableName e])%list).
      { apply NoDup_app; [exact Hnd | repeat constructor; simpl; tauto |].
        intros x Hx [<-|[]]. apply arrayIncludes_In in Hx. congruence. }
      destruct (IH _ Hnd') as [H1 H2]. split; [exact H1|].
      intros n. rewrite H2, in_app_iff. simpl. tauto.
Qed.

(** The in-degree of a key is the number of its references to keys. *)
Lemma finalInDegree_degree deps x :
  degreeOr0 (finalInDegree deps) x = knownRefs (initInDegree deps) deps x.
Proof.
  unfold finalInDegree.
  destruct (countInDegree_spec deps (initInDegree deps) (initInDegree_covers deps))
    as (_ & _ & Hdeg).
  rewrite Hdeg.
  assert (H0 : degreeOr0 (initInDegree deps) x = 0%Z).
  { unfold degreeOr0. destruct (get (initInDegree deps) x) as [v|] eqn:Ev; [|reflexivity].
    unfold initInDegree in Ev.
    apply (initFold_zero deps empty) in Ev; [exact Ev | discriminate]. }
  lia.
Qed.

Lemma zero_entries_keys (mp : JsMap.t Z) :
  NoDup (keys mp) ->
  map fst (filter (fun entry => (snd entry =? 0)%Z) mp)
  = filter (fun k => (degreeOr0 mp k =? 0)%Z) (keys mp).
Proof.
  intros Hnd.
  assert (H : forall l, incl l mp ->
            map fst (filter (fun entry => (snd entry =? 0)%Z) l)
            = filter (fun k => (degreeOr0 mp k =? 0)%Z) (map fst l)).
  { induction l as [|[k v] l IH]; intros Hincl; simpl; [reflexivity|].
    assert (Hg : get mp k = Some v) by (apply In_get; [exact Hnd | apply Hincl; now left]).
    unfold degreeOr0 at 1. rewrite Hg.
    rewrite <- IH by (intros x Hx; apply Hincl; now right).
    destruct (v =? 0)%Z; reflexivity. }
  apply H. intros x Hx. exact Hx.
Qed.

Lemma roots_filter deps :
  NoDup (names deps) ->
  roots deps
  = filter (fun k => (knownRefs (initInDegree deps) deps k =? 0)%Z) (names deps).
Proof.
  intros Hnd. unfold roots, initialQueue.
  rewrite zero_entries_keys by apply finalInDegree_NoDup.
  assert (Hk : keys (finalInDegree deps) = names deps).
  { unfold finalInDegree.
    destruct (countInDegree_spec deps (initInDegree deps) (initInDegree_covers deps))
      as (_ & -> & _).
    now apply initInDegree_keys. }
  rewrite Hk. apply filter_ext. intros k. now rewrite finalInDegree_degree.
Qed.

Lemma knownRefs_absent m deps x :
  ~ In x (names deps) -> knownRefs m deps x = 0%Z.
Proof.
  induction deps as [|e deps IH]; simpl; intros H; [reflexivity|].
  destruct (String.eqb (tableName e) x) eqn:E.
  - apply String.eqb_eq in E. tauto.
  - rewrite IH by tauto. reflexivity.
Qed.

Lemma knownRefs_unique m deps e :
  NoDup (names deps) -> In e deps ->
  knownRefs m deps (tableName e) = knownCount m (dependencies e).
Proof.
  induction deps as [|e' deps IH]; simpl; intros Hnd Hin; [destruct Hin|].
  inversion Hnd as [|? ? Hnotin Hnd']; subst.
  destruct Hin as [->|Hin].
  - rewrite String.eqb_refl, knownRefs_absent by exact Hnotin. lia.
  - destruct (String.eqb (tableName e') (tableName e)) eqn:E.
    + apply String.eqb_eq in E. exfalso. apply Hnotin. rewrite E.
      unfold names. now apply in_map.
    + now rewrite IH.
Qed.

Lemma knownCount_zero_isRoot deps e :
  (knownCount (initInDegree deps) (dependencies e) =? 0)%Z = isRoot deps e.
Proof.
  unfold knownCount, isRoot. fold (names deps).
  induction (dependencies e) as [|d ds IH]; [reflexivity|].
  simpl. rewrite initInDegree_has.
  destruct (arrayIncludes (names deps) d); simpl.
  - destruct (Z.eqb_spec (Z.of_nat (S (List.length (filter (has (initInDegree deps)) ds)))) 0);
      [lia | reflexivity].
  - exact IH.
Qed.

Lemma filter_map_swap {A B : Type} (f : A -> B) (p : B -> bool) (l : list A) :
  filter p (map f l) = map f (filter (fun a => p (f a)) l).
Proof.
  induction l as [|a l IH]; simpl; [reflexivity|].
  rewrite IH. destruct (p (f a)); reflexivity.
Qed.

Lemma roots_isRoot deps :
  NoDup (names deps) -> roots deps = map tableName (filter (isRoot deps) deps).
Proof.
  intros Hnd. rewrite roots_filter by exact Hnd. unfold names.
  rewrite filter_map_swap. f_equal. apply filter_ext_in. intros e He.
  rewrite (knownRefs_unique _ deps e Hnd He). apply knownCount_zero_isRoot.
Qed.

Lemma NoDup_map_inj {A B : Type} (f : A -> B) (l : list A) a b :
  NoDup (map f l) -> In a l -> In b l -> f a = f b -> a = b.
Proof.
  induction l as [|x l IH]; simpl; intros Hnd Ha Hb Hab; [destruct Ha|].
  inversion Hnd as [|? ? Hnotin Hnd']; subst.
  destruct Ha as [->|Ha], Hb as [->|Hb]; auto.
  - exfalso. apply Hnotin. rewrite Hab. now apply in_map.
  - exfalso. apply Hnotin. rewrite <- Hab. now apply in_map.
Qed.

Lemma others_notRoot deps :
  NoDup (names deps) ->
  filter (notIn (roots deps)) (names deps)
  = map tableName (filter (fun e => negb (isRoot deps e)) deps).
Proof.
  intros Hnd. unfold names. rewrite filter_map_swap. f_equal.
  apply filter_ext_in. intros e He. unfold notIn. f_equal.
  rewrite roots_isRoot by exact Hnd.
  destruct (isRoot deps e) eqn:Er.
  - apply arrayIncludes_In. apply in_map. apply filter_In. auto.
  - destruct (arrayIncludes _ (tableName e)) eqn:Ea; [|reflexivity].
    apply arrayIncludes_In, in_map_iff in Ea. destruct Ea as (e' & Hn & He').
    apply filter_In in He'. destruct He' as [He' Hr'].
    assert (e' = e) by (apply (NoDup_map_inj tableName deps); auto).
    subst e'. congruence.
Qed.

(** The result of the sort, for any input and enough fuel. *)
Lemma topologicalSort_result deps fuel :
  List.length deps < fuel ->
  topologicalSort fuel deps = Some (roots deps)
  \/ topologicalSort fuel deps = Some (appendRemaining deps (roots deps)).
Proof.
  intros Hfuel. unfold topologicalSort. rewrite kahn_result by exact Hfuel.
  destruct (_ =? _)%nat; auto.
Qed.

Lemma topologicalSort_distinct deps fuel :
  NoDup (names deps) -> List.length deps < fuel ->
  topologicalSort fuel deps
  = Some (roots deps ++ filter (notIn (roots deps)) (names deps))%list.
Proof.
  intros Hnd Hfuel. unfold topologicalSort. rewrite kahn_result by exact Hfuel.
  destruct (List.length (roots deps) =? List.length deps)%nat eqn:E.
  - apply Nat.eqb_eq in E.
    assert (Hall : incl (names deps) (roots deps)).
    { apply NoDup_length_incl; [apply roots_NoDup | | exact (roots_incl deps)].
      unfold names. rewrite length_map. lia. }
    rewrite filter_none; [now rewrite app_nil_r|].
    intros n Hn. unfold notIn. apply Hall in Hn.
    apply arrayIncludes_In in Hn. now rewrite Hn.
  - now rewrite appendRemaining_filter.
Qed.

End SortFacts.

(** X3: for every input, duplicate table names included, the sort
    returns (with fuel above the number of entries) a list without
    repetition that holds exactly the table names of the input. *)
Theorem topologicalSort_lists_each_name_once
  (deps : list TableDependency) (fuel : nat) :
  List.length deps < fuel ->
  exists result,
    DependencyResolver.topologicalSort fuel deps = Some result
    /\ NoDup result
    /\ forall n, In n result <-> In n (map tableName deps).
Proof.
  intros Hfuel. fold (ResolverSpec.names deps).
  pose proof (TopologicalSortFacts.roots_NoDup deps) as Hrn.
  pose proof (TopologicalSortFacts.roots_incl deps) as Hri.
  unfold DependencyResolver.topologicalSort.
  rewrite ResolverFacts.kahn_result by exact Hfuel.
  destruct (List.length (ResolverSpec.roots deps) =? List.length deps)%nat eqn:E.
  - exists (ResolverSpec.roots deps). split; [reflexivity|]. split; [exact Hrn|].
    apply Nat.eqb_eq in E. intros n. split; [apply Hri|].
    apply (NoDup_length_incl Hrn); [|exact Hri].
    unfold ResolverSpec.names. rewrite length_map. lia.
  - destruct (SortFacts.appendRemaining_general deps _ Hrn) as [H1 H2].
    eexists. split; [reflexivity|]. split; [exact H1|].
    intros n. rewrite H2. split; [intros [H|H]; auto | auto].
Qed.

Lemma topologicalSort_lists_each_name_once_witness :
  exists result,
    DependencyResolver.topologicalSort 4
      [mkTableDependency "users" "/proj/dbcube/1_users.table.cube" ["roles"];
       mkTableDependency "roles" "/proj/dbcube/roles.table.cube" [];
       mkTableDependency "users" "/proj/dbcube/2_users.table.cube" []]
    = Some result
    /\ NoDup result
    /\ forall n, In n result <->
         In n (map tableName
                 [mkTableDependency "users" "/proj/dbcube/1_users.table.cube" ["roles"];
                  mkTableDependency "roles" "/proj/dbcube/roles.table.cube" [];
                  mkTableDependency "users" "/proj/dbcube/2_users.table.cube" []]).
Proof.
  apply (topologicalSort_lists_each_name_once
           [mkTableDependency "users" "/proj/dbcube/1_users.table.cube" ["roles"];
            mkTableDependency "roles" "/proj/dbcube/roles.table.cube" [];
            mkTableDependency "users" "/proj/dbcube/2_users.table.cube" []] 4).
  simpl. lia.
Defined.

(** X4: with pairwise distinct table names the result is a stable
    partition of the input: first the tables that reference no table of
    the input, then all the others, each group in input order. *)
Theorem topologicalSort_roots_then_others
  (deps : list TableDependency) (fuel : nat) :
  NoDup (map tableName deps) ->
  List.length deps < fuel ->
  DependencyResolver.topologicalSort fuel deps
  = Some (map tableName (filter (SortSpec.isRoot deps) deps)
          ++ map tableName (filter (fun e => negb (SortSpec.isRoot deps e)) deps))%list.
Proof.
  intros Hnd Hfuel. rewrite SortFacts.topologicalSort_distinct by assumption.
  rewrite SortFacts.others_notRoot by exact Hnd.
  now rewrite SortFacts.roots_isRoot.
Qed.

Lemma topologicalSort_roots_then_others_witness :
  DependencyResolver.topologicalSort 3 TopologicalSortSpec.twoCycle
  = Some (map tableName
            (filter (SortSpec.isRoot TopologicalSortSpec.twoCycle)
               TopologicalSortSpec.twoCycle)
          ++ map tableName
               (filter (fun e => negb (SortSpec.isRoot TopologicalSortSpec.twoCycle e))
                  TopologicalSortSpec.twoCycle))%list.
Proof.
  apply (topologicalSort_roots_then_others TopologicalSortSpec.twoCycle 3).
  - simpl. repeat constructor; simpl; intuition discriminate.
  - simpl. lia.
Defined.

Module SortMoreFacts.
Import DependencyResolver ResolverSpec SortSpec SortFacts TopologicalSortFacts.

Lemma topologicalSort_partition deps fuel :
  NoDup (names deps) -> List.length deps < fuel ->
  topologicalSort fuel deps
  = Some (map tableName (filter (isRoot deps) deps)
          ++ map tableName (filter (fun e => negb (isRoot deps e)) deps))%list.
Proof.
  intros Hnd Hfuel. rewrite topologicalSort_distinct by assumption.
  rewrite others_notRoot by exact Hnd. now rewrite roots_isRoot.
Qed.

Lemma forallb_negb_filter {A : Type} (p : A -> bool) (l : list A) :
  forallb (fun x => negb (p x)) (filter p l) = forallb (fun x => negb (p x)) l.
Proof.
  induction l as [|a l IH]; simpl; [reflexivity|].
  destruct (p a) eqn:E; simpl; [now rewrite E | exact IH].
Qed.

Lemma names_dropUnknown deps deps0 :
  names (map (dropUnknown deps0) deps) = names deps.
Proof. unfold names. rewrite map_map. reflexivity. Qed.

Lemma isRoot_dropUnknown deps e :
  isRoot (map (dropUnknown deps) deps) (dropUnknown deps e) = isRoot deps e.
Proof.
  unfold isRoot. fold (names (map (dropUnknown deps) deps)). fold (names deps).
  rewrite names_dropUnknown. simpl. apply forallb_negb_filter.
Qed.

Lemma partition_dropUnknown deps (keep : bool) :
  map tableName
    (filter (fun e => Bool.eqb (isRoot (map (dropUnknown deps) deps) e) keep)
       (map (dropUnknown deps) deps))
  = map tableName (filter (fun e => Bool.eqb (isRoot deps e) keep) deps).
Proof.
  rewrite filter_map_swap, map_map. simpl.
  f_equal. apply filter_ext. intros e. now rewrite isRoot_dropUnknown.
Qed.

Lemma partition_as_eqb deps0 deps :
  (map tableName (filter (isRoot deps0) deps)
   ++ map tableName (filter (fun e => negb (isRoot deps0 e)) deps))%list
  = (map tableName (filter (fun e => Bool.eqb (isRoot deps0 e) true) deps)
     ++ map tableName (filter (fun e => Bool.eqb (isRoot deps0 e) false) deps))%list.
Proof.
  f_equal; (f_equal; apply filter_ext; intros e;
            destruct (isRoot deps0 e); reflexivity).
Qed.

Lemma map_split {A B : Type} (f : A -> B) (l : list A) l1 y l2 :
  map f l = (l1 ++ y :: l2)%list ->
  exists D1 e D2,
    l = (D1 ++ e :: D2)%list /\ map f D1 = l1 /\ f e = y /\ map f D2 = l2.
Proof.
  revert l. induction l1 as [|x l1 IH]; intros l H.
  - destruct l as [|e D2]; [discriminate|]. simpl in H. injection H as H1 H2.
    exists [], e, D2. auto.
  - destruct l as [|a l]; [discriminate|]. simpl in H. injection H as H1 H2.
    destruct (IH _ H2) as (D1 & e & D2 & -> & <- & He & HD2).
    exists (a :: D1), e, D2. simpl. subst. auto.
Qed.

End SortMoreFacts.

(** X5: references to names that are not tables of the input do not
    affect the order: dropping them from every entry gives the same
    result. *)
Theorem topologicalSort_ignores_unknown_references
  (deps : list TableDependency) (fuel : nat) :
  NoDup (map tableName deps) ->
  List.length deps < fuel ->
  DependencyResolver.topologicalSort fuel (map (SortSpec.dropUnknown deps) deps)
  = DependencyResolver.topologicalSort fuel deps.
Proof.
  intros Hnd Hfuel.
  rewrite (SortMoreFacts.topologicalSort_partition deps fuel Hnd Hfuel).
  rewrite SortMoreFacts.topologicalSort_partition.
  - rewrite !SortMoreFacts.partition_as_eqb.
    now rewrite !SortMoreFacts.partition_dropUnknown.
  - now rewrite SortMoreFacts.names_dropUnknown.
  - now rewrite length_map.
Qed.

Lemma topologicalSort_ignores_unknown_references_witness :
  DependencyResolver.topologicalSort 3
    (map (SortSpec.dropUnknown
            [mkTableDependency "posts" "/proj/dbcube/posts.table.cube" ["users"; "tags"];
             mkTableDependency "tags" "/proj/dbcube/tags.table.cube" []])
       [mkTableDependency "posts" "/proj/dbcube/posts.table.cube" ["users"; "tags"];
        mkTableDependency "tags" "/proj/dbcube/tags.table.cube" []])
  = DependencyResolver.topologicalSort 3
      [mkTableDependency "posts" "/proj/dbcube/posts.table.cube" ["users"; "tags"];
       mkTableDependency "tags" "/proj/dbcube/tags.table.cube" []].
Proof.
  apply (topologicalSort_ignores_unknown_references
           [mkTableDependency "posts" "/proj/dbcube/posts.table.cube" ["users"; "tags"];
            mkTableDependency "tags" "/proj/dbcube/tags.table.cube" []] 3).
  - simpl. repeat constructor; simpl; intuition discriminate.
  - simpl. lia.
Defined.

(** X6: an input that is already in dependency order stays in dependency
    order: if every table comes after the input tables it references,
    the same holds in the result. *)
Theorem topologicalSort_keeps_a_valid_order
  (deps : list TableDependency) (fuel : nat) :
  NoDup (map tableName deps) ->
  List.length deps < fuel ->
  SortSpec.respects deps (map tableName deps) ->
  exists result,
    DependencyResolver.topologicalSort fuel deps = Some result
    /\ SortSpec.respects deps result.
Proof.
  intros Hnd Hfuel Hin.
  rewrite (SortMoreFacts.topologicalSort_partition deps fuel Hnd Hfuel).
  eexists. split; [reflexivity|].
  intros e d He Hd Hknown.
  destruct (Hin e d He Hd Hknown) as (l1 & l2 & Hsplit & Hd1).
  destruct (SortMoreFacts.map_split tableName deps l1 (tableName e) l2 Hsplit)
    as (D1 & e' & D2 & HD & Hl1 & He' & Hl2).
  assert (Heq : e' = e).
  { apply (SortFacts.NoDup_map_inj tableName deps); auto.
    rewrite HD. apply in_or_app. right. now left. }
  subst e'.
  assert (Hnr : SortSpec.isRoot deps e = false).
  { unfold SortSpec.isRoot. apply not_true_is_false. intros Hall.
    rewrite forallb_forall in Hall. specialize (Hall d Hd).
    apply TopologicalSortFacts.arrayIncludes_In in Hknown. rewrite Hknown in Hall.
    discriminate. }
  subst l1. apply in_map_iff in Hd1. destruct Hd1 as (ed & Hed & HedIn).
  set (others := fun x => negb (SortSpec.isRoot deps x)).
  set (R := map tableName (filter (SortSpec.isRoot deps) deps)).
  assert (Hfe : others e = true) by (unfold others; now rewrite Hnr).
  assert (HR : SortSpec.isRoot deps ed = true -> In d R).
  { intros Er. unfold R. rewrite <- Hed. apply in_map. apply filter_In.
    split; [|exact Er]. rewrite HD. apply in_or_app. now left. }
  assert (Hfed : SortSpec.isRoot deps ed = false -> others ed = true)
    by (intros Er; unfold others; now rewrite Er).
  clearbody others R. rewrite HD.
  exists (R ++ map tableName (filter others D1))%list,
         (map tableName (filter others D2)).
  split.
  - rewrite filter_app. simpl. rewrite Hfe. rewrite map_app. simpl.
    now rewrite <- app_assoc.
  - apply in_or_app. destruct (SortSpec.isRoot deps ed) eqn:Er.
    + left. now apply HR.
    + right. rewrite <- Hed. apply in_map. apply filter_In. auto.
Qed.

Lemma topologicalSort_keeps_a_valid_order_witness :
  exists result,
    DependencyResolver.topologicalSort 4
      [mkTableDependency "A" "/proj/dbcube/a.table.cube" [];
       mkTableDependency "B" "/proj/dbcube/b.table.cube" ["A"];
       mkTableDependency "C" "/proj/dbcube/c.table.cube" ["B"]]
    = Some result
    /\ SortSpec.respects
         [mkTableDependency "A" "/proj/dbcube/a.table.cube" [];
          mkTableDependency "B" "/proj/dbcube/b.table.cube" ["A"];
          mkTableDependency "C" "/proj/dbcube/c.table.cube" ["B"]] result.
Proof.
  apply (topologicalSort_keeps_a_valid_order
           [mkTableDependency "A" "/proj/dbcube/a.table.cube" [];
            mkTableDependency "B" "/proj/dbcube/b.table.cube" ["A"];
            mkTableDependency "C" "/proj/dbcube/c.table.cube" ["B"]] 4).
  - simpl. repeat constructor; simpl; intuition discriminate.
  - simpl. lia.
  - intros e d He Hd _. simpl in He.
    destruct He as [<-|[<-|[<-|[]]]]; simpl in Hd.
    + destruct Hd.
    + destruct Hd as [<-|[]]. exists ["A"], ["C"]. simpl. auto.
    + destruct Hd as [<-|[]]. exists ["A"; "B"], []. simpl. auto.
Defined.

(** ** The shape of the re-ordered list *)

Module OrderShapeFacts.
Import JsMap JsMapFacts DependencyResolver OrderSpec OrderFacts OrderShapeSpec.

Section WithNames.
Variable nm : string -> string.

Lemma get_delete_other (mp : JsMap.t string) t k :
  k <> t -> get (delete mp t) k = get mp k.
Proof.
  intros Hne. induction mp as [|[k' v'] mp IH]; simpl; [reflexivity|].
  destruct (String.eqb k' t) eqn:E.
  - apply String.eqb_eq in E. subst k'.
    destruct (String.eqb t k) eqn:E'; [|reflexivity].
    apply String.eqb_eq in E'. congruence.
  - simpl. now rewrite IH.
Qed.

Lemma flat_map_ext_in (A B : Type) (f g : A -> list B) (l : list A) :
  (forall a, In a l -> f a = g a) -> flat_map f l = flat_map g l.
Proof.
  induction l as [|a l IH]; intros H; simpl; [reflexivity|].
  rewrite (H a) by now left. f_equal. apply IH. intros b Hb. apply H. now right.
Qed.

Lemma picked_lookup orderList : forall mp,
  NoDup orderList ->
  values (picked orderList mp) = flat_map (lookupFiles mp) orderList.
Proof.
  induction orderList as [|t ts IH]; intros mp Hnd; simpl; [reflexivity|].
  inversion Hnd as [|? ? Hnotin Hnd']; subst.
  unfold lookupFiles at 1. destruct (get mp t) as [f|] eqn:E; simpl.
  - f_equal. rewrite IH by exact Hnd'. apply flat_map_ext_in.
    intros k Hk. unfold lookupFiles. rewrite get_delete_other; [reflexivity|].
    intros ->. contradiction.
  - now apply IH.
Qed.

Lemma lookup_named files t :
  NoDup (map nm files) ->
  lookupFiles (map (fun f => (nm f, f)) files) t = filesNamed nm files t.
Proof.
  unfold lookupFiles, filesNamed.
  induction files as [|f files IH]; simpl; intros Hnd; [reflexivity|].
  inversion Hnd as [|? ? Hnotin Hnd']; subst.
  destruct (String.eqb (nm f) t) eqn:E.
  - apply String.eqb_eq in E. f_equal. symmetry.
    apply TopologicalSortFacts.filter_none. intros g Hg.
    destruct (String.eqb (nm g) t) eqn:E'; [|reflexivity].
    apply String.eqb_eq in E'. exfalso. apply Hnotin. rewrite E, <- E'.
    now apply in_map.
  - now apply IH.
Qed.

Lemma remaining_unlisted orderList files :
  NoDup (map nm files) ->
  values (remaining orderList (build nm files)) = unlisted nm orderList files.
Proof.
  intros Hnd. destruct (build_invariant nm files) as [_ Hd].
  rewrite (remaining_filter orderList _ Hd).
  rewrite (build_distinct nm files Hnd). unfold values, unlisted, notListed.
  clear Hnd Hd.
  induction files as [|f files IH]; simpl; [reflexivity|].
  destruct (arrayIncludes orderList (nm f)); simpl; rewrite IH; reflexivity.
Qed.

Lemma reorder_shape orderList files :
  NoDup (map nm files) -> NoDup orderList ->
  reorder nm orderList files
  = (flat_map (filesNamed nm files) orderList ++ unlisted nm orderList files)%list.
Proof.
  intros Hnd Ho. unfold reorder.
  rewrite picked_lookup by exact Ho. rewrite remaining_unlisted by exact Hnd.
  f_equal. rewrite (build_distinct nm files Hnd).
  apply flat_map_ext. intros t. now apply lookup_named.
Qed.


End WithNames.


End OrderShapeFacts.

(** X7: with a stored order without repetition and files of pairwise
    distinct table names, the output is the files named by the stored
    table sequence, in that sequence, followed by the files whose table
    name is not stored, in their input order. *)
Theorem orderCubeFiles_listed_then_unlisted
  (host : Host) (eo : ExecutionOrder) (files : list string) (cubeType : CubeType) :
  NoDup (map (OrderSpec.nameOf host cubeType) files) ->
  NoDup (tables eo) ->
  DependencyResolver.orderCubeFiles host (Some eo) files cubeType
  = (flat_map (OrderShapeSpec.filesNamed (OrderSpec.nameOf host cubeType) files)
       (tables eo)
     ++ OrderShapeSpec.unlisted (OrderSpec.nameOf host cubeType) (tables eo) files)%list.
Proof.
  intros Hnd Ho. rewrite OrderFacts.orderCubeFiles_reorder.
  now apply OrderShapeFacts.reorder_shape.
Qed.

Lemma orderCubeFiles_listed_then_unlisted_witness :
  DependencyResolver.orderCubeFiles ChainExample.host
    (Some (mkExecutionOrder ["B"; "Z"; "A"] [] "2025-01-01T00:00:00.000Z"))
    [ChainExample.fileC; ChainExample.fileB; ChainExample.fileA] table
  = (flat_map
       (OrderShapeSpec.filesNamed (OrderSpec.nameOf ChainExample.host table)
          [ChainExample.fileC; ChainExample.fileB; ChainExample.fileA])
       ["B"; "Z"; "A"]
     ++ OrderShapeSpec.unlisted (OrderSpec.nameOf ChainExample.host table)
          ["B"; "Z"; "A"]
          [ChainExample.fileC; ChainExample.fileB; ChainExample.fileA])%list.
Proof.
  apply (orderCubeFiles_listed_then_unlisted ChainExample.host
           (mkExecutionOrder ["B"; "Z"; "A"] [] "2025-01-01T00:00:00.000Z")
           [ChainExample.fileC; ChainExample.fileB; ChainExample.fileA] table).
  - vm_compute. repeat constructor; simpl; intuition discriminate.
  - simpl. repeat constructor; simpl; intuition discriminate.
Defined.



(** ** Names read by [FileUtils] *)

(** X9: [extracTableNameFromCube] answers with status 200 only when the
    file was read and holds [@meta]; its message is then a non-empty name
    free of quote characters. In every other case the status is 500, and
    after a failed read the message is the thrown one. *)
Theorem extracTableNameFromCube_answers (host : Host) (filePath : string) :
  (FileUtils.status (FileUtils.extracTableNameFromCube host filePath) = 200%Z
   /\ CaptureSpec.nameOfClass CaptureSpec.notQuote
        (FileUtils.message (FileUtils.extracTableNameFromCube host filePath))
   /\ exists content, readFileSync host filePath = Returned content
        /\ includes content "@meta" = true)
  \/ (FileUtils.status (FileUtils.extracTableNameFromCube host filePath) = 500%Z
      /\ forall thrown, readFileSync host filePath = Threw thrown ->
           FileUtils.message (FileUtils.extracTableNameFromCube host filePath) = thrown).
Proof.
  unfold FileUtils.extracTableNameFromCube.
  destruct (readFileSync host filePath) as [content|thrown] eqn:Hread.
  - destruct (exec FileUtils.metaNameRegex content) as [mt|] eqn:E.
    + left. split; [reflexivity|]. split.
      * now apply (NameFacts.metaName_capture content).
      * exists content. split; [reflexivity|].
        now apply (NameFacts.metaName_includes content mt).
    + right. split; [reflexivity | discriminate].
  - right. split; [reflexivity|]. intros thrown' H. now injection H.
Qed.

Lemma extracTableNameFromCube_answers_witness :
  (FileUtils.status (FileUtils.extracTableNameFromCube ChainExample.host ChainExample.fileA)
   = 200%Z
   /\ CaptureSpec.nameOfClass CaptureSpec.notQuote
        (FileUtils.message
           (FileUtils.extracTableNameFromCube ChainExample.host ChainExample.fileA))
   /\ exists content,
        readFileSync ChainExample.host ChainExample.fileA = Returned content
        /\ includes content "@meta" = true)
  \/ (FileUtils.status
        (FileUtils.extracTableNameFromCube ChainExample.host ChainExample.fileA) = 500%Z
      /\ forall thrown,
           readFileSync ChainExample.host ChainExample.fileA = Threw thrown ->
           FileUtils.message
             (FileUtils.extracTableNameFromCube ChainExample.host ChainExample.fileA)
           = thrown).
Proof.
  apply (extracTableNameFromCube_answers ChainExample.host ChainExample.fileA).
Defined.

(** X10: [extractDatabaseNameFromCube] answers with status 200 only when
    the file was read and holds [@database]; its message is then a
    non-empty name free of quote characters. In every other case the
    status is 500, and after a failed read the message is the thrown
    one. *)
Theorem extractDatabaseNameFromCube_answers (host : Host) (filePath : string) :
  (FileUtils.status (FileUtils.extractDatabaseNameFromCube host filePath) = 200%Z
   /\ CaptureSpec.nameOfClass CaptureSpec.notQuote
        (FileUtils.message (FileUtils.extractDatabaseNameFromCube host filePath))
   /\ exists content, readFileSync host filePath = Returned content
        /\ includes content "@database" = true)
  \/ (FileUtils.status (FileUtils.extractDatabaseNameFromCube host filePath) = 500%Z
      /\ forall thrown, readFileSync host filePath = Threw thrown ->
           FileUtils.message (FileUtils.extractDatabaseNameFromCube host filePath) = thrown).
Proof.
  unfold FileUtils.extractDatabaseNameFromCube.
  destruct (readFileSync host filePath) as [content|thrown] eqn:Hread.
  - destruct (exec FileUtils.databaseRegex content) as [mt|] eqn:E.
    + left. split; [reflexivity|]. split.
      * now apply (NameFacts.database_capture content).
      * exists content. split; [reflexivity|].
        now apply (NameFacts.database_includes content mt).
    + right. split; [reflexivity | discriminate].
  - right. split; [reflexivity|]. intros thrown' H. now injection H.
Qed.

Lemma extractDatabaseNameFromCube_answers_witness :
  (FileUtils.status
     (FileUtils.extractDatabaseNameFromCube ChainExample.host "/proj/dbcube/none.cube")
   = 200%Z
   /\ CaptureSpec.nameOfClass CaptureSpec.notQuote
        (FileUtils.message
           (FileUtils.extractDatabaseNameFromCube ChainExample.host
              "/proj/dbcube/none.cube"))
   /\ exists content,
        readFileSync ChainExample.host "/proj/dbcube/none.cube" = Returned content
        /\ includes content "@database" = true)
  \/ (FileUtils.status
        (FileUtils.extractDatabaseNameFromCube ChainExample.host "/proj/dbcube/none.cube")
      = 500%Z
      /\ forall thrown,
           readFileSync ChainExample.host "/proj/dbcube/none.cube" = Threw thrown ->
           FileUtils.message
             (FileUtils.extractDatabaseNameFromCube ChainExample.host
                "/proj/dbcube/none.cube")
           = thrown).
Proof.
  apply (extractDatabaseNameFromCube_answers ChainExample.host "/proj/dbcube/none.cube").
Defined.

(** X11: a name returned by [extractDatabaseName] is never empty, is made
    of word characters and dashes only, and the input holds the text
    [@database(]. *)
Theorem extractDatabaseName_returns_a_plain_name (input name : string) :
  FileUtils.extractDatabaseName input = Some name ->
  CaptureSpec.nameOfClass FileUtils.isWordOrDash name
  /\ includes input "@database(" = true.
Proof.
  unfold FileUtils.extractDatabaseName.
  destruct (exec FileUtils.databaseNameRegex input) as [mt|] eqn:E; [|discriminate].
  intros H. injection H as <-. split.
  - now apply (NameFacts.databaseName_capture input).
  - revert E. unfold exec, FileUtils.databaseNameRegex. cbn [seqs].
    apply LiteralFacts.search_includes. apply NameFacts.starts_with_literal.
Qed.

Lemma extractDatabaseName_returns_a_plain_name_witness :
  CaptureSpec.nameOfClass FileUtils.isWordOrDash "main-db"
  /\ includes ("x @database('main-db') y") "@database(" = true.
Proof.
  apply (extractDatabaseName_returns_a_plain_name "x @database('main-db') y" "main-db").
  vm_compute. reflexivity.
Defined.

(** ** Where the validator's errors point, and what a valid file holds *)

Module ErrorFacts.
Import CubeValidator ErrorSpec.

Section Checks.
Variables (path fileName : string).

Local Abbreviation located := (locatedIn fileName path).

Lemma located_weaken lo hi lo' hi' e :
  lo' <= lo -> hi <= hi' -> located lo hi e -> located lo' hi' e.
Proof.
  intros Hlo Hhi (Hi & Hp & n & Hn & H1 & H2).
  split; [exact Hi|]. split; [exact Hp|]. exists n. split; [exact Hn | lia].
Qed.

Lemma report_located n msg : located n n (report path fileName n msg).
Proof.
  split; [reflexivity|]. split; [reflexivity|]. exists n. split; [reflexivity | lia].
Qed.

Lemma Forall_weaken lo hi lo' hi' l :
  lo' <= lo -> hi <= hi' -> Forall (located lo hi) l -> Forall (located lo' hi') l.
Proof.
  intros Hlo Hhi H. eapply Forall_impl; [|exact H].
  intros e. now apply located_weaken.
Qed.

Ltac singletons :=
  repeat first
    [ apply Forall_nil
    | apply Forall_cons; [apply report_located|]
    | apply Forall_app; split
    | match goal with |- Forall _ (if ?b then _ else _) => destruct b end
    | match goal with |- Forall _ (match ?x with _ => _ end) => destruct x end ].

Lemma validateAnnotations_located line n :
  Forall (located n n) (validateAnnotations path fileName line n).
Proof.
  unfold validateAnnotations. apply VarcharFacts.Forall_flat_map.
  intros mt. cbv zeta. singletons.
Qed.

Lemma validateDataTypes_located line n content :
  Forall (located n n) (validateDataTypes path fileName line n content).
Proof.
  unfold validateDataTypes. apply Forall_app. split.
  - apply VarcharFacts.Forall_flat_map. intros mt. cbv zeta. singletons.
  - cbv zeta. singletons.
Qed.

Lemma checkOption_located columnType n mt :
  Forall (located n n) (checkOption path fileName columnType n mt).
Proof. unfold checkOption. cbv zeta. singletons. Qed.

Lemma validateColumnOptions_located line n lines :
  Forall (located n n) (validateColumnOptions path fileName line n lines).
Proof.
  unfold validateColumnOptions.
  destruct (exec optionsRegex line) as [om|]; [|constructor]. cbv zeta.
  destruct (exec invalidSyntaxRegex _) as [im|].
  - singletons.
  - destruct (matchAll quotedOptionRegex _) as [|o os]; [constructor|].
    apply VarcharFacts.Forall_flat_map. intros mt. apply checkOption_located.
Qed.

Lemma validateColumnProperties_located line n content :
  Forall (located n n) (validateColumnProperties path fileName line n content).
Proof.
  unfold validateColumnProperties.
  destruct (exec propertyKeyRegex line) as [pm|]; [|constructor]. cbv zeta.
  singletons.
Qed.

Lemma validateGeneralSyntax_located line n :
  Forall (located n n) (validateGeneralSyntax path fileName line n).
Proof. unfold validateGeneralSyntax. singletons. Qed.

Lemma findColumnStart_lt lines lineNumber n : forall i name,
  findColumnStart lines lineNumber n = Some (i, name) -> i < n.
Proof.
  induction n as [|k IH]; intros i name H; simpl in H; [discriminate|].
  destruct (exec columnDefRegex (nth k lines EmptyString)) as [mt|].
  - destruct (Nat.eqb _ _).
    + injection H as <- _. lia.
    + apply IH in H. lia.
  - apply IH in H. lia.
Qed.

Lemma validateRequiredColumnProperties_located lines n :
  Forall (located 1 n) (validateRequiredColumnProperties path fileName lines n).
Proof.
  unfold validateRequiredColumnProperties. cbv zeta.
  destruct (negb (test closingBraceRegex _)); [constructor|].
  destruct (findColumnStart lines n (n - 1)) as [[i name]|] eqn:E; [|constructor].
  apply findColumnStart_lt in E.
  destruct (String.eqb name EmptyString); [constructor|].
  destruct (_ && _); [|constructor].
  constructor; [|constructor].
  apply (located_weaken (i + 1) (i + 1)); [lia | lia | apply report_located].
Qed.

Lemma validateLine_located content lines i line :
  Forall (located 1 (i + 1)) (validateLine path fileName content lines i line).
Proof.
  unfold validateLine. destruct (skippedLine line); [constructor|].
  apply Forall_app; split; [|apply Forall_app; split; [|apply Forall_app; split;
    [|apply Forall_app; split; [|apply Forall_app; split]]]].
  - apply (Forall_weaken (i + 1) (i + 1)); [lia | lia |].
    apply validateAnnotations_located.
  - apply (Forall_weaken (i + 1) (i + 1)); [lia | lia |].
    apply validateDataTypes_located.
  - apply (Forall_weaken (i + 1) (i + 1)); [lia | lia |].
    apply validateColumnOptions_located.
  - apply (Forall_weaken (i + 1) (i + 1)); [lia | lia |].
    apply validateColumnProperties_located.
  - apply validateRequiredColumnProperties_located.
  - apply (Forall_weaken (i + 1) (i + 1)); [lia | lia |].
    apply validateGeneralSyntax_located.
Qed.

Lemma validateLinesFrom_located content lines rest : forall i,
  Forall (located 1 (i + List.length rest))
    (validateLinesFrom path fileName content lines i rest).
Proof.
  induction rest as [|line rest IH]; intros i; simpl; [constructor|].
  apply Forall_app. split.
  - apply (Forall_weaken 1 (i + 1)); [lia | lia | apply validateLine_located].
  - replace (i + S (List.length rest)) with (S i + List.length rest) by lia.
    apply IH.
Qed.

Lemma validateOverallStructure_located content :
  Forall (located 1 1) (validateOverallStructure path fileName content).
Proof. unfold validateOverallStructure. cbv zeta. singletons. Qed.

(** *** What an empty error list says about one line *)

Lemma flat_map_nil (A B : Type) (f : A -> list B) (l : list A) :
  flat_map f l = [] -> forall a, In a l -> f a = [].
Proof.
  induction l as [|x l IH]; simpl; intros H a Ha; [destruct Ha|].
  apply app_eq_nil in H. destruct H as [Hx Hl].
  destruct Ha as [<-|Ha]; [exact Hx | now apply IH].
Qed.

Lemma validateLine_clean content lines i line :
  skippedLine line = false ->
  validateLine path fileName content lines i line = [] ->
  lineIsClean line.
Proof.
  intros Hskip H. unfold validateLine in H. rewrite Hskip in H.
  apply app_eq_nil in H. destruct H as [Hann H].
  apply app_eq_nil in H. destruct H as [Htypes H].
  apply app_eq_nil in H. destruct H as [_ H].
  apply app_eq_nil in H. destruct H as [_ H].
  apply app_eq_nil in H. destruct H as [_ Hsyntax].
  split; [|split].
  - unfold validateGeneralSyntax in Hsyntax.
    destruct (Nat.even (countChars is_quote line)); [reflexivity|].
    simpl in Hsyntax. discriminate.
  - intros mt Hmt. unfold validateAnnotations in Hann.
    pose proof (flat_map_nil _ _ _ _ Hann mt Hmt) as Hone. cbv beta zeta in Hone.
    destruct (arrayIncludes knownAnnotations (group1 mt)) eqn:E; [|discriminate].
    now apply TopologicalSortFacts.arrayIncludes_In.
  - intros mt Hmt. unfold validateDataTypes in Htypes.
    apply app_eq_nil in Htypes. destruct Htypes as [Htypes _].
    pose proof (flat_map_nil _ _ _ _ Htypes mt Hmt) as Hone. cbv beta zeta in Hone.
    destruct (arrayIncludes validTypes (group1 mt)) eqn:E; [|discriminate].
    now apply TopologicalSortFacts.arrayIncludes_In.
Qed.

Lemma validateLinesFrom_clean content lines rest : forall i,
  validateLinesFrom path fileName content lines i rest = [] ->
  forall line, In line rest -> skippedLine line = false -> lineIsClean line.
Proof.
  induction rest as [|l rest IH]; intros i H line Hin Hskip; [destruct Hin|].
  simpl in H. apply app_eq_nil in H. destruct H as [Hl Hrest].
  destruct Hin as [<-|Hin].
  - now apply (validateLine_clean content lines i).
  - now apply (IH (S i)).
Qed.

End Checks.

Lemma split_lf_length s : 1 <= List.length (split_lf s).
Proof.
  induction s as [|c s IH]; simpl; [lia|].
  destruct (Ascii.eqb c lf); simpl; [lia|].
  destruct (split_lf s); simpl; lia.
Qed.

(** The lines an error of [filePath] may point at. *)
Lemma validateCubeFile_located host path :
  Forall (locatedIn (basename host path (extname host path)) path 1
            (match readFileSync host path with
             | Returned content => List.length (split_lf content)
             | Threw _ => 1
             end))
    (errors (validateCubeFile host path)).
Proof.
  unfold validateCubeFile. cbv zeta. cbn [errors].
  destruct (readFileSync host path) as [content|msg].
  - apply Forall_app. split.
    + apply (validateLinesFrom_located path _ content (split_lf content)
               (split_lf content) 0).
    + apply (Forall_weaken path _ 1 1);
        [lia | apply split_lf_length | apply validateOverallStructure_located].
  - constructor; [|constructor].
    split; [reflexivity|]. split; [reflexivity|]. exists 1. split; [reflexivity | lia].
Qed.

Lemma findIndexFrom_bound (A : Type) (p : A -> bool) (xs : list A) : forall i j,
  findIndexFrom p xs i = Some j -> i <= j /\ j < i + List.length xs.
Proof.
  induction xs as [|x xs IH]; intros i j H; simpl in H; [discriminate|].
  destruct (p x).
  - injection H as <-. simpl. lia.
  - apply IH in H. simpl. lia.
Qed.

Lemma findDatabaseLineNumber_located host path :
  1 <= Schema.findDatabaseLineNumber host path
  /\ Schema.findDatabaseLineNumber host path
     <= match readFileSync host path with
        | Returned content => List.length (split_lf content)
        | Threw _ => 1
        end.
Proof.
  unfold Schema.findDatabaseLineNumber.
  destruct (readFileSync host path) as [content|msg]; [|lia].
  destruct (findIndexFrom _ (split_lf content) 0) as [i|] eqn:E.
  - apply findIndexFrom_bound in E. lia.
  - pose proof (split_lf_length content). lia.
Qed.

Lemma findForeignKeyLineNumber_located host path tableName :
  1 <= Schema.findForeignKeyLineNumber host path tableName
  /\ Schema.findForeignKeyLineNumber host path tableName
     <= match readFileSync host path with
        | Returned content => List.length (split_lf content)
        | Threw _ => 1
        end.
Proof.
  unfold Schema.findForeignKeyLineNumber.
  destruct (readFileSync host path) as [content|msg]; [|lia].
  destruct (findIndexFrom _ (split_lf content) 0) as [i|] eqn:E.
  - apply findIndexFrom_bound in E. lia.
  - pose proof (split_lf_length content). lia.
Qed.

(** The error attached by the database check. *)
Lemma vError_located host path e :
  Schema.vError (Schema.validateDatabaseConfiguration host path) = Some e ->
  locatedIn (basename host path (extname host path)) path 1
    (match readFileSync host path with
     | Returned content => List.length (split_lf content)
     | Threw _ => 1
     end) e.
Proof.
  pose proof (validateCubeFile_located host path) as Hloc.
  pose proof (findDatabaseLineNumber_located host path) as [Hlo Hhi].
  assert (Hfail : forall msg,
            locatedIn (basename host path (extname host path)) path 1
              (match readFileSync host path with
               | Returned content => List.length (split_lf content)
               | Threw _ => 1
               end)
              (mkProcessError (basename host path (extname host path)) msg path
                 (Some (Schema.findDatabaseLineNumber host path)))).
  { intros msg. split; [reflexivity|]. split; [reflexivity|].
    exists (Schema.findDatabaseLineNumber host path). split; [reflexivity | lia]. }
  unfold Schema.validateDatabaseConfiguration. cbv zeta.
  destruct (errors (validateCubeFile host path)) as [|e0 rest].
  - destruct (negb _); [intros H; injection H as <-; apply Hfail|].
    destruct (loadConfig host) as [getDatabase|msg];
      [|intros H; injection H as <-; apply Hfail].
    destruct (getDatabase _) as [[|]|msg]; simpl; intros H;
      [discriminate | injection H as <-; apply Hfail | injection H as <-; apply Hfail].
  - simpl. intros H. injection H as <-. now apply Forall_inv in Hloc.
Qed.

Lemma located_wellLocated host fileName path e :
  locatedIn fileName path 1
    (match readFileSync host path with
     | Returned content => List.length (split_lf content)
     | Threw _ => 1
     end) e ->
  wellLocated host e.
Proof.
  intros (_ & Hp & n & Hn & H1 & H2) n' Hn'. rewrite Hn in Hn'. injection Hn' as <-.
  split; [exact H1|]. intros content Hc. rewrite Hp in Hc. rewrite Hc in H2. exact H2.
Qed.

End ErrorFacts.

(** X12: every error of [validateCubeFile] names the validated file and
    carries a line number that exists: at least 1, and at most the number
    of lines of the text that was read. *)
Theorem validateCubeFile_errors_point_into_the_file
  (host : Host) (path : string) (e : ProcessError) :
  In e (errors (CubeValidator.validateCubeFile host path)) ->
  itemName e = basename host path (extname host path)
  /\ filePath e = path
  /\ exists n, lineNumber e = Some n /\ 1 <= n
       /\ forall content, readFileSync host path = Returned content ->
            n <= List.length (split_lf content).
Proof.
  intros Hin.
  pose proof (ErrorFacts.validateCubeFile_located host path) as H.
  rewrite Forall_forall in H. destruct (H e Hin) as (Hi & Hp & n & Hn & H1 & H2).
  split; [exact Hi|]. split; [exact Hp|]. exists n. split; [exact Hn|].
  split; [exact H1|]. intros content Hc. rewrite Hc in H2. exact H2.
Qed.

Lemma validateCubeFile_errors_point_into_the_file_witness :
  itemName (mkProcessError "1_parent.table" "VARCHAR type requires a length specification"
              PassExample.parentFile (Some 7))
  = basename PassExample.host PassExample.parentFile
      (extname PassExample.host PassExample.parentFile)
  /\ filePath (mkProcessError "1_parent.table"
                 "VARCHAR type requires a length specification"
                 PassExample.parentFile (Some 7))
     = PassExample.parentFile
  /\ exists n,
       lineNumber (mkProcessError "1_parent.table"
                     "VARCHAR type requires a length specification"
                     PassExample.parentFile (Some 7)) = Some n
       /\ 1 <= n
       /\ forall content,
            readFileSync PassExample.host PassExample.parentFile = Returned content ->
            n <= List.length (split_lf content).
Proof.
  apply (validateCubeFile_errors_point_into_the_file PassExample.host
           PassExample.parentFile).
  vm_compute. left. reflexivity.
Defined.

(** X13: a file that [validateCubeFile] accepts was read, holds a line
    with [@database] and, when its path contains [.table.cube], a line
    with [@columns]; each of its lines that is neither blank nor a comment
    has an even number of quote characters, only known annotations and
    only valid quoted types. *)
Theorem valid_cube_file_has_the_required_parts (host : Host) (path : string) :
  isValid (CubeValidator.validateCubeFile host path) = true ->
  exists content,
    readFileSync host path = Returned content
    /\ existsb (fun line => includes line "@database") (split_lf content) = true
    /\ (includes path ".table.cube" = true ->
        existsb (fun line => includes line "@columns") (split_lf content) = true)
    /\ forall line, In line (split_lf content) ->
         CubeValidator.skippedLine line = false -> ErrorSpec.lineIsClean line.
Proof.
  unfold CubeValidator.validateCubeFile. cbv zeta. cbn [isValid].
  destruct (readFileSync host path) as [content|msg] eqn:Hread; [|discriminate].
  intros Hvalid. exists content. split; [reflexivity|].
  destruct (_ ++ _)%list eqn:E in Hvalid; [|discriminate].
  apply app_eq_nil in E. destruct E as [Hlines Hstruct].
  unfold CubeValidator.validateOverallStructure in Hstruct. cbv zeta in Hstruct.
  apply app_eq_nil in Hstruct. destruct Hstruct as [Hdb Hcols].
  split; [|split].
  - destruct (existsb (fun line => includes line "@database") (split_lf content));
      [reflexivity | discriminate].
  - intros Htable. rewrite Htable in Hcols.
    destruct (existsb (fun line => includes line "@columns") (split_lf content));
      [reflexivity | discriminate].
  - intros line Hin Hskip.
    now apply (ErrorFacts.validateLinesFrom_clean path _ content (split_lf content)
                 (split_lf content) 0 Hlines).
Qed.

Lemma valid_cube_file_has_the_required_parts_witness :
  exists content,
    readFileSync PassExample.host PassExample.childFile = Returned content
    /\ existsb (fun line => includes line "@database") (split_lf content) = true
    /\ (includes PassExample.childFile ".table.cube" = true ->
        existsb (fun line => includes line "@columns") (split_lf content) = true)
    /\ forall line, In line (split_lf content) ->
         CubeValidator.skippedLine line = false -> ErrorSpec.lineIsClean line.
Proof.
  apply (valid_cube_file_has_the_required_parts PassExample.host PassExample.childFile).
  vm_compute. reflexivity.
Defined.

(** ** Options against column types *)

Module CompatibilityFacts.
Import CubeValidator CompatibilitySpec.

Lemma lookupRule_incl rules key types :
  lookupRule rules key = Some types -> incl types (flat_map snd rules).
Proof.
  induction rules as [|[name ts] rules IH]; simpl; [discriminate|].
  destruct (String.eqb name key).
  - intros H. injection H as ->. intros x Hx. apply in_or_app. now left.
  - intros H x Hx. apply in_or_app. right. now apply IH.
Qed.

(** Every valid option has a compatibility rule. *)
Lemma valid_option_has_rule key :
  In key validOptions -> lookupRule compatibilityRules key <> None.
Proof.
  intros H. repeat (destruct H as [<-|H]; [discriminate|]). destruct H.
Qed.

Lemma unlisted_type_incompatible key columnType :
  In key validOptions -> ~ In columnType ruleTypes ->
  isOptionCompatibleWithType key columnType = false.
Proof.
  intros Hkey Htype. unfold isOptionCompatibleWithType.
  destruct (lookupRule compatibilityRules key) as [types|] eqn:E.
  - destruct (arrayIncludes types columnType) eqn:Ei; [|reflexivity].
    apply TopologicalSortFacts.arrayIncludes_In in Ei.
    exfalso. apply Htype. now apply (lookupRule_incl _ _ _ E).
  - exfalso. now apply (valid_option_has_rule key).
Qed.

Lemma checkOption_unlisted_type path fileName columnType n mt :
  columnType <> "unknown" -> ~ In columnType ruleTypes ->
  checkOption path fileName columnType n mt <> [].
Proof.
  intros Hknown Htype. unfold checkOption. cbv zeta.
  destruct (String.eqb (trim _) EmptyString); [discriminate|].
  destruct (arrayIncludes validOptions _) eqn:Ev; simpl; [|discriminate].
  apply TopologicalSortFacts.arrayIncludes_In in Ev.
  rewrite (unlisted_type_incompatible _ _ Ev Htype).
  destruct (String.eqb columnType "unknown") eqn:Eu; simpl; [|discriminate].
  apply String.eqb_eq in Eu. contradiction.
Qed.

End CompatibilityFacts.

(** X14: on a column whose type is known but admitted by no compatibility
    rule (such as [enum] and [json]), an options line passing the syntax
    check with at least one quoted entry is always reported. *)
Theorem options_on_a_type_without_rules_are_reported
  (path fileName line : string) (lineNumber : nat) (lines : list string)
  (optionsMatch : Match) :
  exec CubeValidator.optionsRegex line = Some optionsMatch ->
  exec CubeValidator.invalidSyntaxRegex (trim (group1 optionsMatch)) = None ->
  matchAll CubeValidator.quotedOptionRegex (trim (group1 optionsMatch)) <> [] ->
  CubeValidator.getColumnTypeForOptions lines (lineNumber - 1) <> "unknown" ->
  ~ In (CubeValidator.getColumnTypeForOptions lines (lineNumber - 1))
       CompatibilitySpec.ruleTypes ->
  CubeValidator.validateColumnOptions path fileName line lineNumber lines <> [].
Proof.
  intros Hopt Hsyntax Hsome Hknown Htype.
  unfold CubeValidator.validateColumnOptions. rewrite Hopt. cbv zeta. rewrite Hsyntax.
  destruct (matchAll CubeValidator.quotedOptionRegex (trim (group1 optionsMatch)))
    as [|o os]; [contradiction|].
  cbn [flat_map]. intros H. apply app_eq_nil in H. destruct H as [H _].
  revert H. now apply CompatibilityFacts.checkOption_unlisted_type.
Qed.

Lemma options_on_a_type_without_rules_are_reported_witness :
  CubeValidator.validateColumnOptions "/proj/dbcube/orders.table.cube" "orders.table"
    EnumExample.optionsLine 3 EnumExample.lines <> [].
Proof.
  apply (options_on_a_type_without_rules_are_reported
           "/proj/dbcube/orders.table.cube" "orders.table"
           EnumExample.optionsLine 3 EnumExample.lines
           (match exec CubeValidator.optionsRegex EnumExample.optionsLine with
            | Some mt => mt
            | None => mkMatch 0 EmptyString []
            end)).
  - vm_compute. reflexivity.
  - vm_compute. reflexivity.
  - vm_compute. discriminate.
  - vm_compute. discriminate.
  - vm_compute. intuition discriminate.
Defined.

(** ** The counters of a pass *)

Module PassCountFacts.
Import Schema PassSpec.

Section WithEngine.
Variable Payload : Type.

Lemma recordFailure_counts (st : PassState Payload) name e trace :
  countersAgree st -> countersAgree (recordFailure st name e trace).
Proof.
  intros (He & Hs & Ht). unfold countersAgree. simpl.
  rewrite length_app. simpl. repeat split; lia.
Qed.

Lemma processFile_counts mode host (engine : Engine Payload) st file st' :
  countersAgree st ->
  stateOf (processFile mode host engine st file) = Some st' ->
  countersAgree st'
  /\ (processFile mode host engine st file = Continue st' ->
      successCount st' + errorCount st'
      = successCount st + errorCount st + (if isRegular host file then 1 else 0)).
Proof.
  intros Hst. unfold processFile, isRegular. cbv zeta.
  set (filePath := if isAbsolute host file then file else joinCwdDbcube host file).
  destruct (statIsFile host filePath) as [[|]|msg]; simpl; [| |discriminate].
  - destruct (validateDatabaseConfiguration host filePath) as [valid err].
    cbn [vIsValid vError].
    destruct valid, err;
      try (destruct (filter _ _);
           [destruct (engineSteps _ _ _ _) as [trace [u|msg|]]|]);
      simpl; intros H; injection H as <-; simpl;
      (split; [first [apply recordFailure_counts; exact Hst
                     | destruct Hst as (He & Hs & Ht); unfold countersAgree; simpl;
                       rewrite ?length_app; simpl; repeat split; lia]
              | intros; try discriminate; lia]).
  - intros H. injection H as <-. split; [exact Hst | intros _; lia].
Qed.

Lemma processFiles_counts mode host (engine : Engine Payload) files : forall st st',
  countersAgree st ->
  stateOf (processFiles mode host engine st files) = Some st' ->
  countersAgree st'
  /\ (processFiles mode host engine st files = Continue st' ->
      successCount st' + errorCount st'
      = successCount st + errorCount st + List.length (filter (isRegular host) files)).
Proof.
  induction files as [|file files IH]; intros st st' Hst; simpl.
  - intros H. injection H as <-. split; [exact Hst | intros _; lia].
  - destruct (processFile mode host engine st file) as [st1|st1|why] eqn:E.
    + destruct (processFile_counts mode host engine st file st1 Hst) as [H1 Hsum];
        [rewrite E; reflexivity|].
      rewrite E in Hsum. specialize (Hsum eq_refl).
      intros H. destruct (IH st1 st' H1 H) as [H2 Hsum'].
      split; [exact H2|]. intros Hc. specialize (Hsum' Hc).
      destruct (isRegular host file); simpl; lia.
    + simpl. intros H. injection H as <-.
      destruct (processFile_counts mode host engine st file st1 Hst) as [H1 _];
        [rewrite E; reflexivity|].
      split; [exact H1 | discriminate].
    + discriminate.
Qed.

Lemma initialState_counts : countersAgree (initialState Payload).
Proof. repeat split. Qed.

End WithEngine.

End PassCountFacts.

(** X15: however a table pass ends its loop, by reaching the summary or
    by the engine's exit, its counters agree with its lists: as many
    errors as the error counter says, as many processed tables as the
    success counter says, and the total equal to the success counter. *)
Theorem table_pass_counters_agree (Payload : Type) (mode : Schema.Mode) (fuel : nat)
  (host : Host) (engine : Schema.Engine Payload) (store : DependencyResolver.Store)
  (st : Schema.PassState Payload) :
  PassSpec.stateOf (Schema.runTables mode fuel host engine store) = Some st ->
  Schema.errorCount st = List.length (Schema.passErrors st)
  /\ Schema.successCount st = List.length (Schema.processedTables st)
  /\ Schema.totalTablesProcessed st = Schema.successCount st.
Proof.
  unfold Schema.runTables.
  destruct (negb _); [discriminate|].
  destruct (getCubeFilesRecursively host _ _) as [[|f files]|msg]; try discriminate.
  destruct (DependencyResolver.resolveDependencies _ _ _ _ _) as [[order store']|];
    [|discriminate].
  intros H.
  apply (PassCountFacts.processFiles_counts Payload mode host engine _
           (Schema.initialState Payload) st
           (PassCountFacts.initialState_counts Payload) H).
Qed.

Lemma table_pass_counters_agree_witness :
  Schema.errorCount RunExample.final = List.length (Schema.passErrors RunExample.final)
  /\ Schema.successCount RunExample.final
     = List.length (Schema.processedTables RunExample.final)
  /\ Schema.totalTablesProcessed RunExample.final
     = Schema.successCount RunExample.final.
Proof.
  apply (table_pass_counters_agree unit Schema.fresh 3 RunExample.host
           PassExample.engine None RunExample.final).
  vm_compute. reflexivity.
Defined.

(** X16: when the loop over the files runs to its end, every regular file
    has been counted exactly once, as a success or as an error; entries
    that are not regular files are counted as neither. *)
Theorem every_regular_file_is_counted_once (Payload : Type) (mode : Schema.Mode)
  (host : Host) (engine : Schema.Engine Payload) (files : list string)
  (st : Schema.PassState Payload) :
  Schema.processFiles mode host engine (Schema.initialState Payload) files
    = Schema.Continue st ->
  Schema.successCount st + Schema.errorCount st
  = List.length (filter (PassSpec.isRegular host) files).
Proof.
  intros H.
  destruct (PassCountFacts.processFiles_counts Payload mode host engine files
              (Schema.initialState Payload) st
              (PassCountFacts.initialState_counts Payload)) as [_ Hsum].
  - rewrite H. reflexivity.
  - apply Hsum in H. simpl in H. exact H.
Qed.

Lemma every_regular_file_is_counted_once_witness :
  Schema.successCount PassExample.afterParent + Schema.errorCount PassExample.afterParent
  = List.length (filter (PassSpec.isRegular PassExample.host) [PassExample.parentFile]).
Proof.
  apply (every_regular_file_is_counted_once unit Schema.fresh PassExample.host
           PassExample.engine [PassExample.parentFile] PassExample.afterParent).
  vm_compute. reflexivity.
Defined.

(** ** The database check of a file *)

(** X17: [validateDatabaseConfiguration] accepts a file only when the
    validator reports nothing, the database name is read with status 200,
    the configuration loads and its [getDatabase] answers truthy for that
    name; no error is then attached. *)
Theorem validateDatabaseConfiguration_accepts_only_configured_files
  (host : Host) (path : string) :
  Schema.vIsValid (Schema.validateDatabaseConfiguration host path) = true ->
  Schema.vError (Schema.validateDatabaseConfiguration host path) = None
  /\ errors (CubeValidator.validateCubeFile host path) = []
  /\ FileUtils.status (FileUtils.extractDatabaseNameFromCube host path) = 200%Z
  /\ exists getDatabase,
       loadConfig host = Returned getDatabase
       /\ getDatabase (FileUtils.message (FileUtils.extractDatabaseNameFromCube host path))
          = Returned true.
Proof.
  unfold Schema.validateDatabaseConfiguration. cbv zeta.
  destruct (errors (CubeValidator.validateCubeFile host path)) as [|e0 rest];
    [|discriminate].
  destruct (FileUtils.status _ =? 200)%Z eqn:Es; [|discriminate]. simpl.
  apply Z.eqb_eq in Es.
  destruct (loadConfig host) as [getDatabase|msg]; [|discriminate].
  destruct (getDatabase _) as [[|]|msg] eqn:Eg; simpl; try discriminate.
  intros _. split; [reflexivity|]. split; [reflexivity|]. split; [exact Es|].
  exists getDatabase. split; [reflexivity | exact Eg].
Qed.

Lemma validateDatabaseConfiguration_accepts_only_configured_files_witness :
  Schema.vError (Schema.validateDatabaseConfiguration PassExample.host
                   PassExample.childFile) = None
  /\ errors (CubeValidator.validateCubeFile PassExample.host PassExample.childFile) = []
  /\ FileUtils.status
       (FileUtils.extractDatabaseNameFromCube PassExample.host PassExample.childFile)
     = 200%Z
  /\ exists getDatabase,
       loadConfig PassExample.host = Returned getDatabase
       /\ getDatabase
            (FileUtils.message
               (FileUtils.extractDatabaseNameFromCube PassExample.host
                  PassExample.childFile))
          = Returned true.
Proof.
  apply (validateDatabaseConfiguration_accepts_only_configured_files PassExample.host
           PassExample.childFile).
  vm_compute. reflexivity.
Defined.

(** X18: a file that [validateDatabaseConfiguration] rejects carries an
    error for that very path, under the file's base name, at a line that
    exists: at least 1 and at most the number of lines read. When the
    validator has errors, the error is its first one. *)
Theorem validateDatabaseConfiguration_rejects_with_a_located_error
  (host : Host) (path : string) :
  Schema.vIsValid (Schema.validateDatabaseConfiguration host path) = false ->
  exists e n,
    Schema.vError (Schema.validateDatabaseConfiguration host path) = Some e
    /\ itemName e = basename host path (extname host path)
    /\ filePath e = path
    /\ lineNumber e = Some n /\ 1 <= n
    /\ (forall content, readFileSync host path = Returned content ->
          n <= List.length (split_lf content))
    /\ (forall first rest,
          errors (CubeValidator.validateCubeFile host path) = (first :: rest)%list ->
          e = first).
Proof.
  intros Hinvalid.
  destruct (PassFacts.invalid_has_error host path Hinvalid) as [e He].
  destruct (ErrorFacts.vError_located host path e He) as (Hi & Hp & n & Hn & H1 & H2).
  exists e, n. split; [exact He|]. split; [exact Hi|]. split; [exact Hp|].
  split; [exact Hn|]. split; [exact H1|]. split.
  - intros content Hc. rewrite Hc in H2. exact H2.
  - intros first rest Hfirst. unfold Schema.validateDatabaseConfiguration in He.
    cbv zeta in He. rewrite Hfirst in He. simpl in He. now injection He.
Qed.

Lemma validateDatabaseConfiguration_rejects_with_a_located_error_witness :
  exists e n,
    Schema.vError (Schema.validateDatabaseConfiguration PassExample.host
                     PassExample.parentFile) = Some e
    /\ itemName e = basename PassExample.host PassExample.parentFile
                      (extname PassExample.host PassExample.parentFile)
    /\ filePath e = PassExample.parentFile
    /\ lineNumber e = Some n /\ 1 <= n
    /\ (forall content,
          readFileSync PassExample.host PassExample.parentFile = Returned content ->
          n <= List.length (split_lf content))
    /\ (forall first rest,
          errors (CubeValidator.validateCubeFile PassExample.host PassExample.parentFile)
          = (first :: rest)%list ->
          e = first).
Proof.
  apply (validateDatabaseConfiguration_rejects_with_a_located_error PassExample.host
           PassExample.parentFile).
  vm_compute. reflexivity.
Defined.

(** ** The passes over seeders and triggers *)

Module ItemFacts.
Import Schema ItemSpec.

Section WithEngine.
Variable Payload : Type.

Lemma processItem_step kind host (engine : Engine Payload) st file st' :
  processItem kind host engine st file = ItemContinue st' ->
  itemTrace st'
  = (itemTrace st
     ++ if reachesEngine host file then [engineCall Payload kind host file] else [])%list
  /\ (agree st -> agree st').
Proof.
  unfold processItem, reachesEngine, PassSpec.isRegular, engineCall, pathOf. cbv zeta.
  set (filePath := if isAbsolute host file then file else joinCwdDbcube host file).
  destruct (statIsFile host filePath) as [[|]|msg]; simpl; [| |discriminate].
  - destruct (vIsValid (validateDatabaseConfiguration host filePath)) eqn:Ev.
    + destruct (run engine (itemTrace st) _) as [response|msg].
      * destruct (negb _); [discriminate|]. intros H. injection H as <-. simpl.
        split; [reflexivity|]. intros (He & Hs & Ht). unfold agree. simpl.
        rewrite length_app. simpl. repeat split; lia.
      * intros H. injection H as <-. simpl. split; [reflexivity|].
        intros (He & Hs & Ht). unfold agree. simpl.
        rewrite length_app. simpl. repeat split; lia.
    + destruct (PassFacts.invalid_has_error host filePath Ev) as [e ->].
      intros H. injection H as <-. simpl. rewrite app_nil_r. split; [reflexivity|].
      intros (He & Hs & Ht). unfold agree. simpl.
      rewrite length_app. simpl. repeat split; lia.
  - intros H. injection H as <-. rewrite app_nil_r. split; [reflexivity | tauto].
Qed.

Lemma processItems_run kind host (engine : Engine Payload) files : forall st st',
  processItems kind host engine st files = ItemContinue st' ->
  itemTrace st'
  = (itemTrace st
     ++ map (engineCall Payload kind host) (filter (reachesEngine host) files))%list
  /\ (agree st -> agree st').
Proof.
  induction files as [|file files IH]; intros st st' H; simpl in H.
  - injection H as <-. simpl. rewrite app_nil_r. split; [reflexivity | tauto].
  - destruct (processItem kind host engine st file) as [st1|st1|why] eqn:E;
      try discriminate.
    apply processItem_step in E. destruct E as [Htrace Hagree].
    apply IH in H. destruct H as [Htrace' Hagree'].
    split; [|tauto]. rewrite Htrace', Htrace. simpl.
    destruct (reachesEngine host file); simpl.
    + now rewrite <- app_assoc.
    + now rewrite app_nil_r.
Qed.

Lemma summarise_returned (step : ItemStep Payload) st returned :
  summarise step = Summarised st returned ->
  step = ItemContinue st
  /\ (agree st -> returned = returnedFor st).
Proof.
  destruct step as [st0|st0|why]; simpl; try discriminate.
  intros H. injection H as <- <-. split; [reflexivity|].
  intros (He & Hs & Ht). unfold returnedFor. rewrite Ht, Hs, He.
  destruct (processedItems st0); reflexivity.
Qed.

Lemma initial_agree : agree (initialItemState Payload).
Proof. repeat split. Qed.

End WithEngine.

End ItemFacts.

(** X19: when a seeder or trigger pass reaches its summary, the engine
    was run exactly once for each regular file that passes the database
    check, in the order of the loop, and for nothing else: seeders in the
    stored table order, triggers in discovery order. *)
Theorem item_passes_run_the_engine_once_per_accepted_file
  (Payload : Type) (host : Host) (engine : Schema.Engine Payload)
  (store : DependencyResolver.Store) (cubeFiles : list string)
  (st : Schema.ItemState Payload) (returned : option (nat * nat * nat)) :
  (getCubeFilesRecursively host "dbcube" ".seeder.cube" = Returned cubeFiles ->
   Schema.executeSeeders host engine store = Schema.Summarised st returned ->
   Schema.itemTrace st
   = map (ItemSpec.engineCall Payload Schema.seederCubes host)
       (filter (ItemSpec.reachesEngine host)
          (DependencyResolver.orderCubeFiles host store cubeFiles seeder)))
  /\ (getCubeFilesRecursively host "dbcube" ".trigger.cube" = Returned cubeFiles ->
      Schema.executeTriggers host engine = Schema.Summarised st returned ->
      Schema.itemTrace st
      = map (ItemSpec.engineCall Payload Schema.triggerCubes host)
          (filter (ItemSpec.reachesEngine host) cubeFiles)).
Proof.
  split; intros Hfiles;
    [unfold Schema.executeSeeders | unfold Schema.executeTriggers];
    rewrite Hfiles; destruct (negb _); try discriminate;
    destruct cubeFiles as [|f files]; try discriminate; cbv zeta; intros H;
    apply ItemFacts.summarise_returned in H; destruct H as [H _];
    apply ItemFacts.processItems_run in H; destruct H as [H _]; exact H.
Qed.

Lemma item_passes_run_the_engine_once_per_accepted_file_witness :
  Schema.itemTrace SeederExample.final
  = map (ItemSpec.engineCall unit Schema.seederCubes SeederExample.host)
      (filter (ItemSpec.reachesEngine SeederExample.host)
         (DependencyResolver.orderCubeFiles SeederExample.host None
            [SeederExample.badFile; SeederExample.goodFile] seeder)).
Proof.
  apply (item_passes_run_the_engine_once_per_accepted_file unit SeederExample.host
           PassExample.engine None [SeederExample.badFile; SeederExample.goodFile]
           SeederExample.final (Some (1, 1, 1))).
  - vm_compute. reflexivity.
  - vm_compute. reflexivity.
Defined.

(** X20: the value returned after the summary of a seeder or trigger pass
    is [null] exactly when no item was processed; otherwise it holds the
    number of processed items twice, as [processed] and as [success], and
    the number of collected errors. *)
Theorem item_passes_return_the_counts
  (Payload : Type) (host : Host) (engine : Schema.Engine Payload)
  (store : DependencyResolver.Store)
  (st : Schema.ItemState Payload) (returned : option (nat * nat * nat)) :
  Schema.executeSeeders host engine store = Schema.Summarised st returned
  \/ Schema.executeTriggers host engine = Schema.Summarised st returned ->
  returned = ItemSpec.returnedFor st.
Proof.
  intros [H|H]; revert H;
    [unfold Schema.executeSeeders | unfold Schema.executeTriggers];
    destruct (negb _); try discriminate;
    destruct (getCubeFilesRecursively host _ _) as [[|f files]|msg];
    try discriminate; cbv zeta; intros H;
    apply ItemFacts.summarise_returned in H; destruct H as [H Hret];
    apply ItemFacts.processItems_run in H; destruct H as [_ H];
    apply Hret, H, ItemFacts.initial_agree.
Qed.

Lemma item_passes_return_the_counts_witness :
  Some (1, 1, 1) = ItemSpec.returnedFor SeederExample.final.
Proof.
  apply (item_passes_return_the_counts unit SeederExample.host PassExample.engine None
           SeederExample.final (Some (1, 1, 1))).
  left. vm_compute. reflexivity.
Defined.

(** ** Errors collected by a table pass *)

Module PassErrorFacts.
Import Schema ErrorSpec.

Section WithEngine.
Variable Payload : Type.

Lemma recordFailure_errors host (st : PassState Payload) name e trace :
  Forall (wellLocated host) (passErrors st) -> wellLocated host e ->
  Forall (wellLocated host) (passErrors (recordFailure st name e trace)).
Proof.
  intros Hst He. simpl. apply Forall_app. split; [exact Hst|].
  constructor; [exact He | constructor].
Qed.

(** The part of the loop body after the database check. *)
Ltac after_check Hst :=
  destruct (filter _ _) as [|firstMissing rest];
  [ destruct (engineSteps _ _ _ _) as [trace [u|msg|]]; simpl;
    intros H; injection H as <-; simpl;
    [ exact Hst
    | apply Forall_app; split; [exact Hst|]; constructor; [|constructor];
      intros n Hn; discriminate
    | exact Hst ]
  | simpl; intros H; injection H as <-; apply recordFailure_errors; [exact Hst|];
    match goal with
    | |- wellLocated ?host (mkProcessError ?name _ ?path (Some (findForeignKeyLineNumber _ _ ?d))) =>
        apply (ErrorFacts.located_wellLocated host name path);
        pose proof (ErrorFacts.findForeignKeyLineNumber_located host path d) as [Hlo Hhi];
        split; [reflexivity|]; split; [reflexivity|];
        exists (findForeignKeyLineNumber host path d); split; [reflexivity | lia]
    end ].

Lemma processFile_errors mode host (engine : Engine Payload) st file st' :
  Forall (wellLocated host) (passErrors st) ->
  PassSpec.stateOf (processFile mode host engine st file) = Some st' ->
  Forall (wellLocated host) (passErrors st').
Proof.
  intros Hst. unfold processFile. cbv zeta.
  set (filePath := if isAbsolute host file then file else joinCwdDbcube host file).
  destruct (statIsFile host filePath) as [[|]|msg]; simpl; [| |discriminate].
  - destruct (vIsValid (validateDatabaseConfiguration host filePath)) eqn:Ev;
      destruct (vError (validateDatabaseConfiguration host filePath)) as [e|] eqn:Ee.
    + after_check Hst.
    + after_check Hst.
    + simpl. intros H. injection H as <-. apply recordFailure_errors; [exact Hst|].
      apply (ErrorFacts.located_wellLocated host
               (basename host filePath (extname host filePath)) filePath).
      now apply ErrorFacts.vError_located.
    + after_check Hst.
  - intros H. injection H as <-. exact Hst.
Qed.

Lemma processFiles_errors mode host (engine : Engine Payload) files : forall st st',
  Forall (wellLocated host) (passErrors st) ->
  PassSpec.stateOf (processFiles mode host engine st files) = Some st' ->
  Forall (wellLocated host) (passErrors st').
Proof.
  induction files as [|file files IH]; intros st st' Hst; simpl.
  - intros H. injection H as <-. exact Hst.
  - destruct (processFile mode host engine st file) as [st1|st1|why] eqn:E.
    + apply IH. apply (processFile_errors mode host engine st file st1 Hst).
      now rewrite E.
    + simpl. intros H. injection H as <-.
      apply (processFile_errors mode host engine st file st1 Hst). now rewrite E.
    + discriminate.
Qed.

End WithEngine.

End PassErrorFacts.

(** X21: every error a table pass has collected that carries a line
    number points at a line of its own file: the number is at least 1 and,
    when the file can be read, at most the number of its lines. *)
Theorem table_pass_errors_point_into_their_files
  (Payload : Type) (mode : Schema.Mode) (fuel : nat) (host : Host)
  (engine : Schema.Engine Payload) (store : DependencyResolver.Store)
  (st : Schema.PassState Payload) (e : ProcessError) (n : nat) :
  PassSpec.stateOf (Schema.runTables mode fuel host engine store) = Some st ->
  In e (Schema.passErrors st) ->
  lineNumber e = Some n ->
  1 <= n
  /\ forall content, readFileSync host (filePath e) = Returned content ->
       n <= List.length (split_lf content).
Proof.
  unfold Schema.runTables.
  destruct (negb _); [discriminate|].
  destruct (getCubeFilesRecursively host _ _) as [[|f files]|msg]; try discriminate.
  destruct (DependencyResolver.resolveDependencies _ _ _ _ _) as [[order store']|];
    [|discriminate].
  intros H Hin Hn.
  pose proof (PassErrorFacts.processFiles_errors Payload mode host engine _
                (Schema.initialState Payload) st (Forall_nil _) H) as Hall.
  rewrite Forall_forall in Hall. exact (Hall e Hin n Hn).
Qed.

Lemma table_pass_errors_point_into_their_files_witness :
  1 <= 13
  /\ forall content,
       readFileSync RunExample.host
         (filePath (mkProcessError "child"
                      "Cannot create table 'child' because it depends on failed table(s): parent"
                      PassExample.childFile (Some 13)))
       = Returned content ->
       13 <= List.length (split_lf content).
Proof.
  apply (table_pass_errors_point_into_their_files unit Schema.fresh 3 RunExample.host
           PassExample.engine None RunExample.final
           (mkProcessError "child"
              "Cannot create table 'child' because it depends on failed table(s): parent"
              PassExample.childFile (Some 13)) 13).
  - vm_compute. reflexivity.
  - vm_compute. right. left. reflexivity.
  - reflexivity.
Defined.

(** X22: resolving for seeders always returns (any fuel above the number
    of files is enough); with a writable order file the order it returns
    is the one it stores, its table sequence is empty, and a following
    [orderCubeFiles] returns files of pairwise distinct names exactly as
    they were given. *)
Theorem resolving_seeders_then_ordering_keeps_the_input
  (fuel : nat) (host : Host) (store : DependencyResolver.Store)
  (seederFiles files : list string) (cubeType : CubeType) :
  orderFileWritable host = true ->
  List.length seederFiles < fuel ->
  NoDup (map (OrderSpec.nameOf host cubeType) files) ->
  exists order,
    DependencyResolver.resolveDependencies fuel host store seederFiles seeder
      = Some (order, Some order)
    /\ tables order = []
    /\ DependencyResolver.orderCubeFiles host (Some order) files cubeType = files.
Proof.
  intros Hw Hfuel Hnd.
  pose proof (ResolverFacts.resolveDependencies_total fuel host store seederFiles
                seeder Hfuel) as Htotal.
  unfold DependencyResolver.resolveDependencies in *. cbv zeta in *.
  destruct (DependencyResolver.topologicalSort fuel _) as [orderedTables|];
    [|contradiction].
  unfold DependencyResolver.saveExecutionOrder. rewrite Hw.
  eexists. split; [reflexivity|]. split; [reflexivity|].
  rewrite OrderFacts.orderCubeFiles_reorder. cbn [tables].
  rewrite OrderShapeFacts.reorder_shape; [|exact Hnd | constructor].
  simpl. unfold OrderShapeSpec.unlisted. simpl.
  apply List.forallb_filter_id. apply forallb_forall. reflexivity.
Qed.

Lemma resolving_seeders_then_ordering_keeps_the_input_witness :
  exists order,
    DependencyResolver.resolveDependencies 3 ChainExample.host None
      [SeederExample.badFile; SeederExample.goodFile] seeder
      = Some (order, Some order)
    /\ tables order = []
    /\ DependencyResolver.orderCubeFiles ChainExample.host (Some order)
         [ChainExample.fileC; ChainExample.fileB; ChainExample.fileA] table
       = [ChainExample.fileC; ChainExample.fileB; ChainExample.fileA].
Proof.
  apply (resolving_seeders_then_ordering_keeps_the_input 3 ChainExample.host None
           [SeederExample.badFile; SeederExample.goodFile]
           [ChainExample.fileC; ChainExample.fileB; ChainExample.fileA] table).
  - reflexivity.
  - simpl. lia.
  - vm_compute. repeat constructor; simpl; intuition discriminate.
Defined.
